(** * resumeRAG: the indexing and retrieval engine

    A shallow embedding of [app/services/indexing] (the keyword/BM25 indexer,
    the two vector-store backed indexers and the indexer factory) together
    with the properties of the engine's specification.

    Conventions of the embedding.
    - Python [str] values are Rocq [string]s; the character classes of
      [str.lower], [str.strip], [str.split] and of the regular expressions
      are the ones Python uses on ASCII text.
    - Python [float] arithmetic is an interface ([Arith]) with two
      implementations: [Binary64.arith], IEEE 754 double precision as
      CPython computes it, and [Exact.arith], the real numbers. The keyword
      indexer is embedded over the interface; the scores the vector store
      returns are real numbers. [math.log] and [/] are partial, as in
      Python, and an exception is the result [None].
    - [dict] values are [gmap]s, [set] values are [gset]s.
    - [uuid.uuid4()] and [datetime.utcnow()] are inputs of the operation that
      calls them. *)

From Stdlib Require Import Reals Lra Lia ZArith Ascii String.
From Stdlib Require Floats.
From stdpp Require Import base option gmap strings pretty list sorting.

Local Open Scope Z_scope.
Local Open Scope nat_scope.

(** ** Python string primitives *)

Module PyStr.

Definition is_upper (c : ascii) : bool :=
  let n := nat_of_ascii c in (65 <=? n) && (n <=? 90).

(** [str.lower] on one character. *)
Definition lower_char (c : ascii) : ascii :=
  if is_upper c then ascii_of_nat (nat_of_ascii c + 32) else c.

(** [str.lower]. *)
Fixpoint lower (s : string) : string :=
  match s with
  | EmptyString => EmptyString
  | String c s' => String (lower_char c) (lower s')
  end.

(** [str.isspace] on one character: tab to carriage return, the four
    separators 0x1c to 0x1f, and the space. *)
Definition isspace (c : ascii) : bool :=
  let n := nat_of_ascii c in
  ((9 <=? n) && (n <=? 13)) || ((28 <=? n) && (n <=? 31)) || (n =? 32).

(** The class [\w] of [re]: letters, digits and the underscore. *)
Definition is_word (c : ascii) : bool :=
  let n := nat_of_ascii c in
  ((48 <=? n) && (n <=? 57)) || ((65 <=? n) && (n <=? 90))
  || ((97 <=? n) && (n <=? 122)) || (n =? 95).

(** The class [[.!?]] of the sentence splitter. *)
Definition is_sentence_end (c : ascii) : bool :=
  let n := nat_of_ascii c in (n =? 46) || (n =? 33) || (n =? 63).

Fixpoint lstrip (s : string) : string :=
  match s with
  | EmptyString => EmptyString
  | String c s' => if isspace c then lstrip s' else s
  end.

(** [str.strip()]. *)
Definition strip (s : string) : string :=
  String.rev (lstrip (String.rev (lstrip s))).

(** [len]. *)
Definition len (s : string) : nat := String.length s.

Fixpoint take (n : nat) (s : string) : string :=
  match n, s with
  | S n', String c s' => String c (take n' s')
  | _, _ => EmptyString
  end.

Fixpoint drop (n : nat) (s : string) : string :=
  match n, s with
  | S n', String _ s' => drop n' s'
  | _, _ => s
  end.

(** [s[start:stop]] for [0 <= start] and [0 <= stop]. *)
Definition slice (start stop : nat) (s : string) : string :=
  take (stop - start) (drop start s).

Fixpoint starts_with (p s : string) : bool :=
  match p, s with
  | EmptyString, _ => true
  | String a p', String b s' => if decide (a = b) then starts_with p' s' else false
  | String _ _, EmptyString => false
  end.

(** [s.find(sub)]: the lowest index where [sub] starts, [None] for -1. *)
Fixpoint find (sub s : string) : option nat :=
  if starts_with sub s then Some 0
  else match s with
       | EmptyString => None
       | String _ s' => S <$> find sub s'
       end.

(** [sub in s]. *)
Definition contains (sub s : string) : bool := bool_decide (is_Some (find sub s)).

(** [s.count(sub)] for a non-empty [sub]: occurrences that do not overlap,
    scanning from the left. The fuel is the length of [s]. *)
Fixpoint count_go (fuel : nat) (sub s : string) : nat :=
  match fuel with
  | O => 0
  | S fuel' =>
      if starts_with sub s then
        S (count_go fuel' sub (drop (Nat.pred (len sub)) (drop 1 s)))
      else match s with
           | EmptyString => 0
           | String _ s' => count_go fuel' sub s'
           end
  end.

Definition count (sub s : string) : nat := count_go (S (len s)) sub s.

(** [re.findall(r'\b\w+\b', s)]: the maximal runs of word characters.
    [cur] is the run being read, in reverse. *)
Fixpoint findall_words_go (cur : string) (s : string) : list string :=
  match s with
  | EmptyString =>
      match cur with EmptyString => [] | _ => [String.rev cur] end
  | String c s' =>
      if is_word c then findall_words_go (String c cur) s'
      else match cur with
           | EmptyString => findall_words_go EmptyString s'
           | _ => String.rev cur :: findall_words_go EmptyString s'
           end
  end.

Definition findall_words (s : string) : list string :=
  findall_words_go EmptyString s.

(** [re.split(r'[.!?]+', s)]: the pieces between maximal runs of sentence
    punctuation, empty pieces at both ends included. [in_sep] tells that
    the previous character belonged to a separator. *)
Fixpoint split_sentences_go (cur : string) (in_sep : bool) (s : string)
  : list string :=
  match s with
  | EmptyString => [String.rev cur]
  | String c s' =>
      if is_sentence_end c then
        if in_sep then split_sentences_go EmptyString true s'
        else String.rev cur :: split_sentences_go EmptyString true s'
      else split_sentences_go (String c cur) false s'
  end.

Definition split_sentences (s : string) : list string :=
  split_sentences_go EmptyString false s.

(** [str.split()]: the maximal runs of characters that are not white
    space. *)
Fixpoint split_go (cur : string) (s : string) : list string :=
  match s with
  | EmptyString =>
      match cur with EmptyString => [] | _ => [String.rev cur] end
  | String c s' =>
      if isspace c then
        match cur with
        | EmptyString => split_go EmptyString s'
        | _ => String.rev cur :: split_go EmptyString s'
        end
      else split_go (String c cur) s'
  end.

Definition split (s : string) : list string := split_go EmptyString s.

(** [sep.join(l)]. *)
Fixpoint join (sep : string) (l : list string) : string :=
  match l with
  | [] => EmptyString
  | [x] => x
  | x :: l' => x +:+ sep +:+ join sep l'
  end.

(** [l[:k]] on a list, for any integer [k]. *)
Definition list_slice_to {A} (k : Z) (l : list A) : list A :=
  if (0 <=? k)%Z then firstn (Z.to_nat k) l
  else firstn (length l - Z.to_nat (- k)) l.

End PyStr.

(** ** Python [float] arithmetic *)

(** The operations on [float] values, and on the [int] values that meet
    them, which the engine uses.
    - [float_lit m k] is the literal whose digits are those of [m], the last
      [k] of them decimals: [float_lit 75 2] is [0.75];
    - [of_int] is the conversion of the [int] operand of a mixed operation;
    - [int_truediv a b] is [a / b] on two [int]s, for [b] other than 0;
    - [py_div] is [/] on two floats, [None] being [ZeroDivisionError];
    - [math_log] is [math.log], [None] being [ValueError];
    - [float_lt] is [<]. *)
Class Arith : Type := mkArith {
  float : Type;
  float_lit : Z → nat → float;
  of_int : Z → float;
  int_truediv : Z → Z → float;
  float_add : float → float → float;
  float_sub : float → float → float;
  float_mul : float → float → float;
  py_div : float → float → option float;
  math_log : float → option float;
  float_lt : float → float → bool
}.

Arguments float : clear implicits.

Infix "⊕" := float_add (at level 50, left associativity).
Infix "⊖" := float_sub (at level 50, left associativity).
Infix "⊗" := float_mul (at level 40, left associativity).

(** What the stable sort of Python needs of [<] to have one result: on the
    keys it sorts, [<] is a strict weak order. The keys [search] sorts are
    scores above 0, none of which is a NaN. *)
Class ArithOrder (A : Arith) : Prop := mkArithOrder {
  float_lt_asym : ∀ x y : float A, float_lt x y = true → float_lt y x = false;
  float_lt_negtrans : ∀ x y z : float A,
    float_lt (of_int 0) y = true →
    float_lt x y = false → float_lt y z = false → float_lt x z = false;
  float_lit_zero : float_lt (of_int 0) (float_lit 0 1 : float A) = false
}.

(** The real numbers: the arithmetic in which the formulas of the
    specification are read. Nothing is rounded. *)
Module Exact.

Definition float_lit (m : Z) (k : nat) : R := (IZR m / IZR (10 ^ Z.of_nat k))%R.

Definition int_truediv (a b : Z) : R := (IZR a / IZR b)%R.

(** [x / y]: [ZeroDivisionError] when [y] is zero. *)
Definition py_div (x y : R) : option R :=
  if Req_dec_T y 0 then None else Some (x / y)%R.

(** [math.log x]: [ValueError] unless [x] is positive. *)
Definition math_log (x : R) : option R :=
  if Rlt_dec 0 x then Some (ln x) else None.

Definition float_lt (x y : R) : bool :=
  if Rlt_dec x y then true else false.

Definition arith : Arith :=
  mkArith R float_lit IZR int_truediv Rplus Rminus Rmult py_div math_log float_lt.

End Exact.

(** IEEE 754 double precision, the [float] of CPython: every operation
    returns the representable number nearest to the exact result, ties to
    even. [+], [-], [*], [/] and [<] are the primitive operations of the
    processor; the conversion of an [int], the division of two [int]s and
    the reading of a literal are correctly rounded, as in CPython. The
    integers converted are lengths and counts of what the process holds in
    memory, far below the magnitude at which CPython raises
    [OverflowError], which is therefore not modelled. [math.log] calls the
    logarithm of the platform's C library, [libm_log], after its own check
    of the argument. *)
Module Binary64.

Definition spec_of_int (z : Z) : SpecFloat.spec_float :=
  match z with
  | Z0 => SpecFloat.S754_zero false
  | Zpos p => SpecFloat.S754_finite false p 0
  | Zneg p => SpecFloat.S754_finite true p 0
  end.

Definition of_int (z : Z) : PrimFloat.float :=
  FloatOps.SF2Prim
    (SpecFloat.binary_normalize FloatOps.prec FloatOps.emax z 0 false).

Definition int_truediv (a b : Z) : PrimFloat.float :=
  FloatOps.SF2Prim
    (SpecFloat.SFdiv FloatOps.prec FloatOps.emax (spec_of_int a) (spec_of_int b)).

Definition float_lit (m : Z) (k : nat) : PrimFloat.float :=
  int_truediv m (10 ^ Z.of_nat k).

(** [x / y]: [ZeroDivisionError] when [y == 0.0], which [-0.0] is too. *)
Definition py_div (x y : PrimFloat.float) : option PrimFloat.float :=
  if PrimFloat.eqb y PrimFloat.zero then None else Some (PrimFloat.div x y).

(** [math.log x]: [ValueError] when [x <= 0.0]; a NaN goes through. *)
Definition math_log (libm_log : PrimFloat.float → PrimFloat.float)
    (x : PrimFloat.float) : option PrimFloat.float :=
  if PrimFloat.leb x PrimFloat.zero then None else Some (libm_log x).

Definition arith (libm_log : PrimFloat.float → PrimFloat.float) : Arith :=
  mkArith PrimFloat.float float_lit of_int int_truediv
    PrimFloat.add PrimFloat.sub PrimFloat.mul py_div (math_log libm_log)
    PrimFloat.ltb.

End Binary64.

#[global] Instance Rlt_decision : RelDecision Rlt := Rlt_dec.

(** [sorted(l, key=key, reverse=True)] and [l.sort(key=key, reverse=True)]:
    Python's sort is stable, also when reversed, so an element moves in front
    of the ones that were before it only when its key is strictly greater.
    This is the result of Python's sort whenever [<] orders the keys (see
    [ArithOrder]). *)
Fixpoint insert_desc {A : Arith} {X} (key : X → float A) (x : X) (l : list X)
  : list X :=
  match l with
  | [] => [x]
  | y :: l' =>
      if float_lt (key x) (key y) then y :: insert_desc key x l'
      else x :: y :: l'
  end.

Definition sort_desc {A : Arith} {X} (key : X → float A) (l : list X) : list X :=
  foldr (insert_desc key) [] l.

(** ** base_indexer.py *)

(** The values the engine itself stores in metadata and filter dictionaries
    ([Dict[str, Any]]): strings, integers and [None]. *)
Inductive value : Type :=
  | VNone
  | VStr (s : string)
  | VInt (z : Z).

#[global] Instance value_eq_dec : EqDecision value.
Proof. solve_decision. Defined.

(** [d.get(key)] *)
Definition dict_get (d : gmap string value) (key : string) : value :=
  default VNone (d !! key).

(** [d.get(key, dflt)] *)
Definition dict_get_or (d : gmap string value) (key : string) (dflt : value) : value :=
  default dflt (d !! key).

Record IndexedDocument : Type := mkIndexedDocument {
  doc_id : string;
  content : string;
  metadata : gmap string value;
  chunk_index : nat;
  created_at : string
}.

(** [SearchResult]; [F] is the type of its [score]. *)
Record SearchResultOf (F : Type) : Type := mkSearchResult {
  r_content : string;
  r_score : F;
  r_metadata : gmap string value;
  r_doc_id : value;
  r_chunk_index : value
}.

Arguments mkSearchResult {F}.
Arguments r_content {F}.
Arguments r_score {F}.
Arguments r_metadata {F}.
Arguments r_doc_id {F}.
Arguments r_chunk_index {F}.

(** The results of the indexers over a vector store. *)
Abbreviation SearchResult := (SearchResultOf R).

Record IndexStats : Type := mkIndexStats {
  documents_indexed : nat;
  chunks_created : nat;
  last_updated : option string;
  strategy : string
}.

(** [BaseIndexer.__init__] and the reset in [delete_session_data]. *)
Definition fresh_stats (class_name : string) : IndexStats :=
  mkIndexStats 0 0 None class_name.

(** [BaseIndexer.update_stats] *)
Definition update_stats (now : string) (st : IndexStats)
    (documents_added chunks_added : nat) : IndexStats :=
  mkIndexStats (documents_indexed st + documents_added)
               (chunks_created st + chunks_added)
               (Some now) (strategy st).

(** The dictionary [index_document] returns. *)
Record IndexResult : Type := mkIndexResult {
  res_doc_id : string;
  res_chunks_created : nat;
  res_strategy : string;
  res_success : bool
}.

(** ** config.py: the fields of [settings] the engine reads *)

Inductive EmbeddingProvider := google | openai | huggingface.
Inductive VectorStoreProvider := chromadb | faiss.

Record Settings : Type := mkSettings {
  google_api_key : option string;
  openai_api_key : option string;
  embedding_provider : EmbeddingProvider;
  vector_store_provider : VectorStoreProvider;
  google_embedding_model : string;
  openai_embedding_model : string;
  chunk_size : Z;
  chunk_overlap : Z
}.

(** The defaults of the [Settings] class. *)
Definition default_settings : Settings :=
  mkSettings None None google chromadb
    "models/text-embedding-004" "text-embedding-3-small" 800 100.

(** ** keyword_indexer.py *)

Module Keyword.

Record KeywordIndexer (A : Arith) : Type := mkKeywordIndexer {
  session_id : string;
  index_stats : IndexStats;
  documents : list IndexedDocument;
  term_frequencies : gmap string (gmap string nat);
  document_frequencies : gmap string nat;
  total_documents : nat;
  avg_doc_length : float A;
  doc_lengths : gmap string nat
}.

Arguments mkKeywordIndexer {A}.
Arguments session_id {A}.
Arguments index_stats {A}.
Arguments documents {A}.
Arguments term_frequencies {A}.
Arguments document_frequencies {A}.
Arguments total_documents {A}.
Arguments avg_doc_length {A}.
Arguments doc_lengths {A}.

Definition _preprocess_text (text : string) : list string :=
  PyStr.findall_words (PyStr.lower text).

(** One turn of the loop of [_chunk_text]; the state is
    [(chunks, current_chunk)]. *)
Definition chunk_step (size : Z) (acc : list string * string) (sentence : string)
  : list string * string :=
  let '(chunks, current_chunk) := acc in
  let sentence := PyStr.strip sentence in
  if decide (sentence = "") then acc
  else if (Z.of_nat (PyStr.len current_chunk) + Z.of_nat (PyStr.len sentence) <? size)%Z
  then (chunks,
        if decide (current_chunk = "") then sentence
        else current_chunk +:+ " " +:+ sentence)
  else (if decide (current_chunk = "") then chunks else chunks ++ [current_chunk],
        sentence).

Definition _chunk_text (cfg : Settings) (text : string) : list string :=
  let sentences := PyStr.split_sentences text in
  let '(chunks, current_chunk) :=
    fold_left (chunk_step (chunk_size cfg)) sentences ([], "") in
  let chunks :=
    if decide (current_chunk = "") then chunks else chunks ++ [current_chunk] in
  match chunks with [] => [text] | _ => chunks end.

(** [Counter(words)] *)
Definition Counter (words : list string) : gmap string nat :=
  fold_left (λ m w, <[w := S (default 0 (m !! w))]> m) words ∅.

(** [f"{doc_id}_{i}"] *)
Definition chunk_id_of (doc_id : string) (i : nat) : string :=
  doc_id +:+ "_" +:+ pretty i.

(** The loop over [unique_words] in [index_document]. *)
Definition bump_document_frequencies (unique_words : gset string)
    (df : gmap string nat) : gmap string nat :=
  set_fold (λ word df, <[word := default 0 (df !! word) + 1]> df) df unique_words.

(** [sum(self.doc_lengths.values())] *)
Definition sum_doc_lengths (dl : gmap string nat) : nat :=
  map_fold (λ _ n acc, n + acc) 0 dl.

(** The recomputation of [document_frequencies] in [delete_session_data]. *)
Definition recompute_document_frequencies (tfs : gmap string (gmap string nat))
  : gmap string nat :=
  map_fold (λ _ term_freq df,
              map_fold (λ term _ df, <[term := default 0 (df !! term) + 1]> df)
                       df term_freq)
           ∅ tfs.

Section arith.
Context {A : Arith}.

(** BM25 parameters, set once in [__init__]. *)
Definition k1 : float A := float_lit 15 1.
Definition b : float A := float_lit 75 2.

(** [KeywordIndexer(session_id)]; [avg_doc_length] starts as the [int] 0. *)
Definition init (sid : string) : KeywordIndexer A :=
  mkKeywordIndexer sid (fresh_stats "KeywordIndexer") [] ∅ ∅ 0 (of_int 0) ∅.

(** The body of the loop over [enumerate(chunks)]. *)
Definition index_chunk (base_metadata : gmap string value) (uuid now : string)
    (s : KeywordIndexer A) (i : nat) (chunk : string) : KeywordIndexer A :=
  let chunk_id := chunk_id_of uuid i in
  let chunk_metadata :=
    <["chunk_id" := VStr chunk_id]>
      (<["chunk_index" := VInt (Z.of_nat i)]> base_metadata) in
  let words := _preprocess_text chunk in
  let word_counts := Counter words in
  let indexed_doc := mkIndexedDocument chunk_id chunk chunk_metadata i now in
  let unique_words : gset string := list_to_set words in
  mkKeywordIndexer (session_id s) (index_stats s)
    (documents s ++ [indexed_doc])
    (<[chunk_id := word_counts]> (term_frequencies s))
    (bump_document_frequencies unique_words (document_frequencies s))
    (total_documents s) (avg_doc_length s)
    (<[chunk_id := length words]> (doc_lengths s)).

Fixpoint index_chunks (base_metadata : gmap string value) (uuid now : string)
    (i : nat) (chunks : list string) (s : KeywordIndexer A) : KeywordIndexer A :=
  match chunks with
  | [] => s
  | chunk :: rest =>
      index_chunks base_metadata uuid now (S i) rest
        (index_chunk base_metadata uuid now s i chunk)
  end.

(** [_update_avg_doc_length]: a division of two [int]s, the second of
    which is not 0 under the test. *)
Definition _update_avg_doc_length (s : KeywordIndexer A) : KeywordIndexer A :=
  if decide (doc_lengths s = ∅) then s
  else mkKeywordIndexer (session_id s) (index_stats s) (documents s)
         (term_frequencies s) (document_frequencies s) (total_documents s)
         (int_truediv (Z.of_nat (sum_doc_lengths (doc_lengths s)))
                      (Z.of_nat (size (doc_lengths s))))
         (doc_lengths s).

(** [index_document(document, metadata)]; [uuid] is the value of
    [uuid.uuid4()] and [now] the reading of the clock. *)
Definition index_document (cfg : Settings) (uuid now : string)
    (s : KeywordIndexer A) (document : string) (metadata : gmap string value)
  : KeywordIndexer A * IndexResult :=
  let base_metadata : gmap string value :=
    metadata ∪ <["session_id" := VStr (session_id s)]>
                 (<["doc_id" := VStr uuid]>
                   (<["indexed_at" := VStr now]> ∅)) in
  let chunks := _chunk_text cfg document in
  let s1 := index_chunks base_metadata uuid now 0 chunks s in
  let s2 := mkKeywordIndexer (session_id s1) (index_stats s1) (documents s1)
              (term_frequencies s1) (document_frequencies s1)
              (total_documents s1 + length chunks) (avg_doc_length s1)
              (doc_lengths s1) in
  let s3 := _update_avg_doc_length s2 in
  let s4 := mkKeywordIndexer (session_id s3)
              (update_stats now (index_stats s3) 1 (length chunks))
              (documents s3) (term_frequencies s3) (document_frequencies s3)
              (total_documents s3) (avg_doc_length s3) (doc_lengths s3) in
  (s4, mkIndexResult uuid (length chunks) "keyword" true).

(** What one query term adds to the score of a chunk: the body of the loop
    of [_calculate_bm25_score] from the IDF calculation on. [n] is
    [self.total_documents] and [avg] is [self.avg_doc_length]; an [int]
    operand is converted where it meets a float, and [None] is an exception
    of the arithmetic. *)
Definition bm25_term (n df tf doc_length : nat) (avg : float A) : option (float A) :=
  ratio ← py_div (of_int (Z.of_nat n - Z.of_nat df) ⊕ float_lit 5 1)
                 (of_int (Z.of_nat df) ⊕ float_lit 5 1);
  idf ← math_log ratio;
  let numerator := of_int (Z.of_nat tf) ⊗ (k1 ⊕ of_int 1) in
  rel ← py_div (of_int (Z.of_nat doc_length)) avg;
  let denominator :=
    of_int (Z.of_nat tf) ⊕ (k1 ⊗ ((of_int 1 ⊖ b) ⊕ (b ⊗ rel))) in
  q ← py_div numerator denominator;
  Some (idf ⊗ q).

(** The loop over [query_terms] in [_calculate_bm25_score]; [tfd] is
    [self.term_frequencies[doc_id]]. *)
Fixpoint bm25_loop (s : KeywordIndexer A) (tfd : gmap string nat)
    (doc_length : nat) (query_terms : list string) (score : float A)
  : option (float A) :=
  match query_terms with
  | [] => Some score
  | term :: rest =>
      match tfd !! term with
      | Some tf =>
          let df := default 0 (document_frequencies s !! term) in
          if decide (df = 0) then bm25_loop s tfd doc_length rest score
          else
            c ← bm25_term (total_documents s) df tf doc_length (avg_doc_length s);
            bm25_loop s tfd doc_length rest (score ⊕ c)
      | None => bm25_loop s tfd doc_length rest score
      end
  end.

Definition _calculate_bm25_score (s : KeywordIndexer A)
    (query_terms : list string) (doc_id : string) : option (float A) :=
  match term_frequencies s !! doc_id with
  | None => Some (float_lit 0 1)
  | Some tfd =>
      let doc_length := default 0 (doc_lengths s !! doc_id) in
      bm25_loop s tfd doc_length query_terms (float_lit 0 1)
  end.

(** The two pre-filters of [search]: the session, then every entry of
    [filters]. *)
Definition passes_filters (s : KeywordIndexer A) (filters : gmap string value)
    (doc : IndexedDocument) : bool :=
  bool_decide (dict_get (metadata doc) "session_id" = VStr (session_id s))
  && bool_decide (map_Forall (λ key v, dict_get (metadata doc) key = v) filters).

(** The loop over [self.documents] in [search]. *)
Fixpoint score_documents (s : KeywordIndexer A) (query_terms : list string)
    (filters : gmap string value) (docs : list IndexedDocument)
  : option (list (IndexedDocument * float A)) :=
  match docs with
  | [] => Some []
  | doc :: rest =>
      if passes_filters s filters doc then
        score ← _calculate_bm25_score s query_terms (doc_id doc);
        scores ← score_documents s query_terms filters rest;
        Some (if float_lt (of_int 0) score then (doc, score) :: scores else scores)
      else score_documents s query_terms filters rest
  end.

Definition to_result (p : IndexedDocument * float A)
  : SearchResultOf (float A) :=
  mkSearchResult (content p.1) p.2 (metadata p.1)
    (dict_get_or (metadata p.1) "doc_id" (VStr ""))
    (VInt (Z.of_nat (chunk_index p.1))).

(** [search(query, top_k, filters)]; [filters = None] is the empty
    dictionary. [None] is an exception that leaves [search]. *)
Definition search (s : KeywordIndexer A) (query : string) (top_k : Z)
    (filters : gmap string value) : option (list (SearchResultOf (float A))) :=
  match documents s with
  | [] => Some []
  | _ =>
      let query_terms := _preprocess_text query in
      match query_terms with
      | [] => Some []
      | _ =>
          scores ← score_documents s query_terms filters (documents s);
          let scores := sort_desc snd scores in
          let scores := PyStr.list_slice_to top_k scores in
          Some (to_result <$> scores)
      end
  end.

Definition in_session (s : KeywordIndexer A) (doc : IndexedDocument) : bool :=
  bool_decide (dict_get (metadata doc) "session_id" = VStr (session_id s)).

(** [delete_session_data()]; nothing in its body can raise, so the
    handler that returns [False] is never entered. *)
Definition delete_session_data (s : KeywordIndexer A) : KeywordIndexer A * bool :=
  let session_docs := filter (λ doc, in_session s doc = true) (documents s) in
  let documents' := filter (λ doc, in_session s doc ≠ true) (documents s) in
  let tfs := foldl (λ m doc, delete (doc_id doc) m) (term_frequencies s) session_docs in
  let dls := foldl (λ m doc, delete (doc_id doc) m) (doc_lengths s) session_docs in
  let dfs := recompute_document_frequencies tfs in
  let s1 := mkKeywordIndexer (session_id s) (index_stats s) documents' tfs dfs
              (length documents') (avg_doc_length s) dls in
  let s2 := _update_avg_doc_length s1 in
  (mkKeywordIndexer (session_id s2) (fresh_stats "KeywordIndexer")
     (documents s2) (term_frequencies s2) (document_frequencies s2)
     (total_documents s2) (avg_doc_length s2) (doc_lengths s2),
   true).

End arith.

End Keyword.

(** ** The external collaborators

    The embedding model, the vector store and langchain's text splitter are
    not part of the repository. The engine reaches them through the
    operations below; [None] is an exception raised by the collaborator. *)

(** A [langchain] document returned by the vector store. *)
Record Document : Type := mkDocument {
  page_content : string;
  doc_metadata : gmap string value
}.

Record External : Type := mkExternal {
  (** the state of one vector-store collection *)
  store : Type;
  (** what [ModelFactory.create_vector_store] returns for a provider and a
      collection name: a [Chroma] collection, or the [FAISS] class *)
  open_collection : VectorStoreProvider → string → store;
  (** [vector_store.add_texts(texts, metadatas)] *)
  add_texts : store → list string → list (gmap string value) → option store;
  (** [vector_store.similarity_search_with_score(query, k, filter)] *)
  similarity_search_with_score :
    store → string → Z → gmap string value → option (list (Document * R));
  (** [RecursiveCharacterTextSplitter(chunk_size, chunk_overlap, separators)
      .split_text(text)] *)
  split_text : Z → Z → list string → string → list string
}.

(** ** model_factory.py *)

Inductive exn : Type :=
  | ValueError (msg : string)
  | ImportError (msg : string).

(** The outcome of a call that can raise. *)
Inductive py (A : Type) : Type :=
  | Ok (a : A)
  | Raise (e : exn).
Arguments Ok {A} a.
Arguments Raise {A} e.

(** What the process runs in: the settings, and which optional packages can
    be imported. *)
Record Environment : Type := mkEnvironment {
  settings : Settings;
  has_langchain_openai : bool;
  has_sentence_transformers : bool;
  has_faiss : bool
}.

Inductive Embeddings : Type :=
  | GoogleGenerativeAIEmbeddings (model : string)
  | OpenAIEmbeddings (model : string)
  | HuggingFaceEmbeddings (model_name : string).

(** [not key] for an optional string: [None] and the empty string. *)
Definition falsy (key : option string) : bool :=
  match key with
  | None => true
  | Some k => bool_decide (k = "")
  end.

(** [ModelFactory.create_embeddings], also [get_embeddings] *)
Definition get_embeddings (env : Environment) : py Embeddings :=
  match embedding_provider (settings env) with
  | google =>
      if falsy (google_api_key (settings env))
      then Raise (ValueError "Google API key is required for Google embeddings")
      else Ok (GoogleGenerativeAIEmbeddings (google_embedding_model (settings env)))
  | openai =>
      if falsy (openai_api_key (settings env))
      then Raise (ValueError "OpenAI API key is required for OpenAI embeddings")
      else if has_langchain_openai env
      then Ok (OpenAIEmbeddings (openai_embedding_model (settings env)))
      else Raise (ImportError "langchain-openai package is required for OpenAI embeddings")
  | huggingface =>
      if has_sentence_transformers env
      then Ok (HuggingFaceEmbeddings "sentence-transformers/all-MiniLM-L6-v2")
      else Raise (ImportError "sentence-transformers package is required for HuggingFace embeddings")
  end.

(** [ModelFactory.create_vector_store], also [get_vector_store] *)
Definition get_vector_store (X : External) (env : Environment)
    (embeddings : Embeddings) (collection_name : string) : py (store X) :=
  match vector_store_provider (settings env) with
  | chromadb => Ok (open_collection X chromadb collection_name)
  | faiss =>
      if has_faiss env then Ok (open_collection X faiss collection_name)
      else Raise (ImportError "faiss-cpu package is required for FAISS vector store")
  end.

(** ** semantic_indexer.py *)

Module Semantic.
Section with_external.
Context (X : External).

Record SemanticIndexer : Type := mkSemanticIndexer {
  session_id : string;
  index_stats : IndexStats;
  embeddings : Embeddings;
  vector_store : store X;
  documents : list IndexedDocument
}.

(** The separators of [ModelFactory.get_text_splitter]. *)
Definition separators : list string :=
  [String "010" (String "010" ""); String "010" "";
   ". "; "! "; "? "; "; "; ": "; " "; ""].

(** [SemanticIndexer(session_id)] *)
Definition init (env : Environment) (sid : string) : py SemanticIndexer :=
  match get_embeddings env with
  | Raise e => Raise e
  | Ok emb =>
      match get_vector_store X env emb ("session_" +:+ sid) with
      | Raise e => Raise e
      | Ok vs => Ok (mkSemanticIndexer sid (fresh_stats "SemanticIndexer") emb vs [])
      end
  end.

Definition chunk_metadata_of (base_metadata : gmap string value)
    (uuid : string) (i : nat) : gmap string value :=
  <["chunk_id" := VStr (uuid +:+ "_" +:+ pretty i)]>
    (<["chunk_index" := VInt (Z.of_nat i)]> base_metadata).

(** [index_document]: the new state, and the returned dictionary or
    [None] when [add_texts] raises. The chunks are already appended to
    [self.documents] when [add_texts] is called. *)
Definition index_document (cfg : Settings) (uuid now : string)
    (s : SemanticIndexer) (document : string) (metadata : gmap string value)
  : SemanticIndexer * option IndexResult :=
  let base_metadata : gmap string value :=
    metadata ∪ <["session_id" := VStr (session_id s)]>
                 (<["doc_id" := VStr uuid]>
                   (<["indexed_at" := VStr now]> ∅)) in
  let chunks :=
    split_text X (chunk_size cfg) (chunk_overlap cfg) separators document in
  let metadatas_to_add := imap (λ i _, chunk_metadata_of base_metadata uuid i) chunks in
  let new_docs :=
    imap (λ i chunk,
            mkIndexedDocument uuid chunk (chunk_metadata_of base_metadata uuid i) i now)
         chunks in
  let s1 := mkSemanticIndexer (session_id s) (index_stats s) (embeddings s)
              (vector_store s) (documents s ++ new_docs) in
  match add_texts X (vector_store s) chunks metadatas_to_add with
  | None => (s1, None)
  | Some vs =>
      (mkSemanticIndexer (session_id s)
         (update_stats now (index_stats s) 1 (length chunks)) (embeddings s) vs
         (documents s1),
       Some (mkIndexResult uuid (length chunks) "semantic" true))
  end.

(** The filter [search] hands to the vector store: the session entry,
    then [search_filter.update(filters)]. *)
Definition search_filter (sid : string) (filters : gmap string value)
  : gmap string value :=
  let search_filter : gmap string value := {["session_id" := VStr sid]} in
  if decide (filters = ∅) then search_filter else filters ∪ search_filter.

Definition to_result (hit : Document * R) : SearchResult :=
  mkSearchResult (page_content hit.1) hit.2 (doc_metadata hit.1)
    (dict_get_or (doc_metadata hit.1) "doc_id" (VStr ""))
    (dict_get_or (doc_metadata hit.1) "chunk_index" (VInt 0)).

(** [search]: an exception of the vector store is caught and gives []. *)
Definition search (s : SemanticIndexer) (query : string) (top_k : Z)
    (filters : gmap string value) : list SearchResult :=
  match similarity_search_with_score X (vector_store s) query top_k
          (search_filter (session_id s) filters) with
  | Some results => to_result <$> results
  | None => []
  end.

Definition in_session (sid : string) (doc : IndexedDocument) : bool :=
  bool_decide (dict_get (metadata doc) "session_id" = VStr sid).

(** [delete_session_data]: the vector store is left as it is. *)
Definition delete_session_data (s : SemanticIndexer) : SemanticIndexer * bool :=
  (mkSemanticIndexer (session_id s) (fresh_stats "SemanticIndexer")
     (embeddings s) (vector_store s)
     (filter (λ doc, in_session (session_id s) doc ≠ true) (documents s)),
   true).

End with_external.
End Semantic.

(** ** enhanced_semantic_indexer.py *)

Module Enhanced.

(** The dictionaries [_create_multi_strategy_chunks] produces. *)
Record ChunkInfo : Type := mkChunkInfo {
  ci_content : string;
  ci_type : string;
  ci_section : option string;
  ci_extracted_value : option string
}.

Section with_external.
Context (X : External).

(** [_create_multi_strategy_chunks]: the section and contact heuristics
    followed by the text splitter. Its result only feeds [add_texts] and
    [self.documents]; the properties below hold whatever it returns. *)
Variable _create_multi_strategy_chunks : Settings → string → list ChunkInfo.

Record EnhancedSemanticIndexer : Type := mkEnhancedSemanticIndexer {
  session_id : string;
  index_stats : IndexStats;
  embeddings : Embeddings;
  vector_store : store X;
  documents : list IndexedDocument;
  full_text : string
}.

(** [EnhancedSemanticIndexer(session_id)] *)
Definition init (env : Environment) (sid : string) : py EnhancedSemanticIndexer :=
  match get_embeddings env with
  | Raise e => Raise e
  | Ok emb =>
      match get_vector_store X env emb ("session_" +:+ sid) with
      | Raise e => Raise e
      | Ok vs =>
          Ok (mkEnhancedSemanticIndexer sid
                (fresh_stats "EnhancedSemanticIndexer") emb vs [] "")
      end
  end.

Definition chunk_metadata_of (base_metadata : gmap string value)
    (uuid : string) (i : nat) (chunk_info : ChunkInfo) : gmap string value :=
  <["chunk_section" := VStr (default "unknown" (ci_section chunk_info))]>
    (<["chunk_type" := VStr (ci_type chunk_info)]>
      (<["chunk_id" := VStr (uuid +:+ "_" +:+ pretty i)]>
        (<["chunk_index" := VInt (Z.of_nat i)]> base_metadata))).

(** [index_document]: [self.full_text] is assigned first. *)
Definition index_document (cfg : Settings) (uuid now : string)
    (s : EnhancedSemanticIndexer) (document : string)
    (metadata : gmap string value)
  : EnhancedSemanticIndexer * option IndexResult :=
  let base_metadata : gmap string value :=
    metadata ∪ <["session_id" := VStr (session_id s)]>
                 (<["doc_id" := VStr uuid]>
                   (<["indexed_at" := VStr now]> ∅)) in
  let chunks := _create_multi_strategy_chunks cfg document in
  let documents_to_add := ci_content <$> chunks in
  let metadatas_to_add := imap (chunk_metadata_of base_metadata uuid) chunks in
  let new_docs :=
    imap (λ i chunk_info,
            mkIndexedDocument uuid (ci_content chunk_info)
              (chunk_metadata_of base_metadata uuid i chunk_info) i now)
         chunks in
  let s1 := mkEnhancedSemanticIndexer (session_id s) (index_stats s)
              (embeddings s) (vector_store s) (documents s ++ new_docs)
              document in
  match add_texts X (vector_store s) documents_to_add metadatas_to_add with
  | None => (s1, None)
  | Some vs =>
      (mkEnhancedSemanticIndexer (session_id s)
         (update_stats now (index_stats s) 1 (length chunks)) (embeddings s) vs
         (documents s1) document,
       Some (mkIndexResult uuid (length chunks) "enhanced_semantic" true))
  end.

Definition with_filters (base filters : gmap string value) : gmap string value :=
  if decide (filters = ∅) then base else filters ∪ base.

(** [_vector_search]; [None] when the vector store raises. *)
Definition _vector_search (s : EnhancedSemanticIndexer) (query : string)
    (top_k : Z) (filters : gmap string value) : option (list SearchResult) :=
  let search_filter :=
    with_filters {["session_id" := VStr (session_id s)]} filters in
  match similarity_search_with_score X (vector_store s) query top_k search_filter with
  | Some results => Some (Semantic.to_result <$> results)
  | None => None
  end.

Definition to_boosted_result (hit : Document * R) : SearchResult :=
  mkSearchResult (page_content hit.1) (hit.2 + 0.1)%R (doc_metadata hit.1)
    (dict_get_or (doc_metadata hit.1) "doc_id" (VStr ""))
    (dict_get_or (doc_metadata hit.1) "chunk_index" (VInt 0)).

(** [_contact_search]: its own handler turns an exception into []. *)
Definition _contact_search (s : EnhancedSemanticIndexer) (query : string)
    (filters : gmap string value) : list SearchResult :=
  let contact_filter :=
    with_filters (<["chunk_type" := VStr "contact"]>
                    {["session_id" := VStr (session_id s)]}) filters in
  match similarity_search_with_score X (vector_store s) query 5 contact_filter with
  | Some results => to_boosted_result <$> results
  | None => []
  end.

(** The body of the loop of [_keyword_search] for one term. *)
Definition keyword_hit (full_text term : string) : option SearchResult :=
  match PyStr.find term (PyStr.lower full_text) with
  | None => None
  | Some term_index =>
      let start := term_index - 200 in
      let stop := Nat.min (PyStr.len full_text) (term_index + PyStr.len term + 200) in
      let snippet := PyStr.strip (PyStr.slice start stop full_text) in
      let score := (INR (PyStr.count term (PyStr.lower snippet)) * 0.1)%R in
      Some (mkSearchResult snippet score
              (<["chunk_type" := VStr "keyword"]> {["doc_id" := VStr "fallback"]})
              (VStr "fallback") (VInt 0))
  end.

Definition _keyword_search (s : EnhancedSemanticIndexer) (query : string)
    (filters : gmap string value) : list SearchResult :=
  if decide (full_text s = "") then []
  else omap (keyword_hit (full_text s)) (PyStr.split (PyStr.lower query)).

(** [result.content[:100].strip()] *)
Definition content_key (r : SearchResult) : string :=
  PyStr.strip (PyStr.take 100 (r_content r)).

(** The loop of [_deduplicate_results] with its [seen_content] set. *)
Fixpoint dedup_go (seen_content : gset string) (results : list SearchResult)
  : list SearchResult :=
  match results with
  | [] => []
  | result :: rest =>
      if decide (content_key result ∈ seen_content) then dedup_go seen_content rest
      else result :: dedup_go ({[content_key result]} ∪ seen_content) rest
  end.

Definition _deduplicate_results (results : list SearchResult) : list SearchResult :=
  dedup_go ∅ results.

Definition contact_terms : list string :=
  ["name"; "email"; "phone"; "linkedin"; "github"].

(** The candidates of [search] in the order they are merged, before
    deduplication; [None] when [_vector_search] raises. *)
Definition all_results (s : EnhancedSemanticIndexer) (query : string)
    (top_k : Z) (filters : gmap string value) : option (list SearchResult) :=
  vector_results ← _vector_search s query top_k filters;
  let all_results := vector_results in
  let all_results :=
    if existsb (λ term, PyStr.contains term (PyStr.lower query)) contact_terms
    then all_results ++ _contact_search s query filters
    else all_results in
  let all_results :=
    if decide (length all_results < 3)
    then all_results ++ _keyword_search s query filters
    else all_results in
  Some all_results.

Definition search (s : EnhancedSemanticIndexer) (query : string) (top_k : Z)
    (filters : gmap string value) : list SearchResult :=
  match all_results s query top_k filters with
  | Some all_results =>
      let unique_results := _deduplicate_results all_results in
      PyStr.list_slice_to top_k (sort_desc (A:=Exact.arith) r_score unique_results)
  | None => []
  end.

(** [delete_session_data]: the vector store is left as it is. *)
Definition delete_session_data (s : EnhancedSemanticIndexer)
  : EnhancedSemanticIndexer * bool :=
  (mkEnhancedSemanticIndexer (session_id s)
     (fresh_stats "EnhancedSemanticIndexer") (embeddings s) (vector_store s)
     (filter (λ doc, Semantic.in_session (session_id s) doc ≠ true) (documents s))
     "",
   true).

End with_external.
End Enhanced.

(** ** indexing_factory.py *)

Module IndexingFactory.

Inductive IndexerClass : Type :=
  | EnhancedSemanticIndexer
  | SemanticIndexer
  | KeywordIndexer.

#[global] Instance IndexerClass_eq_dec : EqDecision IndexerClass.
Proof. solve_decision. Defined.

(** The registry, in the order of the dictionary literal. *)
Definition _indexer_classes : list (string * IndexerClass) :=
  [("semantic", EnhancedSemanticIndexer);
   ("basic_semantic", SemanticIndexer);
   ("keyword", KeywordIndexer)].

(** [cls._indexer_classes.keys()] *)
Definition keys : list string := fst <$> _indexer_classes.

(** [cls._indexer_classes[strategy]], [None] when the key is absent. *)
Fixpoint lookup_class (strategy : string) (reg : list (string * IndexerClass))
  : option IndexerClass :=
  match reg with
  | [] => None
  | (name, cls) :: reg' =>
      if decide (strategy = name) then Some cls else lookup_class strategy reg'
  end.

Section with_external.
Context (X : External) {A : Arith}.

(** An instance of one of the three indexer classes. *)
Inductive Indexer : Type :=
  | IKeyword (ix : Keyword.KeywordIndexer A)
  | ISemantic (ix : Semantic.SemanticIndexer X)
  | IEnhanced (ix : Enhanced.EnhancedSemanticIndexer X).

Definition class_of (ix : Indexer) : IndexerClass :=
  match ix with
  | IKeyword _ => KeywordIndexer
  | ISemantic _ => SemanticIndexer
  | IEnhanced _ => EnhancedSemanticIndexer
  end.

(** [indexer_class(session_id)] *)
Definition construct (env : Environment) (cls : IndexerClass) (sid : string)
  : py Indexer :=
  match cls with
  | KeywordIndexer => Ok (IKeyword (Keyword.init sid))
  | SemanticIndexer =>
      match Semantic.init X env sid with
      | Ok ix => Ok (ISemantic ix)
      | Raise e => Raise e
      end
  | EnhancedSemanticIndexer =>
      match Enhanced.init X env sid with
      | Ok ix => Ok (IEnhanced ix)
      | Raise e => Raise e
      end
  end.

Definition unknown_strategy_message (strategy : string) : string :=
  "Unknown indexing strategy: " +:+ strategy +:+ ". Available: "
    +:+ PyStr.join ", " keys.

(** [IndexingFactory.create_indexer(strategy, session_id)] *)
Definition create_indexer (env : Environment) (strategy session_id : string)
  : py Indexer :=
  let strategy := PyStr.lower strategy in
  match lookup_class strategy _indexer_classes with
  | None => Raise (ValueError (unknown_strategy_message strategy))
  | Some indexer_class => construct env indexer_class session_id
  end.

End with_external.
End IndexingFactory.

(** ** The keyword indexer: what its statistics are meant to hold *)

Module KeywordSpec.
Import Keyword.

(** The terms of a held chunk. *)
Definition tokens (d : IndexedDocument) : list string :=
  _preprocess_text (content d).

(** How often [t] occurs in a list of terms. *)
Definition occurrences (t : string) (words : list string) : nat :=
  length (filter (λ w, w = t) words).

(** The number of chunks of [docs] whose text contains the term [t]. *)
Definition chunks_containing (docs : list IndexedDocument) (t : string) : nat :=
  length (filter (λ d, t ∈ tokens d) docs).

Definition total_tokens (docs : list IndexedDocument) : nat :=
  sum_list (length ∘ tokens <$> docs).

(** [x] stands before [y] in [l]. *)
Definition before {X} (l : list X) (x y : X) : Prop :=
  ∃ l1 l2 l3, l = l1 ++ x :: l2 ++ y :: l3.

Section arith.
Context {A : Arith}.

(** [self.term_frequencies[id][t]], 0 when either key is absent. *)
Definition recorded_tf (s : KeywordIndexer A) (id t : string) : nat :=
  match term_frequencies s !! id with
  | Some tfd => default 0 (tfd !! t)
  | None => 0
  end.

(** The number of held chunks whose recorded frequency of [t] is
    positive. *)
Definition holding_chunks (s : KeywordIndexer A) (t : string) : nat :=
  length (filter (λ d, 0 < recorded_tf s (doc_id d) t) (documents s)).

(** The statistics agree with the held chunks. *)
Record consistent (s : KeywordIndexer A) : Prop := mkConsistent {
  ids_distinct : NoDup (doc_id <$> documents s);
  tf_keys : ∀ id, is_Some (term_frequencies s !! id) ↔ id ∈ doc_id <$> documents s;
  tf_values : ∀ d, d ∈ documents s →
    term_frequencies s !! doc_id d = Some (Counter (tokens d));
  dl_keys : ∀ id, is_Some (doc_lengths s !! id) ↔ id ∈ doc_id <$> documents s;
  dl_values : ∀ d, d ∈ documents s →
    doc_lengths s !! doc_id d = Some (length (tokens d));
  df_values : ∀ t, default 0 (document_frequencies s !! t) = holding_chunks s t;
  df_positive : ∀ t, document_frequencies s !! t ≠ Some 0
}.

(** The two summary fields agree with the held chunks; the average is only
    refreshed while some chunk is held. *)
Definition counts_match (s : KeywordIndexer A) : Prop :=
  total_documents s = length (documents s) ∧
  (documents s ≠ [] →
   avg_doc_length s
   = int_truediv (Z.of_nat (total_tokens (documents s)))
                 (Z.of_nat (length (documents s)))).

(** [uuid.uuid4()] never returns an identifier it returned before: no held
    chunk has an id built from [uuid]. *)
Definition fresh_uuid (s : KeywordIndexer A) (uuid : string) : Prop :=
  ∀ i d, d ∈ documents s → doc_id d ≠ chunk_id_of uuid i.

(** The states a [KeywordIndexer] goes through: it is created empty and
    changed by [index_document] and [delete_session_data] only. *)
Inductive reachable (cfg : Settings) : KeywordIndexer A → Prop :=
  | reach_init sid : reachable cfg (init sid)
  | reach_index s uuid now document md :
      reachable cfg s → fresh_uuid s uuid →
      reachable cfg (index_document cfg uuid now s document md).1
  | reach_delete s :
      reachable cfg s → reachable cfg (delete_session_data s).1.

(** The BM25 formula of the specification for one term,
    [ln ((N - df + 0.5) / (df + 0.5))
       * (tf * (k1 + 1) / (tf + k1 * (1 - b + b * (chunkLen / avgLen))))]
    with [k1 = 1.5] and [b = 0.75], evaluated in the arithmetic [A]; [None]
    when a division or the logarithm is undefined. *)
Definition spec_term_score (n df tf chunk_len : nat) (avg_len : float A)
  : option (float A) :=
  ratio ← py_div (of_int (Z.of_nat n - Z.of_nat df) ⊕ float_lit 5 1)
                 (of_int (Z.of_nat df) ⊕ float_lit 5 1);
  idf ← math_log ratio;
  len_ratio ← py_div (of_int (Z.of_nat chunk_len)) avg_len;
  fraction ← py_div
    (of_int (Z.of_nat tf) ⊗ (float_lit 15 1 ⊕ of_int 1))
    (of_int (Z.of_nat tf)
     ⊕ (float_lit 15 1 ⊗ ((of_int 1 ⊖ float_lit 75 2) ⊕ (float_lit 75 2 ⊗ len_ratio))));
  Some (idf ⊗ fraction).

(** One turn of the sum of [spec_score]; [acc] is the running sum, [None]
    once a term was undefined. *)
Definition spec_step (docs : list IndexedDocument) (c : IndexedDocument)
    (acc : option (float A)) (t : string) : option (float A) :=
  score ← acc;
  x ← spec_term_score (length docs) (chunks_containing docs t)
        (occurrences t (tokens c)) (length (tokens c))
        (int_truediv (Z.of_nat (total_tokens docs)) (Z.of_nat (length docs)));
  Some (score ⊕ x).

(** The cumulative score of the specification: the sum, from [0.0] and in
    the order of the query, over the query terms that occur in the chunk
    and whose document frequency is not zero, everything being read off the
    held chunks: [N] is their number, [df] the number of those that contain
    the term, [tf] the number of occurrences of the term in the chunk,
    [chunkLen] the number of terms of the chunk and [avgLen] the total
    number of terms divided by [N]. *)
Definition spec_score (docs : list IndexedDocument) (query_terms : list string)
    (c : IndexedDocument) : option (float A) :=
  foldl (spec_step docs c) (Some (float_lit 0 1))
        (filter (λ t, t ∈ tokens c ∧ chunks_containing docs t ≠ 0) query_terms).

End arith.

(** The formula for one term as a real number. *)
Definition exact_term_score (n df tf chunk_len : nat) (avg_len : R) : R :=
  (ln ((INR n - INR df + 0.5) / (INR df + 0.5))
   * (INR tf * (1.5 + 1)
      / (INR tf + 1.5 * (1 - 0.75 + 0.75 * (INR chunk_len / avg_len)))))%R.

Definition sum_R (l : list R) : R := foldr Rplus 0%R l.

(** The cumulative score as a real number. *)
Definition exact_score (docs : list IndexedDocument) (query_terms : list string)
    (c : IndexedDocument) : R :=
  let n := length docs in
  let avg_len := (INR (total_tokens docs) / INR n)%R in
  sum_R ((λ t, exact_term_score n (chunks_containing docs t)
                 (occurrences t (tokens c)) (length (tokens c)) avg_len)
         <$> filter (λ t, t ∈ tokens c ∧ chunks_containing docs t ≠ 0) query_terms).

End KeywordSpec.

(** ** Sample inputs *)

Module Sample.

(** Settings whose chunk size separates the two sentences of [two_sentences]. *)
Definition cfg : Settings :=
  mkSettings None None google chromadb "models/text-embedding-004"
    "text-embedding-3-small" 20 100.

Definition two_sentences : string := "Python is great. SQL is also great.".

(** A new keyword indexer that ingested [two_sentences]. *)
Definition keyword_state : Keyword.KeywordIndexer Exact.arith :=
  (Keyword.index_document cfg "doc-1" "2024-01-01T00:00:00"
     (Keyword.init "s1") two_sentences ∅).1.

(** Its first chunk. *)
Definition python_chunk : IndexedDocument :=
  mkIndexedDocument "doc-1_0" "Python is great"
    (<["chunk_id" := VStr "doc-1_0"]>
       (<["chunk_index" := VInt 0]>
          (<["session_id" := VStr "s1"]>
             (<["doc_id" := VStr "doc-1"]>
                (<["indexed_at" := VStr "2024-01-01T00:00:00"]> ∅)))))
    0 "2024-01-01T00:00:00".

(** An environment in which the embeddings and the vector store can be
    built: the Google key is set. *)
Definition env : Environment :=
  mkEnvironment
    (mkSettings (Some "key") None google chromadb "models/text-embedding-004"
       "text-embedding-3-small" 800 100)
    false false false.

(** The environment of the default settings: no key is set. *)
Definition default_env : Environment :=
  mkEnvironment default_settings false false false.

(** [filter] matches [md] when every entry of [filter] is in [md]. *)
Definition matches (filter md : gmap string value) : Prop :=
  map_Forall (λ key v, md !! key = Some v) filter.

(** A vector store that keeps what [add_texts] receives and answers a
    similarity search with the first [k] entries whose metadata match the
    filter, all with score 0; a splitter that keeps the text whole. *)
Definition memory_store : External :=
  mkExternal
    (list (string * gmap string value))
    (λ _ _, [])
    (λ st texts metadatas, Some (st ++ zip texts metadatas))
    (λ st _ k flt,
       Some ((λ e : string * gmap string value, (mkDocument e.1 e.2, 0%R))
             <$> take (Z.to_nat k) (filter (λ e, matches flt e.2) st)))
    (λ _ _ _ text, [text]).

(** A semantic indexer of session "s1" that ingested one document. *)
Definition semantic_new : py (Semantic.SemanticIndexer memory_store) :=
  Semantic.init memory_store env "s1".

Definition semantic_state : option (Semantic.SemanticIndexer memory_store) :=
  match semantic_new with
  | Ok s0 =>
      Some (Semantic.index_document memory_store (settings env) "doc-1"
              "2024-01-01T00:00:00" s0 "Jane Roe knows Python" ∅).1
  | Raise _ => None
  end.

(** The same, where the caller's metadata carry a session entry of their
    own. *)
Definition semantic_foreign : option (Semantic.SemanticIndexer memory_store) :=
  match semantic_new with
  | Ok s0 =>
      Some (Semantic.index_document memory_store (settings env) "doc-2"
              "2024-01-01T00:00:00" s0 "Other tenant" {["session_id" := VStr "s2"]}).1
  | Raise _ => None
  end.

(** Three candidates of the fusion: the first differs from the other two
    by a leading space only. *)
Definition candidate (text : string) (score : R) : SearchResult :=
  mkSearchResult text score ∅ (VStr "") (VInt 0).

Definition padded : SearchResult := candidate " x" 3.
Definition plain_first : SearchResult := candidate "x" 2.
Definition plain_second : SearchResult := candidate "x" 1.

End Sample.

(** ** Occurrences of a substring *)

(** [sub] occurs in [s]. *)
Definition occurs_in (sub s : string) : Prop :=
  ∃ pre suf, s = pre +:+ sub +:+ suf.


(** ** keyword_indexer.py: the statistics report *)

Module KeywordStats.

(** The dictionary [get_index_stats] returns: the entries of
    [self.index_stats] and five more. *)
Record Stats (A : Arith) : Type := mkStats {
  base_stats : IndexStats;
  total_chunks : nat;
  unique_terms : nat;
  stats_avg_doc_length : float A;
  bm25_k1 : float A;
  bm25_b : float A
}.

Arguments mkStats {A}.
Arguments base_stats {A}.
Arguments total_chunks {A}.
Arguments unique_terms {A}.
Arguments stats_avg_doc_length {A}.
Arguments bm25_k1 {A}.
Arguments bm25_b {A}.

Definition get_index_stats {A : Arith} (s : Keyword.KeywordIndexer A) : Stats A :=
  mkStats (Keyword.index_stats s)
    (length (Keyword.documents s))
    (size (Keyword.document_frequencies s))
    (Keyword.avg_doc_length s) Keyword.k1 Keyword.b.

(** Every character of [s] satisfies [p]. *)
Fixpoint all_chars (p : ascii → bool) (s : string) : bool :=
  match s with
  | EmptyString => true
  | String c s' => p c && all_chars p s'
  end.

(** A lower-case word character. *)
Definition term_char (c : ascii) : bool :=
  PyStr.is_word c && negb (PyStr.is_upper c).

(** A chunk the packing loop of [_chunk_text] produces from [sentences]:
    it is not empty and either fits the chunk size or is one stripped
    sentence. *)
Definition packed (size : Z) (sentences : list string) (c : string) : Prop :=
  c ≠ "" ∧
  ((Z.of_nat (PyStr.len c) <= size)%Z ∨
   ∃ sentence, sentence ∈ sentences ∧ c = PyStr.strip sentence).

End KeywordStats.

(** ** indexing_factory.py: the listing and the default strategy *)

Module FactoryListing.
Import IndexingFactory.

(** [strategy_class.__name__] *)
Definition class_name (cls : IndexerClass) : string :=
  match cls with
  | EnhancedSemanticIndexer => "EnhancedSemanticIndexer"
  | SemanticIndexer => "SemanticIndexer"
  | KeywordIndexer => "KeywordIndexer"
  end.

(** The dictionary of [_get_strategy_description]. *)
Definition descriptions : list (string * string) :=
  [("semantic", "Enhanced semantic indexing with multi-strategy retrieval optimized for form filling");
   ("basic_semantic", "Basic dense vector embeddings with cosine similarity search");
   ("keyword", "BM25 scoring with term frequency analysis");
   ("hybrid", "Combination of semantic and keyword indexing");
   ("metadata", "Structured data extraction with entity recognition");
   ("advanced", "Multi-vector representations with query expansion")].

Fixpoint lookup_description (strategy : string) (d : list (string * string))
  : option string :=
  match d with
  | [] => None
  | (name, text) :: d' =>
      if decide (strategy = name) then Some text else lookup_description strategy d'
  end.

(** [descriptions.get(strategy, "No description available")] *)
Definition _get_strategy_description (strategy : string) : string :=
  default "No description available" (lookup_description strategy descriptions).

Record StrategyInfo : Type := mkStrategyInfo {
  info_name : string;
  info_class : string;
  info_description : string
}.

(** [IndexingFactory.get_available_strategies()] *)
Definition get_available_strategies : list StrategyInfo :=
  (λ entry : string * IndexerClass,
     mkStrategyInfo entry.1 (class_name entry.2) (_get_strategy_description entry.1))
  <$> _indexer_classes.

(** The values [settings.indexing_strategy] can take (its [Literal] type). *)
Inductive IndexingStrategy : Type :=
  | strategy_semantic
  | strategy_keyword
  | strategy_hybrid
  | strategy_metadata
  | strategy_advanced.

Definition strategy_name (st : IndexingStrategy) : string :=
  match st with
  | strategy_semantic => "semantic"
  | strategy_keyword => "keyword"
  | strategy_hybrid => "hybrid"
  | strategy_metadata => "metadata"
  | strategy_advanced => "advanced"
  end.

(** [IndexingFactory.get_default_indexer(session_id)]; [indexing_strategy]
    is [settings.indexing_strategy]. *)
Definition get_default_indexer (X : External) {A : Arith} (env : Environment)
    (indexing_strategy : IndexingStrategy) (session_id : string)
  : py (Indexer X) :=
  create_indexer X env (strategy_name indexing_strategy) session_id.

(** The module-level [create_indexer(strategy=None, session_id=None)]. *)
Definition create_indexer_or_default (X : External) {A : Arith}
    (env : Environment) (indexing_strategy : IndexingStrategy)
    (strategy : option string) (session_id : string) : py (Indexer X) :=
  create_indexer X env (default (strategy_name indexing_strategy) strategy) session_id.

End FactoryListing.

(** ** config.py: the validation of the API keys *)

Module Config.

(** The values of [settings.llm_provider]. *)
Inductive LlmProvider : Type := llm_google | llm_openai | llm_llama.

(** [Settings.validate_api_keys()]; [llm_provider] is
    [settings.llm_provider]. *)
Definition validate_api_keys (cfg : Settings) (llm_provider : LlmProvider)
  : py unit :=
  let uses_google :=
    match embedding_provider cfg, llm_provider with
    | google, _ | _, llm_google => true
    | _, _ => false
    end in
  let uses_openai :=
    match embedding_provider cfg, llm_provider with
    | openai, _ | _, llm_openai => true
    | _, _ => false
    end in
  if uses_google && falsy (google_api_key cfg)
  then Raise (ValueError "GOOGLE_API_KEY is required when using Google providers")
  else if uses_openai && falsy (openai_api_key cfg)
  then Raise (ValueError "OPENAI_API_KEY is required when using OpenAI providers")
  else Ok tt.

End Config.

(** ** More sample inputs *)

Module Sample2.

(** A vector store whose calls all raise. *)
Definition failing_store : External :=
  mkExternal unit (λ _ _, tt) (λ _ _ _, None) (λ _ _ _ _, None)
    (λ _ _ _ text, [text]).

(** A semantic indexer over the failing store. *)
Definition failing_semantic : Semantic.SemanticIndexer failing_store :=
  Semantic.mkSemanticIndexer failing_store "s1" (fresh_stats "SemanticIndexer")
    (GoogleGenerativeAIEmbeddings "models/text-embedding-004") tt [].

(** An enhanced indexer over the failing store that holds a full text. *)
Definition failing_enhanced : Enhanced.EnhancedSemanticIndexer failing_store :=
  Enhanced.mkEnhancedSemanticIndexer failing_store "s1"
    (fresh_stats "EnhancedSemanticIndexer")
    (GoogleGenerativeAIEmbeddings "models/text-embedding-004") tt []
    "Jane Roe knows Python".


(** A vector store that answers the session-wide search with nothing and
    raises on a search restricted to a chunk type. *)
Definition contact_failing_store : External :=
  mkExternal unit (λ _ _, tt) (λ _ _ _, Some tt)
    (λ _ _ _ flt, if decide (is_Some (flt !! "chunk_type")) then None else Some [])
    (λ _ _ _ text, [text]).

Definition contact_failing_enhanced
  : Enhanced.EnhancedSemanticIndexer contact_failing_store :=
  Enhanced.mkEnhancedSemanticIndexer contact_failing_store "s1"
    (fresh_stats "EnhancedSemanticIndexer")
    (GoogleGenerativeAIEmbeddings "models/text-embedding-004") tt []
    "Email: jane.roe@example.com".



(** The logarithm of the C library at the two arguments the sample below
    reaches, [1.8] and [0.5555555555555556], with the values glibc returns
    there; not a number elsewhere. *)
Definition libm_log (x : PrimFloat.float) : PrimFloat.float :=
  if PrimFloat.eqb x (Binary64.float_lit 18 1)
  then Binary64.float_lit 5877866649021191 16
  else if PrimFloat.eqb x (Binary64.float_lit 5555555555555556 16)
  then Binary64.float_lit (-587786664902119) 15
  else PrimFloat.nan.

(** Settings whose chunk size makes a chunk of every sentence of
    [six_sentences]. *)
Definition cfg5 : Settings :=
  mkSettings None None google chromadb "models/text-embedding-004"
    "text-embedding-3-small" 5 100.

Definition six_sentences : string := "a b! a x! b y! b z! b w! u v".

(** A new keyword indexer, computing in double precision, that ingested
    [six_sentences]: "a" occurs in two chunks of six and "b" in four. *)
Definition binary64_state : Keyword.KeywordIndexer (Binary64.arith libm_log) :=
  (Keyword.index_document cfg5 "doc-1" "2024-01-01T00:00:00"
     (Keyword.init "s1") six_sentences ∅).1.

(** Its first chunk, which contains both terms. *)
Definition ab_chunk : IndexedDocument :=
  mkIndexedDocument "doc-1_0" "a b"
    (<["chunk_id" := VStr "doc-1_0"]>
       (<["chunk_index" := VInt 0]>
          (<["session_id" := VStr "s1"]>
             (<["doc_id" := VStr "doc-1"]>
                (<["indexed_at" := VStr "2024-01-01T00:00:00"]> ∅)))))
    0 "2024-01-01T00:00:00".

End Sample2.

(** * Properties *)

(** ** The string primitives on samples *)

Example lower_ex : PyStr.lower "Python IS_great 3!" = "python is_great 3!".
Proof. reflexivity. Qed.

Example strip_ex : PyStr.strip "  SQL is also great " = "SQL is also great".
Proof. reflexivity. Qed.

Example findall_words_ex :
  PyStr.findall_words "c++ is, well: o_k" = ["c"; "is"; "well"; "o_k"].
Proof. reflexivity. Qed.

Example split_sentences_ex :
  PyStr.split_sentences "Python is great. SQL is also great."
  = ["Python is great"; " SQL is also great"; ""].
Proof. reflexivity. Qed.

Example split_sentences_runs : PyStr.split_sentences "..a?!b" = [""; "a"; "b"].
Proof. reflexivity. Qed.

Example find_ex : PyStr.find "sql" "python sql" = Some 7.
Proof. reflexivity. Qed.

Example count_ex : PyStr.count "aa" "aaaaa b aa" = 3.
Proof. reflexivity. Qed.

Example split_ex : PyStr.split "  jane   roe " = ["jane"; "roe"].
Proof. reflexivity. Qed.

Example list_slice_to_ex :
  PyStr.list_slice_to 2 [1; 2; 3] = [1; 2] ∧ PyStr.list_slice_to (-1) [1; 2; 3] = [1; 2].
Proof. split; reflexivity. Qed.

(** ** Real arithmetic of the BM25 formula *)

Lemma py_div_Some (x y : R) : y ≠ 0%R → Exact.py_div x y = Some (x / y)%R.
Proof. intros Hy. unfold Exact.py_div. destruct (Req_dec_T y 0); [done | reflexivity]. Qed.

Lemma py_div_inv (x y q : R) : Exact.py_div x y = Some q → y ≠ 0%R ∧ q = (x / y)%R.
Proof. unfold Exact.py_div. destruct (Req_dec_T y 0); [done |]. intros [= <-]. done. Qed.

Lemma math_log_Some (x : R) : (0 < x)%R → Exact.math_log x = Some (ln x).
Proof. intros Hx. unfold Exact.math_log. destruct (Rlt_dec 0 x); [reflexivity | done]. Qed.

Lemma math_log_inv (x v : R) : Exact.math_log x = Some v → (0 < x)%R ∧ v = ln x.
Proof. unfold Exact.math_log. destruct (Rlt_dec 0 x); [|done]. intros [= <-]. done. Qed.

Lemma float_lt_exact (x y : R) : Exact.float_lt x y = true ↔ (x < y)%R.
Proof. unfold Exact.float_lt. by destruct (Rlt_dec x y). Qed.

Lemma float_lt_exact_false (x y : R) : Exact.float_lt x y = false ↔ (y <= x)%R.
Proof. unfold Exact.float_lt. destruct (Rlt_dec x y); split; (done || lra). Qed.

(** The literals of the engine as real numbers. *)
Lemma float_lit_exact :
  Exact.float_lit 0 1 = 0%R ∧ Exact.float_lit 5 1 = 0.5%R ∧
  Exact.float_lit 15 1 = 1.5%R ∧ Exact.float_lit 75 2 = 0.75%R.
Proof. unfold Exact.float_lit. simpl Z.pow. repeat split; lra. Qed.

Lemma of_int_exact (n : nat) : IZR (Z.of_nat n) = INR n.
Proof. symmetry. apply INR_IZR_INZ. Qed.

(** Rewrites the operations of [Exact.arith] into those of the reals. *)
Ltac exact_arith :=
  cbn [float float_lit of_int int_truediv float_add float_sub float_mul
       py_div math_log float_lt Exact.arith] in *;
  unfold Exact.int_truediv in *;
  let H0 := fresh in let H1 := fresh in let H2 := fresh in let H3 := fresh in
  destruct float_lit_exact as (H0 & H1 & H2 & H3);
  rewrite ?H0, ?H1, ?H2, ?H3, ?minus_IZR, ?of_int_exact in *;
  clear H0 H1 H2 H3.

#[global] Instance exact_order : ArithOrder Exact.arith.
Proof.
  split.
  - intros x y. exact_arith. rewrite float_lt_exact, float_lt_exact_false. lra.
  - intros x y z _. exact_arith. rewrite !float_lt_exact_false. lra.
  - exact_arith. rewrite float_lt_exact_false. lra.
Qed.

(** ** The order of double precision numbers *)

Lemma SFltb_asym (a b : SpecFloat.spec_float) :
  SpecFloat.SFltb a b = true → SpecFloat.SFltb b a = false.
Proof.
  unfold SpecFloat.SFltb, SpecFloat.SFcompare.
  destruct a as [sa|sa| |sa ma ea], b as [sb|sb| |sb mb eb];
    try destruct sa; try destruct sb; try done;
  rewrite !Pos.compare_cont_spec; simpl;
  destruct (Z.compare_spec ea eb), (Z.compare_spec eb ea); try done; try lia;
  destruct (Pos.compare_spec ma mb), (Pos.compare_spec mb ma); try done; try lia.
Qed.

(** Through a number above 0, which is no NaN, "not below" is transitive. *)
Lemma SFltb_negtrans (a b c : SpecFloat.spec_float) :
  SpecFloat.SFltb (SpecFloat.S754_zero false) b = true →
  SpecFloat.SFltb a b = false → SpecFloat.SFltb b c = false →
  SpecFloat.SFltb a c = false.
Proof.
  unfold SpecFloat.SFltb, SpecFloat.SFcompare.
  destruct b as [sb|sb| |sb mb eb]; try destruct sb; try done;
  destruct a as [sa|sa| |sa ma ea]; try destruct sa; try done;
  destruct c as [sc|sc| |sc mc ec]; try destruct sc; try done.
  rewrite !Pos.compare_cont_spec. simpl.
  destruct (Z.compare_spec ea eb), (Z.compare_spec eb ec), (Z.compare_spec ea ec);
    try done; try lia; subst;
  destruct (Pos.compare_spec ma mb), (Pos.compare_spec mb mc), (Pos.compare_spec ma mc);
    try done; try lia.
Qed.

#[global] Instance binary64_order (libm_log : PrimFloat.float → PrimFloat.float) :
  ArithOrder (Binary64.arith libm_log).
Proof.
  split.
  - intros x y. cbn [float_lt Binary64.arith].
    rewrite !FloatAxioms.ltb_spec. apply SFltb_asym.
  - intros x y z. cbn [float_lt of_int Binary64.arith].
    rewrite !FloatAxioms.ltb_spec. apply SFltb_negtrans.
  - vm_compute. reflexivity.
Qed.

(** The conversions of double precision on samples: an [int] that is not
    representable is rounded to the nearest number, ties to even; the
    quotient of two [int]s and a literal are rounded once. *)
Lemma binary64_conversions :
  Binary64.of_int (2 ^ 53 + 1) = Binary64.of_int (2 ^ 53) ∧
  Binary64.of_int (2 ^ 53 + 3) = Binary64.of_int (2 ^ 53 + 4) ∧
  Binary64.int_truediv 7 2 = Binary64.float_lit 35 1 ∧
  Binary64.int_truediv 1 3 = Binary64.float_lit 3333333333333333 16 ∧
  PrimFloat.add (Binary64.float_lit 1 1) (Binary64.float_lit 2 1)
  = Binary64.float_lit 30000000000000004 17 ∧
  PrimFloat.add (Binary64.float_lit 1 1) (Binary64.float_lit 2 1)
  ≠ Binary64.float_lit 3 1.
Proof. vm_compute. repeat split; try reflexivity. discriminate. Qed.


Lemma ln_neg (x : R) : (0 < x)%R → (x < 1)%R → (ln x < 0)%R.
Proof. intros H0 H1. rewrite <- ln_1. by apply ln_increasing. Qed.

(** The length normalisation [k1 * (1 - b + b * (len / avg))] is positive. *)
Lemma length_norm_pos (doc_length : nat) (avg : R) :
  (0 < avg)%R →
  (0 < 1.5 * (1 - 0.75 + 0.75 * (INR doc_length / avg)))%R.
Proof.
  intros Havg.
  assert (0 <= INR doc_length / avg)%R.
  { unfold Rdiv. apply Rmult_le_pos; [apply pos_INR |].
    left. by apply Rinv_0_lt_compat. }
  lra.
Qed.

(** The saturating factor [tf * (k1 + 1) / (tf + K)] grows with [tf]. *)
Lemma saturation_monotone (x y K : R) :
  (0 <= x)%R → (x <= y)%R → (0 < K)%R →
  (x * (1.5 + 1) / (x + K) <= y * (1.5 + 1) / (y + K))%R.
Proof.
  intros Hx Hxy HK.
  apply (Rmult_le_reg_r ((x + K) * (y + K))); [nra |].
  field_simplify; [| lra | lra]. nra.
Qed.

(** In the indexer's reachable range the term formula raises nothing in
    exact arithmetic, and its value is the closed formula. *)
Lemma bm25_term_defined (n df tf doc_length : nat) (avg : R) :
  df ≤ n → (0 < avg)%R →
  Keyword.bm25_term (A:=Exact.arith) n df tf doc_length avg =
    Some (ln ((INR n - INR df + 0.5) / (INR df + 0.5))
          * (INR tf * (1.5 + 1)
             / (INR tf + 1.5 * (1 - 0.75 + 0.75 * (INR doc_length / avg)))))%R.
Proof.
  intros Hdf Havg. unfold Keyword.bm25_term, Keyword.k1, Keyword.b.
  exact_arith.
  pose proof (pos_INR df) as Hdf0. pose proof (pos_INR tf) as Htf0.
  pose proof (le_INR _ _ Hdf) as Hle.
  pose proof (length_norm_pos doc_length avg Havg) as HK.
  repeat first
    [ rewrite py_div_Some by lra
    | rewrite math_log_Some by (apply Rdiv_lt_0_compat; lra)
    | progress cbn [mbind option_bind] ].
  reflexivity.
Qed.

(** ** BM25: the contribution of a term as a function of its frequency *)



(** A term that occurs in more than half of the chunks has a negative IDF
    factor, and its contribution then falls as its frequency grows. *)
Lemma bm25_term_nonincreasing_in_tf (n df doc_length tf1 tf2 : nat) (avg : R) :
  df ≤ n → n < 2 * df → (0 < avg)%R → tf1 ≤ tf2 →
  ∃ c1 c2,
    Keyword.bm25_term (A:=Exact.arith) n df tf1 doc_length avg = Some c1 ∧
    Keyword.bm25_term (A:=Exact.arith) n df tf2 doc_length avg = Some c2 ∧
    (c2 <= c1)%R.
Proof.
  intros Hdf Hhalf Havg Htf.
  rewrite !bm25_term_defined by done.
  eexists _, _. split; [reflexivity |]. split; [reflexivity |].
  apply Rmult_le_compat_neg_l.
  - left. pose proof (pos_INR df) as Hdf0.
    pose proof (le_INR _ _ Hdf) as Hle.
    assert (INR n < INR (2 * df))%R as Hlt by (by apply lt_INR).
    rewrite mult_INR in Hlt. simpl in Hlt.
    apply ln_neg.
    + apply Rdiv_lt_0_compat; lra.
    + apply (Rmult_lt_reg_r (INR df + 0.5)); [lra |].
      unfold Rdiv. rewrite Rmult_assoc, Rinv_l by lra. lra.
  - apply saturation_monotone.
    + apply pos_INR.
    + by apply le_INR.
    + by apply length_norm_pos.
Qed.


(** ** The keyword indexer: its statistics stay consistent *)

Module KeywordProps.
Import Keyword KeywordSpec.

Section arith.
Context {A : Arith}.

Lemma occurrences_cons (t w : string) (words : list string) :
  occurrences t (w :: words)
  = (if decide (w = t) then 1 else 0) + occurrences t words.
Proof. unfold occurrences. rewrite filter_cons. by case_decide. Qed.

Lemma occurrences_pos (t : string) (words : list string) :
  0 < occurrences t words ↔ t ∈ words.
Proof.
  induction words as [|w words IH].
  - unfold occurrences. simpl. split; [lia | by intros ?%not_elem_of_nil].
  - rewrite occurrences_cons, elem_of_cons. case_decide as Hw.
    + split; [intros _; by left | intros _; lia].
    + simpl. rewrite IH. split; [by right |].
      intros [Heq | Hin]; [by subst | done].
Qed.

Lemma Counter_acc_default (words : list string) (m : gmap string nat) (t : string) :
  default 0 (fold_left (λ m w, <[w := S (default 0 (m !! w))]> m) words m !! t)
  = default 0 (m !! t) + occurrences t words.
Proof.
  revert m. induction words as [|w words IH]; intros m; simpl.
  - unfold occurrences. simpl. lia.
  - rewrite IH, occurrences_cons. case_decide as Hw.
    + subst w. rewrite lookup_insert_eq. simpl. lia.
    + rewrite lookup_insert_ne by done. lia.
Qed.

Lemma Counter_acc_is_Some (words : list string) (m : gmap string nat) (t : string) :
  is_Some (fold_left (λ m w, <[w := S (default 0 (m !! w))]> m) words m !! t)
  ↔ is_Some (m !! t) ∨ t ∈ words.
Proof.
  revert m. induction words as [|w words IH]; intros m; simpl.
  - rewrite elem_of_nil. split; [by left | by intros [? | []]].
  - rewrite IH, elem_of_cons. destruct (decide (w = t)) as [->|Hw].
    + rewrite lookup_insert_eq. split; intros _; [right; by left | left; by eexists].
    + rewrite lookup_insert_ne by done. split.
      * intros [? | ?]; [by left | right; by right].
      * intros [? | [? | ?]]; [by left | by subst | by right].
Qed.

Lemma Counter_lookup (words : list string) (t : string) :
  Counter words !! t
  = if decide (t ∈ words) then Some (occurrences t words) else None.
Proof.
  unfold Counter.
  pose proof (Counter_acc_default words ∅ t) as Hd.
  pose proof (Counter_acc_is_Some words ∅ t) as Hs.
  rewrite lookup_empty in Hd, Hs. simpl in Hd.
  case_decide as Hin.
  - destruct Hs as [_ [n Hn]]; [by right |]. rewrite Hn in Hd |- *. simpl in Hd. by subst.
  - apply eq_None_not_Some. intros H%Hs. destruct H as [[? [=]]|]; done.
Qed.

Lemma Counter_default (words : list string) (t : string) :
  default 0 (Counter words !! t) = occurrences t words.
Proof.
  pose proof (Counter_acc_default words ∅ t) as Hd.
  rewrite lookup_empty in Hd. exact Hd.
Qed.

Lemma bump_document_frequencies_lookup (U : gset string) (df : gmap string nat) (t : string) :
  bump_document_frequencies U df !! t
  = if decide (t ∈ U) then Some (default 0 (df !! t) + 1) else df !! t.
Proof.
  unfold bump_document_frequencies.
  set (f := λ (word : string) (df : gmap string nat),
              <[word := default 0 (df !! word) + 1]> df).
  refine (set_fold_ind_L
    (λ r (X : gset string),
       r !! t = if decide (t ∈ X) then Some (default 0 (df !! t) + 1) else df !! t)
    f df _ _ U).
  - rewrite decide_False by set_solver. done.
  - intros x X r Hx IH. unfold f. destruct (decide (x = t)) as [->|Hne].
    + rewrite lookup_insert_eq, decide_True by set_solver.
      rewrite decide_False in IH by done. by rewrite IH.
    + rewrite lookup_insert_ne by done. rewrite IH.
      destruct (decide (t ∈ X)).
      * rewrite decide_True by (apply elem_of_union; by right). done.
      * rewrite decide_False; [done |].
        intros [Hin%elem_of_singleton | Hin]%elem_of_union; [by subst | done].
Qed.

Lemma chunk_id_of_inj (uuid : string) (i j : nat) :
  chunk_id_of uuid i = chunk_id_of uuid j → i = j.
Proof.
  unfold chunk_id_of. intros H.
  apply (inj (String.app uuid)) in H.
  apply (inj (String.app "_")) in H.
  by apply (inj pretty) in H.
Qed.

Lemma filter_ext_in {X} (P Q : X → Prop) `{!∀ x, Decision (P x)} `{!∀ x, Decision (Q x)}
    (l : list X) :
  (∀ x, x ∈ l → P x ↔ Q x) → filter P l = filter Q l.
Proof.
  induction l as [|a l IH]; intros Hext; [done |].
  rewrite !filter_cons.
  rewrite IH by (intros x Hx; apply Hext; by right).
  pose proof (Hext a (list_elem_of_here a l)) as Ha.
  destruct (decide (P a)), (decide (Q a)); tauto || done.
Qed.

(** [consistent] reads four fields only. *)
Lemma consistent_fields (s s' : KeywordIndexer A) :
  documents s' = documents s →
  term_frequencies s' = term_frequencies s →
  document_frequencies s' = document_frequencies s →
  doc_lengths s' = doc_lengths s →
  consistent s → consistent s'.
Proof.
  intros Hd Htf Hdf Hdl [H1 H2 H3 H4 H5 H6 H7].
  assert (∀ t, holding_chunks s' t = holding_chunks s t) as Hh.
  { intros t. unfold holding_chunks, recorded_tf. by rewrite Hd, Htf. }
  split; rewrite ?Hd, ?Htf, ?Hdf, ?Hdl; try done.
  intros t. by rewrite Hh.
Qed.

Lemma init_consistent (sid : string) : consistent (init sid).
Proof.
  split; simpl; try done.
  - constructor.
  - intros id. rewrite lookup_empty, elem_of_nil. split; [by intros [? ?] | done].
  - intros d Hd. by apply elem_of_nil in Hd.
  - intros id. rewrite lookup_empty, elem_of_nil. split; [by intros [? ?] | done].
  - intros d Hd. by apply elem_of_nil in Hd.
Qed.

Lemma recorded_tf_insert_ne (s s' : KeywordIndexer A) (id id' : string)
    (m : gmap string nat) (t : string) :
  term_frequencies s' = <[id := m]> (term_frequencies s) → id ≠ id' →
  recorded_tf s' id' t = recorded_tf s id' t.
Proof. intros Htf Hne. unfold recorded_tf. by rewrite Htf, lookup_insert_ne. Qed.

Lemma index_chunk_consistent (base : gmap string value) (uuid now : string)
    (s : KeywordIndexer A) (i : nat) (chunk : string) :
  consistent s →
  (∀ d, d ∈ documents s → doc_id d ≠ chunk_id_of uuid i) →
  consistent (index_chunk base uuid now s i chunk).
Proof.
  intros [H1 H2 H3 H4 H5 H6 H7] Hfresh.
  assert (chunk_id_of uuid i ∉ doc_id <$> documents s) as Hnotin.
  { intros (d & Heq & Hd)%list_elem_of_fmap. by apply (Hfresh d Hd). }
  split; simpl.
  - rewrite fmap_app. apply NoDup_app. split; [done |]. split.
    + intros id Hid Hin. simpl in Hin. apply list_elem_of_singleton in Hin. by subst.
    + simpl. apply NoDup_singleton.
  - intros id. rewrite fmap_app, elem_of_app. simpl. rewrite list_elem_of_singleton.
    destruct (decide (chunk_id_of uuid i = id)) as [<-|Hne].
    + rewrite lookup_insert_eq. split; [by right | by eexists].
    + rewrite lookup_insert_ne by done. rewrite H2. split; [by left |].
      intros [? | ?]; [done | by subst].
  - intros d [Hd | Hd%list_elem_of_singleton]%elem_of_app.
    + rewrite lookup_insert_ne by (intros Heq; by apply (Hfresh d Hd)). by apply H3.
    + subst d. simpl. by rewrite lookup_insert_eq.
  - intros id. rewrite fmap_app, elem_of_app. simpl. rewrite list_elem_of_singleton.
    destruct (decide (chunk_id_of uuid i = id)) as [<-|Hne].
    + rewrite lookup_insert_eq. split; [by right | by eexists].
    + rewrite lookup_insert_ne by done. rewrite H4. split; [by left |].
      intros [? | ?]; [done | by subst].
  - intros d [Hd | Hd%list_elem_of_singleton]%elem_of_app.
    + rewrite lookup_insert_ne by (intros Heq; by apply (Hfresh d Hd)). by apply H5.
    + subst d. simpl. by rewrite lookup_insert_eq.
  - intros t. rewrite bump_document_frequencies_lookup.
    unfold holding_chunks at 1. simpl. rewrite filter_app, length_app.
    rewrite (filter_ext_in _ (λ d, 0 < recorded_tf s (doc_id d) t) (documents s)).
    2:{ intros d Hd. unfold recorded_tf. simpl.
        rewrite lookup_insert_ne by (intros Heq; by apply (Hfresh d Hd)). done. }
    fold (holding_chunks s t). rewrite <- H6.
    rewrite filter_cons, filter_nil. unfold recorded_tf. simpl.
    rewrite lookup_insert_eq, Counter_default.
    destruct (decide (t ∈ _preprocess_text chunk)) as [Hin|Hin].
    + rewrite (decide_True (P := t ∈ list_to_set _)) by (by apply elem_of_list_to_set).
      rewrite (decide_True (P := 0 < _)) by (by apply occurrences_pos). simpl. lia.
    + rewrite (decide_False (P := t ∈ list_to_set _)) by (by rewrite elem_of_list_to_set).
      rewrite (decide_False (P := 0 < _)) by (by rewrite occurrences_pos). simpl. lia.
  - intros t. rewrite bump_document_frequencies_lookup.
    case_decide; [intros [=]; lia | apply H7].
Qed.

Lemma index_chunks_consistent (base : gmap string value) (uuid now : string)
    (chunks : list string) (i : nat) (s : KeywordIndexer A) :
  consistent s →
  (∀ j d, i ≤ j → d ∈ documents s → doc_id d ≠ chunk_id_of uuid j) →
  consistent (index_chunks base uuid now i chunks s).
Proof.
  revert i s. induction chunks as [|chunk chunks IH]; intros i s Hs Hfresh; [done |].
  simpl. apply IH.
  - apply index_chunk_consistent; [done |]. intros d Hd. by apply Hfresh.
  - intros j d Hj [Hd | Hd%list_elem_of_singleton]%elem_of_app.
    + apply Hfresh; [lia | done].
    + subst d. simpl. intros Heq%chunk_id_of_inj. lia.
Qed.

Lemma index_chunks_length (base : gmap string value) (uuid now : string)
    (chunks : list string) (i : nat) (s : KeywordIndexer A) :
  length (documents (index_chunks base uuid now i chunks s))
  = length (documents s) + length chunks.
Proof.
  revert i s. induction chunks as [|chunk chunks IH]; intros i s; simpl; [lia |].
  rewrite IH. simpl. rewrite length_app. simpl. lia.
Qed.

Lemma index_chunks_total (base : gmap string value) (uuid now : string)
    (chunks : list string) (i : nat) (s : KeywordIndexer A) :
  total_documents (index_chunks base uuid now i chunks s) = total_documents s.
Proof.
  revert i s. induction chunks as [|chunk chunks IH]; intros i s; simpl; [done |].
  by rewrite IH.
Qed.

Lemma index_chunks_session (base : gmap string value) (uuid now : string)
    (chunks : list string) (i : nat) (s : KeywordIndexer A) :
  session_id (index_chunks base uuid now i chunks s) = session_id s.
Proof.
  revert i s. induction chunks as [|chunk chunks IH]; intros i s; simpl; [done |].
  by rewrite IH.
Qed.

Lemma _chunk_text_nonempty (cfg : Settings) (text : string) :
  _chunk_text cfg text ≠ [].
Proof.
  unfold _chunk_text.
  destruct (fold_left _ _ _) as [chunks cur].
  destruct (decide (cur = "")).
  - by destruct chunks.
  - by destruct chunks.
Qed.

Lemma _update_avg_doc_length_fields (s : KeywordIndexer A) :
  let s' := _update_avg_doc_length s in
  session_id s' = session_id s ∧ index_stats s' = index_stats s ∧
  documents s' = documents s ∧ term_frequencies s' = term_frequencies s ∧
  document_frequencies s' = document_frequencies s ∧
  total_documents s' = total_documents s ∧ doc_lengths s' = doc_lengths s.
Proof. unfold _update_avg_doc_length. by case_decide. Qed.

Lemma sum_list_Permutation (l1 l2 : list nat) : l1 ≡ₚ l2 → sum_list l1 = sum_list l2.
Proof. induction 1; simpl; lia. Qed.

(** A dictionary keyed by the chunk ids is the list of held chunks. *)
Lemma map_of_documents {V} (f : IndexedDocument → V) (docs : list IndexedDocument)
    (m : gmap string V) :
  NoDup (doc_id <$> docs) →
  (∀ id, is_Some (m !! id) ↔ id ∈ doc_id <$> docs) →
  (∀ d, d ∈ docs → m !! doc_id d = Some (f d)) →
  map_to_list m ≡ₚ (λ d, (doc_id d, f d)) <$> docs.
Proof.
  intros Hnd Hkeys Hvals.
  assert (((λ d, (doc_id d, f d)) <$> docs).*1 = doc_id <$> docs) as Hfst.
  { rewrite <- list_fmap_compose. done. }
  set (l := (λ d, (doc_id d, f d)) <$> docs) in *.
  rewrite <- (map_to_list_to_map (M := gmap string) l) by (by rewrite Hfst).
  f_equiv. apply map_eq. intros id.
  destruct (decide (id ∈ doc_id <$> docs)) as [Hin | Hin].
  - apply list_elem_of_fmap in Hin as (d & -> & Hd).
    rewrite (Hvals d Hd). symmetry.
    apply elem_of_list_to_map_1; [by rewrite Hfst |].
    apply list_elem_of_fmap. by exists d.
  - rewrite (not_elem_of_list_to_map_1 _ id) by (by rewrite Hfst).
    apply eq_None_not_Some. by rewrite Hkeys.
Qed.

Lemma sum_doc_lengths_consistent (s : KeywordIndexer A) :
  consistent s →
  sum_doc_lengths (doc_lengths s) = total_tokens (documents s) ∧
  size (doc_lengths s) = length (documents s).
Proof.
  intros Hs.
  pose proof (map_of_documents (λ d, length (tokens d)) (documents s) (doc_lengths s)
                (ids_distinct s Hs) (dl_keys s Hs) (dl_values s Hs)) as Hperm.
  split.
  - unfold sum_doc_lengths, total_tokens. rewrite map_fold_foldr.
    transitivity (sum_list ((map_to_list (doc_lengths s)).*2)).
    { generalize (map_to_list (doc_lengths s)). intros l.
      induction l as [|[k n] l IH]; simpl; [done | by rewrite IH]. }
    rewrite (sum_list_Permutation _ (((λ d, (doc_id d, length (tokens d))) <$> documents s).*2)).
    + by rewrite <- list_fmap_compose.
    + by rewrite Hperm.
  - rewrite <- length_map_to_list, Hperm. by rewrite length_fmap.
Qed.

Lemma index_document_consistent (cfg : Settings) (uuid now : string)
    (s : KeywordIndexer A) (document : string) (md : gmap string value) :
  consistent s → fresh_uuid s uuid →
  consistent (index_document cfg uuid now s document md).1.
Proof.
  intros Hs Hfresh. unfold index_document. simpl.
  match goal with |- context [index_chunks ?b uuid now 0 ?c s] =>
    pose proof (index_chunks_consistent b uuid now c 0 s Hs) as Hc;
    set (s1 := index_chunks b uuid now 0 c s) in * end.
  match goal with |- context [_update_avg_doc_length ?x] =>
    pose proof (_update_avg_doc_length_fields x) as (_ & _ & Hd & Htf & Hdf & _ & Hdl) end.
  eapply consistent_fields; [.. | apply Hc].
  - simpl. by rewrite Hd.
  - simpl. by rewrite Htf.
  - simpl. by rewrite Hdf.
  - simpl. by rewrite Hdl.
  - intros j d _ Hd'. by apply Hfresh.
Qed.

Lemma index_document_counts (cfg : Settings) (uuid now : string)
    (s : KeywordIndexer A) (document : string) (md : gmap string value) :
  consistent s → fresh_uuid s uuid → counts_match s →
  counts_match (index_document cfg uuid now s document md).1.
Proof.
  intros Hs Hfresh [Htot _].
  pose proof (index_document_consistent cfg uuid now s document md Hs Hfresh) as Hc.
  pose proof (sum_doc_lengths_consistent _ Hc) as [Hsum Hsize].
  revert Hc Hsum Hsize. unfold index_document. simpl.
  match goal with |- context [_update_avg_doc_length ?x] =>
    pose proof (_update_avg_doc_length_fields x) as (_ & _ & Hd & _ & _ & Ht & Hdl);
    set (s2 := x) in * end.
  simpl in *. intros Hc Hsum Hsize. split.
  - rewrite Ht, Hd. simpl. rewrite index_chunks_length, index_chunks_total. lia.
  - intros Hne. unfold _update_avg_doc_length in *.
    destruct (decide (doc_lengths s2 = ∅)) as [Hempty | Hnonempty].
    + exfalso. rewrite Hempty, map_size_empty in Hsize.
      destruct (documents s2); [done | simpl in Hsize; lia].
    + simpl in *. by rewrite Hsum, Hsize.
Qed.

Lemma NoDup_fmap_eq {X Y} (f : X → Y) (l : list X) (x y : X) :
  NoDup (f <$> l) → x ∈ l → y ∈ l → f x = f y → x = y.
Proof.
  induction l as [|a l IH]; simpl; intros Hnd Hx Hy Hf.
  - by apply elem_of_nil in Hx.
  - apply NoDup_cons in Hnd as [Ha Hnd].
    apply elem_of_cons in Hx as [-> | Hx]; apply elem_of_cons in Hy as [-> | Hy].
    + done.
    + exfalso. apply Ha. rewrite Hf. by apply list_elem_of_fmap_2.
    + exfalso. apply Ha. rewrite <- Hf. by apply list_elem_of_fmap_2.
    + by apply IH.
Qed.

Lemma length_filter_fmap {X Y} (f : X → Y) (P : Y → Prop) `{!∀ x, Decision (P x)}
    (l : list X) :
  length (filter P (f <$> l)) = length (filter (λ x, P (f x)) l).
Proof.
  induction l as [|a l IH]; [done |].
  rewrite fmap_cons, !filter_cons.
  destruct (decide (P (f a))); rewrite ?length_cons; by rewrite IH.
Qed.

Lemma foldl_delete_lookup {V} (l : list IndexedDocument) (m : gmap string V) (id : string) :
  foldl (λ m doc, delete (doc_id doc) m) m l !! id
  = if decide (id ∈ doc_id <$> l) then None else m !! id.
Proof.
  revert m. induction l as [|d l IH]; intros m.
  - destruct (decide _) as [Hin | Hin]; [by apply elem_of_nil in Hin | done].
  - rewrite fmap_cons. cbn [foldl].
    rewrite IH. destruct (decide (id ∈ doc_id <$> l)) as [Hin | Hin].
    + rewrite decide_True by (by right). done.
    + destruct (decide (doc_id d = id)) as [<- | Hne].
      * rewrite decide_True by (by left). apply lookup_delete_eq.
      * rewrite decide_False.
        -- by apply lookup_delete_ne.
        -- intros [? | ?]%elem_of_cons; [by subst | done].
Qed.

(** The inner loop of the recomputation adds one for every key of
    [term_freq]. *)
Lemma recompute_inner_lookup (term_freq : gmap string nat) (df : gmap string nat)
    (t : string) :
  map_fold (λ term (_ : nat) (df : gmap string nat),
              <[term := default 0 (df !! term) + 1]> df) df term_freq !! t
  = if decide (is_Some (term_freq !! t)) then Some (default 0 (df !! t) + 1)
    else df !! t.
Proof.
  set (f := λ (term : string) (_ : nat) (df : gmap string nat),
              <[term := default 0 (df !! term) + 1]> df).
  refine (map_fold_weak_ind
    (λ r (m : gmap string nat),
       r !! t = if decide (is_Some (m !! t)) then Some (default 0 (df !! t) + 1)
                else df !! t) f df _ _ term_freq).
  - rewrite decide_False; [done |]. rewrite lookup_empty. by intros [? ?].
  - intros i x m r Hi IH. unfold f. destruct (decide (i = t)) as [-> | Hne].
    + rewrite !lookup_insert_eq. rewrite decide_True by (by eexists).
      rewrite decide_False in IH by (rewrite Hi; by intros [? ?]).
      by rewrite IH.
    + rewrite !lookup_insert_ne by done. done.
Qed.

Lemma recompute_document_frequencies_lookup (tfs : gmap string (gmap string nat))
    (t : string) :
  default 0 (recompute_document_frequencies tfs !! t)
  = length (filter (λ p, is_Some (p.2 !! t)) (map_to_list tfs))
  ∧ recompute_document_frequencies tfs !! t ≠ Some 0.
Proof.
  unfold recompute_document_frequencies.
  set (g := λ (term : string) (_ : nat) (df : gmap string nat),
              <[term := default 0 (df !! term) + 1]> df).
  set (f := λ (_ : string) (term_freq : gmap string nat) (df : gmap string nat),
              map_fold g df term_freq).
  refine (map_fold_weak_ind
    (λ r (m : gmap string (gmap string nat)),
       default 0 (r !! t) = length (filter (λ p, is_Some (p.2 !! t)) (map_to_list m))
       ∧ r !! t ≠ Some 0) f ∅ _ _ tfs).
  - rewrite map_to_list_empty, lookup_empty. done.
  - intros i x m r Hi [IH1 IH2]. unfold f, g.
    rewrite recompute_inner_lookup.
    rewrite (map_to_list_insert m i x Hi), filter_cons. simpl.
    destruct (decide (is_Some (x !! t))); simpl.
    + split; [lia | intros [=]; lia].
    + done.
Qed.

Lemma consistent_recompute (s : KeywordIndexer A) :
  NoDup (doc_id <$> documents s) →
  (∀ id, is_Some (term_frequencies s !! id) ↔ id ∈ doc_id <$> documents s) →
  (∀ d, d ∈ documents s → term_frequencies s !! doc_id d = Some (Counter (tokens d))) →
  (∀ id, is_Some (doc_lengths s !! id) ↔ id ∈ doc_id <$> documents s) →
  (∀ d, d ∈ documents s → doc_lengths s !! doc_id d = Some (length (tokens d))) →
  document_frequencies s = recompute_document_frequencies (term_frequencies s) →
  consistent s.
Proof.
  intros H1 H2 H3 H4 H5 Hdf. split; try done.
  - intros t. rewrite Hdf.
    destruct (recompute_document_frequencies_lookup (term_frequencies s) t) as [-> _].
    rewrite (map_of_documents (λ d, Counter (tokens d)) (documents s)) by done.
    rewrite length_filter_fmap. unfold holding_chunks. f_equal.
    apply filter_ext_in. intros d Hd. simpl.
    unfold recorded_tf. rewrite (H3 d Hd), Counter_default, occurrences_pos.
    rewrite Counter_lookup.
    case_decide; [split; [done | intros _; by eexists] | split; [by intros [? ?] | done]].
  - intros t. rewrite Hdf. apply recompute_document_frequencies_lookup.
Qed.

(** The state [delete_session_data] leaves, field by field. *)
Lemma delete_session_data_fields (s : KeywordIndexer A) :
  let s' := (delete_session_data s).1 in
  let gone := filter (λ doc, in_session s doc = true) (documents s) in
  session_id s' = session_id s ∧
  documents s' = filter (λ doc, in_session s doc ≠ true) (documents s) ∧
  term_frequencies s' = foldl (λ m doc, delete (doc_id doc) m) (term_frequencies s) gone ∧
  doc_lengths s' = foldl (λ m doc, delete (doc_id doc) m) (doc_lengths s) gone ∧
  document_frequencies s' = recompute_document_frequencies (term_frequencies s') ∧
  total_documents s' = length (documents s').
Proof.
  unfold delete_session_data. cbn [fst].
  match goal with |- context [_update_avg_doc_length ?x] =>
    pose proof (_update_avg_doc_length_fields x) as (Hs & _ & Hd & Htf & Hdf & Ht & Hdl) end.
  cbn [session_id documents term_frequencies document_frequencies total_documents
       doc_lengths] in *.
  rewrite Hs, Hd, Htf, Hdf, Ht, Hdl. done.
Qed.

Lemma delete_session_data_consistent (s : KeywordIndexer A) :
  consistent s → consistent (delete_session_data s).1.
Proof.
  intros [H1 H2 H3 H4 H5 _ _].
  destruct (delete_session_data_fields s) as (_ & Hd & Htf & Hdl & Hdf & _).
  set (gone := filter (λ doc, in_session s doc = true) (documents s)) in *.
  assert (∀ id, id ∈ doc_id <$> documents (delete_session_data s).1
                ↔ id ∈ doc_id <$> documents s ∧ id ∉ doc_id <$> gone) as Hids.
  { intros id. rewrite Hd. unfold gone. rewrite !list_elem_of_fmap. split.
    - intros (d & -> & [Hns Hd']%list_elem_of_filter). split; [by exists d |].
      intros (d' & Heq & [Hs' Hd'']%list_elem_of_filter).
      rewrite (NoDup_fmap_eq doc_id (documents s) d d' H1 Hd' Hd'' Heq) in Hns. done.
    - intros [(d & -> & Hd') Hnot]. exists d. split; [done |].
      apply list_elem_of_filter. split; [| done].
      intros Hin. apply Hnot. exists d. split; [done |].
      by apply list_elem_of_filter. }
  assert (∀ d, d ∈ documents (delete_session_data s).1 →
               d ∈ documents s ∧ doc_id d ∉ doc_id <$> gone) as Hmem.
  { intros d Hd'. split.
    - rewrite Hd in Hd'. by apply list_elem_of_filter in Hd' as [_ ?].
    - destruct (proj1 (Hids (doc_id d))) as [_ ?]; [by apply list_elem_of_fmap_2 | done]. }
  apply consistent_recompute; [| | | | | done].
  - rewrite Hd. eapply sublist_NoDup; [exact H1 |].
    by apply fmap_sublist, sublist_filter.
  - intros id. rewrite Hids, Htf, foldl_delete_lookup.
    case_decide; [split; [by intros [? ?] | tauto] | rewrite H2; tauto].
  - intros d [Hd' Hnot]%Hmem. rewrite Htf, foldl_delete_lookup, decide_False by done.
    by apply H3.
  - intros id. rewrite Hids, Hdl, foldl_delete_lookup.
    case_decide; [split; [by intros [? ?] | tauto] | rewrite H4; tauto].
  - intros d [Hd' Hnot]%Hmem. rewrite Hdl, foldl_delete_lookup, decide_False by done.
    by apply H5.
Qed.

Lemma delete_session_data_counts (s : KeywordIndexer A) :
  consistent s → counts_match (delete_session_data s).1.
Proof.
  intros Hs.
  pose proof (delete_session_data_consistent s Hs) as Hc.
  pose proof (sum_doc_lengths_consistent _ Hc) as [Hsum Hsize].
  destruct (delete_session_data_fields s) as (_ & _ & _ & _ & _ & Ht).
  split; [done |]. intros Hne.
  revert Hsum Hsize Hne. unfold delete_session_data. cbn [fst].
  match goal with |- context [_update_avg_doc_length ?x] =>
    pose proof (_update_avg_doc_length_fields x) as (_ & _ & Hd & _ & _ & _ & Hdl);
    set (s1 := x) in * end.
  cbn [documents doc_lengths avg_doc_length]. rewrite Hd, Hdl.
  intros Hsum Hsize Hne. unfold _update_avg_doc_length.
  destruct (decide (doc_lengths s1 = ∅)) as [Hempty | Hnonempty].
  - exfalso. rewrite Hempty, map_size_empty in Hsize.
    destruct (documents s1); [done | simpl in Hsize; lia].
  - cbn [avg_doc_length]. by rewrite Hsum, Hsize.
Qed.

(** Every state the indexer goes through has consistent statistics. *)
Lemma reachable_consistent (cfg : Settings) (s : KeywordIndexer A) :
  reachable cfg s → consistent s ∧ counts_match s.
Proof.
  induction 1 as [sid | s uuid now document md _ [IH1 IH2] Hfresh | s _ [IH1 IH2]].
  - split; [apply init_consistent |]. split; [done |]. intros Hne. by destruct Hne.
  - split; [by apply index_document_consistent | by apply index_document_counts].
  - split; [by apply delete_session_data_consistent | by apply delete_session_data_counts].
Qed.

Lemma holding_chunks_containing (s : KeywordIndexer A) (t : string) :
  consistent s → holding_chunks s t = chunks_containing (documents s) t.
Proof.
  intros Hs. unfold holding_chunks, chunks_containing. f_equal.
  apply filter_ext_in. intros d Hd. unfold recorded_tf.
  rewrite (tf_values s Hs d Hd), Counter_default. apply occurrences_pos.
Qed.

Lemma chunks_containing_le (docs : list IndexedDocument) (t : string) :
  chunks_containing docs t ≤ length docs.
Proof. apply length_filter. Qed.

Lemma chunks_containing_pos (docs : list IndexedDocument) (c : IndexedDocument)
    (t : string) :
  c ∈ docs → t ∈ tokens c → chunks_containing docs t ≠ 0.
Proof.
  intros Hc Ht. unfold chunks_containing.
  assert (c ∈ filter (λ d, t ∈ tokens d) docs) as Hin by (by apply list_elem_of_filter).
  destruct (filter _ docs); [by apply elem_of_nil in Hin | done].
Qed.

Lemma total_tokens_ge (docs : list IndexedDocument) (c : IndexedDocument) :
  c ∈ docs → length (tokens c) ≤ total_tokens docs.
Proof.
  unfold total_tokens. induction docs as [|d docs IH]; intros Hc.
  - by apply elem_of_nil in Hc.
  - rewrite fmap_cons. cbn [sum_list sum_list_with compose]. unfold Datatypes.id.
    apply elem_of_cons in Hc as [-> | Hc]; [lia |].
    eapply Nat.le_trans; [exact (IH Hc) | apply Nat.le_add_l].
Qed.

(** The code's term formula is the specification's. *)
Lemma bm25_term_spec (n df tf doc_length : nat) (avg : float A) :
  bm25_term n df tf doc_length avg = spec_term_score n df tf doc_length avg.
Proof.
  unfold bm25_term, spec_term_score, k1, b.
  destruct (py_div _ _) as [ratio|]; [| done]. cbn [mbind option_bind].
  destruct (math_log ratio) as [idf|]; [| done]. cbn [mbind option_bind].
  destruct (py_div (of_int (Z.of_nat doc_length)) avg) as [rel|]; [| done].
  cbn [mbind option_bind].
  by destruct (py_div _ _).
Qed.

Lemma foldl_spec_step_None (docs : list IndexedDocument) (c : IndexedDocument)
    (terms : list string) :
  foldl (spec_step docs c) None terms = None.
Proof. by induction terms. Qed.

Lemma bm25_loop_spec (s : KeywordIndexer A) (c : IndexedDocument)
    (query_terms : list string) (score : float A) :
  consistent s → counts_match s → c ∈ documents s →
  bm25_loop s (Counter (tokens c)) (length (tokens c)) query_terms score
  = foldl (spec_step (documents s) c) (Some score)
      (filter (λ t, t ∈ tokens c ∧ chunks_containing (documents s) t ≠ 0) query_terms).
Proof.
  intros Hs Hcm Hc.
  assert (documents s ≠ []) as Hne.
  { intros Hnil. rewrite Hnil in Hc. by apply elem_of_nil in Hc. }
  destruct Hcm as [Htot Havg]. specialize (Havg Hne).
  revert score. induction query_terms as [|t q IH]; intros score; [done |].
  cbn [bm25_loop]. rewrite Counter_lookup, filter_cons.
  destruct (decide (t ∈ tokens c)) as [Ht | Ht].
  - pose proof (chunks_containing_pos _ _ _ Hc Ht) as Hpos.
    rewrite (df_values s Hs), holding_chunks_containing by done.
    rewrite decide_False by done.
    rewrite decide_True by done.
    cbn [foldl]. unfold spec_step at 2. cbn [mbind option_bind].
    rewrite bm25_term_spec, Htot, Havg.
    destruct (spec_term_score _ _ _ _ _) as [x|]; cbn [mbind option_bind].
    + apply IH.
    + by rewrite foldl_spec_step_None.
  - rewrite decide_False by tauto. apply IH.
Qed.

Lemma _calculate_bm25_score_spec (s : KeywordIndexer A) (c : IndexedDocument)
    (query_terms : list string) :
  consistent s → counts_match s → c ∈ documents s →
  _calculate_bm25_score s query_terms (doc_id c)
  = spec_score (documents s) query_terms c.
Proof.
  intros Hs Hcm Hc. unfold _calculate_bm25_score.
  rewrite (tf_values s Hs c Hc), (dl_values s Hs c Hc). cbn [default].
  by rewrite bm25_loop_spec.
Qed.

End arith.


(** In exact arithmetic the sum of the specification is defined, and it is
    the sum of the closed formula. *)
Lemma spec_score_exact (docs : list IndexedDocument) (c : IndexedDocument)
    (query_terms : list string) :
  c ∈ docs →
  spec_score (A:=Exact.arith) docs query_terms c
  = Some (exact_score docs query_terms c).
Proof.
  intros Hc. unfold spec_score, exact_score.
  assert (∀ ts (score : R),
            Forall (λ t, t ∈ tokens c) ts →
            foldl (spec_step (A:=Exact.arith) docs c) (Some score) ts
            = Some (score + sum_R ((λ t, exact_term_score (length docs)
                                     (chunks_containing docs t)
                                     (occurrences t (tokens c)) (length (tokens c))
                                     (INR (total_tokens docs) / INR (length docs))%R)
                                   <$> ts))%R) as Hfold.
  { induction ts as [|t ts IH]; intros score Hts.
    - simpl. f_equal. lra.
    - apply Forall_cons in Hts as [Ht Hts].
      cbn [foldl]. unfold spec_step at 2. cbn [mbind option_bind].
      rewrite <- bm25_term_spec.
      pose proof (total_tokens_ge _ _ Hc) as Hge.
      assert (0 < length (tokens c)) as Hlen.
      { destruct (tokens c); [by apply elem_of_nil in Ht | simpl; lia]. }
      assert (0 < length docs) as Hdocs.
      { destruct docs; [by apply elem_of_nil in Hc | simpl; lia]. }
      exact_arith.
      rewrite bm25_term_defined.
      + cbn [mbind option_bind]. exact_arith. rewrite (IH _ Hts). f_equal.
        rewrite fmap_cons. cbn [sum_R foldr]. fold sum_R.
        unfold exact_term_score. by rewrite Rplus_assoc.
      + apply chunks_containing_le.
      + apply Rdiv_lt_0_compat; apply lt_0_INR; lia. }
  rewrite Hfold.
  - f_equal. exact_arith. apply Rplus_0_l.
  - apply Forall_forall. intros t Ht. by apply list_elem_of_filter in Ht as [[? _] _].
Qed.

Lemma _calculate_bm25_score_exact (s : KeywordIndexer Exact.arith)
    (c : IndexedDocument) (query_terms : list string) :
  consistent s → counts_match s → c ∈ documents s →
  _calculate_bm25_score s query_terms (doc_id c)
  = Some (exact_score (documents s) query_terms c).
Proof.
  intros Hs Hcm Hc. rewrite _calculate_bm25_score_spec by done.
  by apply spec_score_exact.
Qed.

End KeywordProps.

(** ** The stable descending sort *)

Module SortProps.
Import KeywordSpec.


Section sorting.
Context {A : Arith} {X : Type} (key : X → float A).

Lemma insert_desc_Permutation (x : X) (l : list X) : insert_desc key x l ≡ₚ x :: l.
Proof.
  induction l as [|y l IH]; simpl; [done |].
  destruct (float_lt (key x) (key y)); [| done].
  rewrite IH. apply Permutation_swap.
Qed.

Lemma sort_desc_Permutation (l : list X) : sort_desc key l ≡ₚ l.
Proof.
  induction l as [|x l IH]; simpl; [done |].
  by rewrite insert_desc_Permutation, IH.
Qed.

(** The sort puts no element before one with a greater key, as soon as [<]
    is asymmetric on the keys and its negation is transitive through the
    keys of the elements that satisfy [P]. *)
Section sorted.
Context (P : X → Prop).
Hypothesis asym : ∀ x y, float_lt (key x) (key y) = true → float_lt (key y) (key x) = false.
Hypothesis negtrans : ∀ x y z, P y →
  float_lt (key x) (key y) = false → float_lt (key y) (key z) = false →
  float_lt (key x) (key z) = false.



End sorted.

Lemma before_cons_inv (a x y : X) (l : list X) :
  before (a :: l) x y → (a = x ∧ y ∈ l) ∨ before l x y.
Proof.
  intros (l1 & l2 & l3 & Heq). destruct l1 as [|b l1]; simpl in Heq.
  - injection Heq as -> ->. left. split; [done |].
    apply elem_of_app. right. by left.
  - injection Heq as -> ->. right. by exists l1, l2, l3.
Qed.

Lemma before_cons (a x y : X) (l : list X) : before l x y → before (a :: l) x y.
Proof. intros (l1 & l2 & l3 & ->). by exists (a :: l1), l2, l3. Qed.

Lemma before_head (x y : X) (l : list X) : y ∈ l → before (x :: l) x y.
Proof.
  intros (l2 & l3 & ->)%list_elem_of_split. by exists [], l2, l3.
Qed.

Lemma before_elem_of (x y : X) (l : list X) : before l x y → x ∈ l ∧ y ∈ l.
Proof.
  intros (l1 & l2 & l3 & ->). split.
  - apply elem_of_app. right. by left.
  - apply elem_of_app. right. right. apply elem_of_app. right. by left.
Qed.





Lemma insert_desc_before (a x y : X) (l : list X) :
  before (insert_desc key a l) x y →
  before l x y ∨ (x = a ∧ y ∈ l) ∨ (y = a ∧ x ∈ l ∧ float_lt (key a) (key x) = true).
Proof.
  induction l as [|b l IH]; simpl; intros Hb.
  - apply before_cons_inv in Hb as [[_ Hy] | Hb].
    + by apply elem_of_nil in Hy.
    + by destruct Hb as ([|??] & ? & ? & ?).
  - destruct (float_lt (key a) (key b)) eqn:Hlt.
    + apply before_cons_inv in Hb as [[<- Hy] | Hb].
      * rewrite insert_desc_Permutation in Hy.
        apply elem_of_cons in Hy as [-> | Hy].
        -- right. right. split; [done |]. split; [by left | done].
        -- left. by apply before_head.
      * destruct (IH Hb) as [H | [[-> Hy] | (-> & Hx & Hk)]].
        -- left. by apply before_cons.
        -- right. left. split; [done | by right].
        -- right. right. split; [done |]. split; [by right | done].
    + apply before_cons_inv in Hb as [[<- Hy] | Hb].
      * right. by left.
      * by left.
Qed.

(** The sort is stable: it puts [x] before [y] while the key of [y] is not
    below that of [x] only if [x] was before [y]. *)
Lemma sort_desc_stable (l : list X) (x y : X) :
  before (sort_desc key l) x y → float_lt (key y) (key x) = false → before l x y.
Proof.
  induction l as [|a l IH]; simpl; intros Hb Hk.
  - by destruct Hb as ([|??] & ? & ? & ?).
  - apply insert_desc_before in Hb as [Hb | [[-> Hy] | (-> & Hx & Hlt)]].
    + apply before_cons. by apply IH.
    + apply before_head. by rewrite sort_desc_Permutation in Hy.
    + congruence.
Qed.

End sorting.




(** On real keys the sort keeps the order of elements with equal keys. *)
Lemma sort_desc_stable_exact {X} (key : X → R) (l : list X) (x y : X) :
  before (sort_desc (A:=Exact.arith) key l) x y → key x = key y → before l x y.
Proof.
  intros Hb Hk. apply (sort_desc_stable (A:=Exact.arith) key l x y Hb).
  cbn [float_lt Exact.arith]. rewrite float_lt_exact_false. lra.
Qed.

End SortProps.

(** ** The keyword search *)

Module KeywordSearchProps.
Import Keyword KeywordSpec KeywordProps SortProps.


Section arith.
Context {A : Arith}.

(** What the loop over the documents collects, and when it raises. *)
Lemma score_documents_outcome (s : KeywordIndexer A) (query_terms : list string)
    (filters : gmap string value) (docs : list IndexedDocument) :
  match score_documents s query_terms filters docs with
  | Some scores =>
      scores.*1 `sublist_of` docs ∧
      (∀ d sc, (d, sc) ∈ scores ↔
         d ∈ docs ∧ passes_filters s filters d = true ∧
         _calculate_bm25_score s query_terms (doc_id d) = Some sc ∧
         float_lt (of_int 0) sc = true) ∧
      (∀ d, d ∈ docs → passes_filters s filters d = true →
         is_Some (_calculate_bm25_score s query_terms (doc_id d)))
  | None =>
      ∃ d, d ∈ docs ∧ passes_filters s filters d = true ∧
           _calculate_bm25_score s query_terms (doc_id d) = None
  end.
Proof.
  induction docs as [|doc docs IH].
  - simpl. split; [done |]. split.
    + intros d sc. split; [by intros ?%elem_of_nil | by intros [?%elem_of_nil _]].
    + by intros d ?%elem_of_nil.
  - cbn [score_documents].
    destruct (passes_filters s filters doc) eqn:Hpass.
    + destruct (_calculate_bm25_score s query_terms (doc_id doc)) as [sc0|] eqn:Hsc0;
        cbn [mbind option_bind].
      2:{ exists doc. split; [by left | done]. }
      destruct (score_documents s query_terms filters docs) as [scores|];
        cbn [mbind option_bind].
      2:{ destruct IH as (d & Hd & Hp & Hnone). exists d. split; [by right | done]. }
      destruct IH as (IH1 & IH2 & IH3).
      assert (∀ d, d ∈ doc :: docs → passes_filters s filters d = true →
                   is_Some (_calculate_bm25_score s query_terms (doc_id d))) as Hdef.
      { intros d [-> | Hd]%elem_of_cons Hp; [by eexists | by apply IH3]. }
      destruct (float_lt (of_int 0) sc0) eqn:Hpos.
      * split; [by apply sublist_skip |]. split; [| done].
        intros d sc. rewrite !elem_of_cons, IH2. split.
        -- intros [[= -> ->] | (? & ? & ? & ?)]; [by auto | by auto].
        -- intros ([-> | Hd] & Hp & Hs & Hlt); [| by auto].
           left. congruence.
      * split; [by apply sublist_cons |]. split; [| done].
        intros d sc. rewrite elem_of_cons, IH2. split.
        -- intros (? & ? & ? & ?). by auto.
        -- intros ([-> | Hd] & Hp & Hs & Hlt); [| by auto].
           exfalso. congruence.
    + destruct (score_documents s query_terms filters docs) as [scores|].
      * destruct IH as (IH1 & IH2 & IH3).
        split; [by apply sublist_cons |]. split.
        -- intros d sc. rewrite elem_of_cons, IH2. split.
           ++ intros (? & ? & ? & ?). by auto.
           ++ intros ([-> | Hd] & Hp & Hs & Hlt); [congruence | by auto].
        -- intros d [-> | Hd]%elem_of_cons Hp; [congruence | by apply IH3].
      * destruct IH as (d & Hd & Hp & Hnone). exists d. split; [by right | done].
Qed.

(** When every score is defined the loop raises nothing. *)
Lemma score_documents_spec (s : KeywordIndexer A) (query_terms : list string)
    (filters : gmap string value) (docs : list IndexedDocument) :
  (∀ id, is_Some (_calculate_bm25_score s query_terms id)) →
  ∃ scores,
    score_documents s query_terms filters docs = Some scores ∧
    scores.*1 `sublist_of` docs ∧
    (∀ d sc, (d, sc) ∈ scores ↔
       d ∈ docs ∧ passes_filters s filters d = true ∧
       _calculate_bm25_score s query_terms (doc_id d) = Some sc ∧
       float_lt (of_int 0) sc = true).
Proof.
  intros Htotal.
  pose proof (score_documents_outcome s query_terms filters docs) as H.
  destruct (score_documents s query_terms filters docs) as [scores|].
  - destruct H as (H1 & H2 & _). by exists scores.
  - destruct H as (d & _ & _ & Hnone). destruct (Htotal (doc_id d)) as [? Hsome].
    congruence.
Qed.

Lemma search_unfold (s : KeywordIndexer A) (query : string) (top_k : Z)
    (filters : gmap string value) :
  documents s ≠ [] → _preprocess_text query ≠ [] →
  search s query top_k filters
  = match score_documents s (_preprocess_text query) filters (documents s) with
    | Some scores =>
        Some (to_result <$> PyStr.list_slice_to top_k (sort_desc snd scores))
    | None => None
    end.
Proof.
  intros Hd Hq. unfold search.
  destruct (documents s); [done |]. destruct (_preprocess_text query); [done |].
  by destruct (score_documents _ _ _ _).
Qed.

Context {L : ArithOrder A}.



End arith.

(** In exact arithmetic, on a consistent state, the score of every
    identifier is defined. *)
Lemma _calculate_bm25_score_total (s : KeywordIndexer Exact.arith)
    (query_terms : list string) (id : string) :
  consistent s → counts_match s →
  is_Some (_calculate_bm25_score s query_terms id).
Proof.
  intros Hs Hcm.
  destruct (decide (id ∈ doc_id <$> documents s)) as [Hin | Hin].
  - apply list_elem_of_fmap in Hin as (c & -> & Hc).
    rewrite _calculate_bm25_score_exact by done. by eexists.
  - unfold _calculate_bm25_score.
    destruct (term_frequencies s !! id) eqn:E; [| by eexists].
    exfalso. apply Hin, (tf_keys s Hs). by eexists.
Qed.


End KeywordSearchProps.

(** ** The keyword indexer: the properties of the specification *)

Module KeywordClaims.
Import Keyword KeywordSpec KeywordProps SortProps KeywordSearchProps.

Lemma sample_keyword_reachable :
  reachable Sample.cfg Sample.keyword_state.
Proof.
  apply reach_index; [apply reach_init |].
  intros i d Hd. by apply elem_of_nil in Hd.
Qed.

Lemma sample_python_chunk_held :
  Sample.python_chunk ∈ documents Sample.keyword_state.
Proof.
  apply (list_elem_of_lookup_2 _ 0). vm_compute. reflexivity.
Qed.

(** C6. In every state the keyword indexer goes through (created empty,
    then changed by [index_document], with identifiers that [uuid4] never
    repeats, and by [delete_session_data]), [document_frequencies[t]] is, for
    every term [t], the number of held chunks whose recorded frequency of
    [t] is positive. This holds in particular after each [index_document]
    and each [delete_session_data]; the latter sets [document_frequencies]
    to the full recomputation from the surviving term-frequency maps. *)
Theorem document_frequency_invariant {A : Arith} (cfg : Settings)
    (s : KeywordIndexer A) :
  reachable cfg s →
  (∀ t, default 0 (document_frequencies s !! t) = holding_chunks s t) ∧
  (∀ uuid now document md t,
     fresh_uuid s uuid →
     let s' := (index_document cfg uuid now s document md).1 in
     default 0 (document_frequencies s' !! t) = holding_chunks s' t) ∧
  (let s' := (delete_session_data s).1 in
   document_frequencies s'
   = recompute_document_frequencies (term_frequencies s') ∧
   ∀ t, default 0 (document_frequencies s' !! t) = holding_chunks s' t).
Proof.
  intros Hr. split; [| split].
  - intros t. apply (df_values s). by apply (reachable_consistent cfg).
  - intros uuid now document md t Hfresh s'.
    apply (df_values s'). apply (reachable_consistent cfg). by apply reach_index.
  - intros s'. split.
    + by destruct (delete_session_data_fields s) as (_ & _ & _ & _ & ? & _).
    + intros t. apply (df_values s'). apply (reachable_consistent cfg).
      by apply reach_delete.
Qed.

Lemma document_frequency_invariant_witness :
  (∀ t, default 0 (document_frequencies Sample.keyword_state !! t)
        = holding_chunks Sample.keyword_state t) ∧
  (∀ uuid now document md t,
     fresh_uuid Sample.keyword_state uuid →
     let s' := (index_document Sample.cfg uuid now Sample.keyword_state document md).1 in
     default 0 (document_frequencies s' !! t) = holding_chunks s' t) ∧
  (let s' := (delete_session_data Sample.keyword_state).1 in
   document_frequencies s'
   = recompute_document_frequencies (term_frequencies s') ∧
   ∀ t, default 0 (document_frequencies s' !! t) = holding_chunks s' t).
Proof.
  apply (document_frequency_invariant Sample.cfg Sample.keyword_state).
  apply reach_index; [apply reach_init |].
  intros i d Hd. by apply elem_of_nil in Hd.
Defined.

(** C4. In every state the keyword indexer goes through, and in every
    arithmetic (double precision and the real numbers alike), the outcome of
    [_calculate_bm25_score] for a held chunk [c] is that of the sum of the
    specification: the sum, from [0.0] and in the order of the query, over
    the query terms that occur in [c] and whose document frequency is not
    zero, of
    [ln ((N - df + 0.5) / (df + 0.5))
       * (tf * (k1 + 1) / (tf + k1 * (1 - b + b * (chunkLen / avgLen))))]
    with [k1 = 1.5], [b = 0.75], [N] the number of held chunks, [df] the
    number of held chunks containing the term, [tf] its number of
    occurrences in [c], [chunkLen] the number of terms of [c] and [avgLen]
    the number of terms of the held chunks divided by [N]; every operation
    is the arithmetic's, so that in double precision each one is rounded,
    and the score is undefined exactly when a term of the sum is. A query
    term whose document frequency is zero is skipped: it leaves the running
    score as it is. In exact arithmetic the sum is always defined and is the
    sum of the real numbers the formula denotes. *)
Theorem bm25_cumulative_score {A : Arith} (cfg : Settings) (s : KeywordIndexer A)
    (c : IndexedDocument) (query_terms : list string) :
  reachable cfg s → c ∈ documents s →
  _calculate_bm25_score s query_terms (doc_id c)
  = spec_score (documents s) query_terms c ∧
  (∀ t rest tfd doc_length score,
     default 0 (document_frequencies s !! t) = 0 →
     bm25_loop s tfd doc_length (t :: rest) score
     = bm25_loop s tfd doc_length rest score) ∧
  spec_score (A:=Exact.arith) (documents s) query_terms c
  = Some (exact_score (documents s) query_terms c).
Proof.
  intros Hr Hc. destruct (reachable_consistent cfg s Hr) as [Hs Hcm].
  split; [| split].
  - by apply _calculate_bm25_score_spec.
  - intros t rest tfd doc_length score Hdf. cbn [bm25_loop].
    destruct (tfd !! t); [| done]. by rewrite decide_True.
  - by apply spec_score_exact.
Qed.

Lemma bm25_cumulative_score_witness :
  _calculate_bm25_score Sample2.binary64_state ["a"; "b"] (doc_id Sample2.ab_chunk)
  = spec_score (documents Sample2.binary64_state) ["a"; "b"] Sample2.ab_chunk ∧
  (∀ t rest tfd doc_length score,
     default 0 (document_frequencies Sample2.binary64_state !! t) = 0 →
     bm25_loop Sample2.binary64_state tfd doc_length (t :: rest) score
     = bm25_loop Sample2.binary64_state tfd doc_length rest score) ∧
  spec_score (A:=Exact.arith) (documents Sample2.binary64_state) ["a"; "b"]
    Sample2.ab_chunk
  = Some (exact_score (documents Sample2.binary64_state) ["a"; "b"] Sample2.ab_chunk).
Proof.
  apply (bm25_cumulative_score Sample2.cfg5).
  - apply reach_index; [apply reach_init |].
    intros i d Hd. by apply elem_of_nil in Hd.
  - apply (list_elem_of_lookup_2 _ 0). vm_compute. reflexivity.
Defined.

(** The sample in double precision: "a" occurs in two chunks of six and "b"
    in four, so that their IDF factors are [log 1.8] and [log (1 / 1.8)].
    The chunk "a b" contains both; its score is the rounded sum
    [0.5877866649021191 + -0.587786664902119], which is [2 ** -53] and not
    0, and it is returned, behind the chunk "a x"; with [top_k = 1] it is
    left out. For the query "a" the chunks "a b" and "a x" have the same
    score and come in the order of their ingestion. *)
Lemma binary64_sample_scores :
  _calculate_bm25_score Sample2.binary64_state ["a"; "b"] "doc-1_0"
  = Some (Binary64.int_truediv 1 (2 ^ 53)) ∧
  _calculate_bm25_score Sample2.binary64_state ["a"; "b"] "doc-1_1"
  = Some (Binary64.float_lit 5877866649021191 16) ∧
  _calculate_bm25_score Sample2.binary64_state ["a"; "b"] "doc-1_2"
  = Some (Binary64.float_lit (-587786664902119) 15) ∧
  option_map (map (λ r : SearchResultOf PrimFloat.float, (r_content r, r_score r)))
    (search Sample2.binary64_state "a b" 5 ∅)
  = Some [("a x", Binary64.float_lit 5877866649021191 16);
          ("a b", Binary64.int_truediv 1 (2 ^ 53))] ∧
  option_map (map (λ r : SearchResultOf PrimFloat.float, (r_content r, r_score r)))
    (search Sample2.binary64_state "a b" 1 ∅)
  = Some [("a x", Binary64.float_lit 5877866649021191 16)] ∧
  option_map (map (λ r : SearchResultOf PrimFloat.float, (r_content r, r_score r)))
    (search Sample2.binary64_state "a" 5 ∅)
  = Some [("a b", Binary64.float_lit 5877866649021191 16);
          ("a x", Binary64.float_lit 5877866649021191 16)].
Proof. vm_compute. repeat split; reflexivity. Qed.



Lemma chunk_step_skip (size : Z) (acc : list string * string) (sentence : string) :
  PyStr.strip sentence = "" → chunk_step size acc sentence = acc.
Proof. intros H. destruct acc. unfold chunk_step. rewrite H. by rewrite decide_True. Qed.

Lemma chunk_step_fits (size : Z) (chunks : list string) (cur sentence : string) :
  PyStr.strip sentence ≠ "" →
  (Z.of_nat (PyStr.len cur) + Z.of_nat (PyStr.len (PyStr.strip sentence)) < size)%Z →
  chunk_step size (chunks, cur) sentence
  = (chunks, if decide (cur = "") then PyStr.strip sentence
             else cur +:+ " " +:+ PyStr.strip sentence).
Proof.
  intros Hne Hlt. unfold chunk_step. rewrite decide_False by done.
  by apply Z.ltb_lt in Hlt as ->.
Qed.

Lemma chunk_step_full (size : Z) (chunks : list string) (cur sentence : string) :
  PyStr.strip sentence ≠ "" →
  (size <= Z.of_nat (PyStr.len cur) + Z.of_nat (PyStr.len (PyStr.strip sentence)))%Z →
  chunk_step size (chunks, cur) sentence
  = (if decide (cur = "") then chunks else chunks ++ [cur], PyStr.strip sentence).
Proof.
  intros Hne Hge. unfold chunk_step. rewrite decide_False by done.
  by apply Z.ltb_ge in Hge as ->.
Qed.

(** A chunk size of at most 32 characters splits the two sentences. *)
Lemma two_sentences_chunks (cfg : Settings) :
  (chunk_size cfg <= 32)%Z →
  _chunk_text cfg Sample.two_sentences = ["Python is great"; "SQL is also great"].
Proof.
  intros Hsize. unfold _chunk_text.
  replace (PyStr.split_sentences Sample.two_sentences)
    with ["Python is great"; " SQL is also great"; ""] by (vm_compute; reflexivity).
  cbn [fold_left].
  assert (chunk_step (chunk_size cfg) ([], "") "Python is great"
          = ([], "Python is great")) as ->.
  { destruct (decide (15 < chunk_size cfg)%Z).
    - by rewrite chunk_step_fits.
    - rewrite chunk_step_full; [done | done |].
      change (PyStr.strip "Python is great") with "Python is great".
      change (PyStr.len "Python is great") with 15. simpl. lia. }
  rewrite chunk_step_full; [| done |].
  2:{ change (PyStr.strip " SQL is also great") with "SQL is also great".
      change (PyStr.len "Python is great") with 15.
      change (PyStr.len "SQL is also great") with 17. lia. }
  rewrite chunk_step_skip by done. done.
Qed.

Lemma index_document_documents {A : Arith} (cfg : Settings) (uuid now : string)
    (s : KeywordIndexer A) (document : string) (md : gmap string value) :
  ∃ base,
    documents (index_document cfg uuid now s document md).1
    = documents (index_chunks base uuid now 0 (_chunk_text cfg document) s).
Proof.
  unfold index_document. cbn [fst documents].
  match goal with |- context [_update_avg_doc_length ?x] =>
    pose proof (_update_avg_doc_length_fields x) as (_ & _ & Hd & _) end.
  rewrite Hd. cbn [documents]. by eexists.
Qed.

(** The scenario of the two sentences: the new indexer holds the two
    chunks, and "python", which occurs in one chunk of two, has the IDF
    factor [ln ((2 - 1 + 0.5) / (1 + 0.5)) = ln 1 = 0], so that both chunks
    score 0. *)
Lemma two_sentences_scores (cfg : Settings) (sid uuid now : string)
    (md : gmap string value) :
  (chunk_size cfg <= 32)%Z →
  let s := (index_document (A:=Exact.arith) cfg uuid now (init sid)
              Sample.two_sentences md).1 in
  consistent s ∧ counts_match s ∧
  content <$> documents s = ["Python is great"; "SQL is also great"] ∧
  (∀ c, c ∈ documents s →
        _calculate_bm25_score s (_preprocess_text "Python") (doc_id c) = Some 0%R).
Proof.
  intros Hsize s.
  assert (reachable cfg s) as Hr.
  { apply reach_index; [apply reach_init |]. intros i d Hd. by apply elem_of_nil in Hd. }
  destruct (reachable_consistent cfg s Hr) as [Hs Hcm].
  destruct (index_document_documents (A:=Exact.arith) cfg uuid now (init sid)
              Sample.two_sentences md) as [base Hdocs].
  fold s in Hdocs. rewrite two_sentences_chunks in Hdocs by done.
  cbn [index_chunks index_chunk documents init app] in Hdocs.
  assert (chunks_containing (documents s) "python" = 1) as Hdf.
  { rewrite Hdocs. vm_compute. reflexivity. }
  assert (length (documents s) = 2) as Hn by (by rewrite Hdocs).
  split; [done |]. split; [done |]. split; [by rewrite Hdocs |].
  intros c Hc. change (_preprocess_text "Python") with ["python"].
  rewrite _calculate_bm25_score_exact by done. f_equal.
  unfold exact_score. rewrite filter_cons, filter_nil, Hdf, Hn.
  destruct (decide _); [| done].
  cbn [fmap list_fmap sum_R foldr]. unfold exact_term_score. rewrite Hdf.
  replace ((INR 2 - INR 1 + 0.5) / (INR 1 + 0.5))%R with 1%R by (simpl; lra).
  rewrite ln_1. lra.
Qed.

(** Whatever the filters and [top_k], searching "Python" then returns
    nothing. *)
Lemma two_sentences_search (cfg : Settings) (sid uuid now : string)
    (md filters : gmap string value) (top_k : Z) :
  (chunk_size cfg <= 32)%Z →
  search (index_document (A:=Exact.arith) cfg uuid now (init sid)
            Sample.two_sentences md).1
         "Python" top_k filters = Some [].
Proof.
  intros Hsize.
  destruct (two_sentences_scores cfg sid uuid now md Hsize) as (Hs & Hcm & Hdocs & Hzero).
  set (s := (index_document (A:=Exact.arith) cfg uuid now (init sid)
               Sample.two_sentences md).1) in *.
  rewrite search_unfold; [| intros Hnil; by rewrite Hnil in Hdocs | done].
  destruct (score_documents_spec s (_preprocess_text "Python") filters (documents s))
    as (scores & Hsc & _ & Hmem).
  { intros id. by apply _calculate_bm25_score_total. }
  rewrite Hsc.
  destruct scores as [|[d sc] scores].
  - cbn [sort_desc foldr]. unfold PyStr.list_slice_to.
    destruct (0 <=? top_k)%Z; by rewrite take_nil.
  - exfalso. destruct (proj1 (Hmem d sc)) as (Hd & _ & Hscore & Hpos); [by left |].
    rewrite (Hzero d Hd) in Hscore. injection Hscore as <-.
    apply float_lt_exact in Hpos. exact_arith. lra.
Qed.

(** C7, as amended. When "Python is great. SQL is also great." is ingested
    into a new keyword indexer whose chunk size (at most 32 characters)
    splits the two sentences into two chunks, [search("Python")] returns no
    result at all: the term occurs in one chunk of two, its IDF factor is
    [ln 1 = 0], both chunks score 0, and chunks whose score is not strictly
    positive are excluded. The chunk without "Python" is never ranked; the
    chunk with "Python" is not ranked either. *)
Theorem two_sentences_search_python (cfg : Settings) (sid uuid now : string)
    (md filters : gmap string value) (top_k : Z) :
  (chunk_size cfg <= 32)%Z →
  let s := (index_document (A:=Exact.arith) cfg uuid now (init sid)
              Sample.two_sentences md).1 in
  _chunk_text cfg Sample.two_sentences = ["Python is great"; "SQL is also great"] ∧
  content <$> documents s = ["Python is great"; "SQL is also great"] ∧
  (∀ c, c ∈ documents s →
        _calculate_bm25_score s (_preprocess_text "Python") (doc_id c) = Some 0%R) ∧
  search s "Python" top_k filters = Some [].
Proof.
  intros Hsize s.
  destruct (two_sentences_scores cfg sid uuid now md Hsize) as (_ & _ & Hdocs & Hzero).
  split; [by apply two_sentences_chunks |]. split; [done |]. split; [done |].
  by apply two_sentences_search.
Qed.

Lemma two_sentences_search_python_witness :
  let s := Sample.keyword_state in
  _chunk_text Sample.cfg Sample.two_sentences = ["Python is great"; "SQL is also great"] ∧
  content <$> documents s = ["Python is great"; "SQL is also great"] ∧
  (∀ c, c ∈ documents s →
        _calculate_bm25_score s (_preprocess_text "Python") (doc_id c) = Some 0%R) ∧
  search s "Python" 5 ∅ = Some [].
Proof.
  apply (two_sentences_search_python Sample.cfg "s1" "doc-1" "2024-01-01T00:00:00" ∅ ∅ 5).
  vm_compute. discriminate.
Defined.

(** C7 as stated fails: with a chunk size of 20 the two sentences are two
    chunks, and [search("Python", 5)] returns the empty list, so the chunk
    that contains "Python" is not in the ranking. *)
Lemma two_sentences_python_not_ranked :
  _chunk_text Sample.cfg Sample.two_sentences = ["Python is great"; "SQL is also great"] ∧
  search Sample.keyword_state "Python" 5 ∅ = Some [] ∧
  ¬ ∃ results r,
      search Sample.keyword_state "Python" 5 ∅ = Some results ∧
      r ∈ results ∧ r_content r = "Python is great".
Proof.
  assert (chunk_size Sample.cfg <= 32)%Z as Hsize by (vm_compute; discriminate).
  pose proof (two_sentences_search Sample.cfg "s1" "doc-1" "2024-01-01T00:00:00"
                ∅ ∅ 5 Hsize) as Hsearch.
  fold Sample.keyword_state in Hsearch.
  split; [by apply two_sentences_chunks |]. split; [done |].
  intros (results & r & Hres & Hr & _).
  rewrite Hsearch in Hres. injection Hres as <-. by apply elem_of_nil in Hr.
Qed.

(** The scenario of the two sentences in double precision, with a chunk
    size of 20: [(2 - 1 + 0.5) / (1 + 0.5)] is exactly [1.0], and any C
    library whose logarithm of [1.0] is [0.0] gives both chunks the score
    [0.0], so that the search returns nothing, as in exact arithmetic. *)
Lemma two_sentences_search_binary64 (libm_log : PrimFloat.float → PrimFloat.float)
    (top_k : Z) :
  libm_log (Binary64.of_int 1) = Binary64.of_int 0 →
  search
    (index_document (A:=Binary64.arith libm_log) Sample.cfg "doc-1"
       "2024-01-01T00:00:00" (init "s1") Sample.two_sentences ∅).1
    "Python" top_k ∅ = Some [].
Proof.
  intros Hlog.
  rewrite search_unfold; [| by vm_compute | by vm_compute].
  assert (score_documents
            (index_document (A:=Binary64.arith libm_log) Sample.cfg "doc-1"
               "2024-01-01T00:00:00" (init "s1") Sample.two_sentences ∅).1
            (_preprocess_text "Python") ∅
            (documents
               (index_document (A:=Binary64.arith libm_log) Sample.cfg "doc-1"
                  "2024-01-01T00:00:00" (init "s1") Sample.two_sentences ∅).1)
          = Some []) as ->.
  { vm_compute. vm_compute in Hlog. rewrite Hlog. vm_compute. reflexivity. }
  unfold PyStr.list_slice_to. cbn. by destruct (0 <=? top_k)%Z; rewrite ?take_nil.
Qed.

End KeywordClaims.

(** ** Deletion and session isolation in the vector-store indexers *)

(** [delete_session_data] of the semantic indexer returns [True] and leaves
    the vector store as it is, so a later search gives what it gave
    before. *)
Lemma semantic_delete_keeps_search (X : External) (s : Semantic.SemanticIndexer X)
    (query : string) (top_k : Z) (filters : gmap string value) :
  (Semantic.delete_session_data X s).2 = true ∧
  Semantic.vector_store X (Semantic.delete_session_data X s).1
  = Semantic.vector_store X s ∧
  Semantic.search X (Semantic.delete_session_data X s).1 query top_k filters
  = Semantic.search X s query top_k filters.
Proof. done. Qed.

(** The same for the vector search of the enhanced indexer. *)
Lemma enhanced_delete_keeps_vector_search (X : External)
    (s : Enhanced.EnhancedSemanticIndexer X)
    (query : string) (top_k : Z) (filters : gmap string value) :
  (Enhanced.delete_session_data X s).2 = true ∧
  Enhanced._vector_search X (Enhanced.delete_session_data X s).1 query top_k filters
  = Enhanced._vector_search X s query top_k filters.
Proof. done. Qed.

(** The keyword indexer empties its own index: after
    [delete_session_data] every search is empty. *)
Lemma keyword_search_after_delete {A : Arith} (s : Keyword.KeywordIndexer A)
    (query : string) (top_k : Z) (filters : gmap string value) :
  (Keyword.delete_session_data s).2 = true ∧
  Keyword.search (Keyword.delete_session_data s).1 query top_k filters = Some [].
Proof.
  split; [done |].
  destruct (KeywordProps.delete_session_data_fields s) as (Hsid & Hd & _).
  set (s' := (Keyword.delete_session_data s).1) in *.
  assert (∀ q docs, Forall (λ d, Keyword.passes_filters s' filters d = false) docs →
            Keyword.score_documents s' q filters docs = Some []) as Hskip.
  { intros q docs. induction 1 as [|d docs Hp _ IH]; [done |].
    cbn [Keyword.score_documents]. by rewrite Hp. }
  assert (Forall (λ d, Keyword.passes_filters s' filters d = false)
            (Keyword.documents s')) as Hall.
  { rewrite Hd. apply Forall_forall. intros d [Hns _]%list_elem_of_filter.
    unfold Keyword.passes_filters. rewrite Hsid.
    unfold Keyword.in_session in Hns.
    apply andb_false_iff. left. by destruct (bool_decide _). }
  unfold Keyword.search.
  destruct (Keyword.documents s') eqn:Hdocs; [done |]. rewrite <- Hdocs.
  destruct (Keyword._preprocess_text query) eqn:Hq; [done |].
  rewrite Hskip by (by rewrite Hdocs).
  cbn [mbind option_bind]. unfold sort_desc. cbn [foldr].
  unfold PyStr.list_slice_to. destruct (0 <=? top_k)%Z; by rewrite take_nil.
Qed.

(** C1 at its failing input: a semantic indexer over a store that keeps
    what it is given ingests one document and deletes its session data;
    [delete_session_data] returns [True], and the search that follows still
    returns the ingested chunk. *)
Theorem semantic_search_after_delete :
  ∃ s,
    Sample.semantic_state = Some s ∧
    (Semantic.delete_session_data Sample.memory_store s).2 = true ∧
    r_content <$> Semantic.search Sample.memory_store
                    (Semantic.delete_session_data Sample.memory_store s).1
                    "Python" 5 ∅
    = ["Jane Roe knows Python"].
Proof. eexists. split; [reflexivity |]. split; [reflexivity |]. vm_compute. reflexivity. Qed.

(** When the caller's filters have no session entry, the filter handed to
    the vector store pins the indexer's own session. *)
Lemma search_filter_own_session (sid : string) (filters : gmap string value) :
  filters !! "session_id" = None →
  Semantic.search_filter sid filters !! "session_id" = Some (VStr sid).
Proof.
  intros Hnone. unfold Semantic.search_filter. case_decide.
  - apply lookup_singleton_eq.
  - rewrite lookup_union_r by done. apply lookup_singleton_eq.
Qed.

(** The filter handed to the vector store is the one [search_filter]
    builds. *)
Lemma semantic_search_uses_filter (X : External) (s : Semantic.SemanticIndexer X)
    (query : string) (top_k : Z) (filters : gmap string value) :
  Semantic.search X s query top_k filters
  = match similarity_search_with_score X (Semantic.vector_store X s) query top_k
            (Semantic.search_filter (Semantic.session_id X s) filters) with
    | Some results => Semantic.to_result <$> results
    | None => []
    end.
Proof. done. Qed.

(** C2 at its failing input: a session entry in the caller's filters
    replaces the indexer's own, in the semantic indexer and in both vector
    searches of the enhanced indexer; and a chunk ingested with a session
    entry of the caller's own is then returned to the caller. *)
Theorem search_filter_overridden :
  Semantic.search_filter "s1" {["session_id" := VStr "s2"]} !! "session_id"
  = Some (VStr "s2") ∧
  Enhanced.with_filters {["session_id" := VStr "s1"]} {["session_id" := VStr "s2"]}
    !! "session_id" = Some (VStr "s2") ∧
  ∃ s,
    Sample.semantic_foreign = Some s ∧
    Semantic.session_id Sample.memory_store s = "s1" ∧
    (λ r, (r_content r, r_metadata r !! "session_id"))
      <$> Semantic.search Sample.memory_store s "tenant" 5 {["session_id" := VStr "s2"]}
    = [("Other tenant", Some (VStr "s2"))].
Proof.
  split; [vm_compute; reflexivity |]. split; [vm_compute; reflexivity |].
  eexists. split; [reflexivity |]. split; [reflexivity |]. vm_compute. reflexivity.
Qed.

(** ** Deduplication in the fusion of the enhanced indexer *)

Module DedupProps.
Import Enhanced.

Lemma dedup_go_seen (seen : gset string) (l : list SearchResult) (r : SearchResult) :
  r ∈ dedup_go seen l → (content_key r ∉ seen) ∧ r ∈ l.
Proof.
  revert seen. induction l as [|a l IH]; intros seen; simpl.
  - by intros ?%elem_of_nil.
  - case_decide as Ha.
    + intros [? ?]%IH. split; [done | by right].
    + intros [-> | [Hn ?]%IH]%elem_of_cons; [split; [done | by left] |].
      split; [| by right]. intros Hin. apply Hn, elem_of_union. by right.
Qed.

(** A candidate whose key was seen adds nothing: the loop gives what it
    gives without it. *)
Lemma dedup_go_drop (seen : gset string) (l1 l2 : list SearchResult) (r : SearchResult) :
  (content_key r ∈ seen ∨ ∃ r', r' ∈ l1 ∧ content_key r' = content_key r) →
  dedup_go seen (l1 ++ r :: l2) = dedup_go seen (l1 ++ l2).
Proof.
  revert seen. induction l1 as [|a l1 IH]; intros seen Hseen; simpl.
  - destruct Hseen as [Hin | (r' & []%elem_of_nil & _)]. by rewrite decide_True.
  - case_decide as Ha.
    + apply IH. destruct Hseen as [? | (r' & [-> | ?]%elem_of_cons & Hk)].
      * by left.
      * left. by rewrite <- Hk.
      * right. by exists r'.
    + f_equal. apply IH. destruct Hseen as [? | (r' & [-> | ?]%elem_of_cons & Hk)].
      * left. set_solver.
      * left. rewrite <- Hk. set_solver.
      * right. by exists r'.
Qed.

(** The first candidate of a key is kept, after what is kept of the
    candidates before it. *)
Lemma dedup_go_first (seen : gset string) (l1 l2 : list SearchResult) (r : SearchResult) :
  content_key r ∉ seen →
  (∀ r', r' ∈ l1 → content_key r' ≠ content_key r) →
  ∃ rest, dedup_go seen (l1 ++ r :: l2) = dedup_go seen l1 ++ r :: rest.
Proof.
  revert seen. induction l1 as [|a l1 IH]; intros seen Hseen Hl1; simpl.
  - rewrite decide_False by done. by eexists.
  - assert (content_key a ≠ content_key r) as Hne by (apply Hl1; by left).
    case_decide as Ha.
    + apply IH; [done |]. intros r' Hr'. apply Hl1. by right.
    + destruct (IH ({[content_key a]} ∪ seen)) as [rest Hrest].
      * intros [Hin%elem_of_singleton | Hin]%elem_of_union; [by apply Hne | done].
      * intros r' Hr'. apply Hl1. by right.
      * exists rest. by rewrite Hrest.
Qed.

Lemma dedup_go_sublist (seen : gset string) (l : list SearchResult) :
  dedup_go seen l `sublist_of` l.
Proof.
  revert seen. induction l as [|a l IH]; intros seen; simpl; [done |].
  case_decide; [by apply sublist_cons | by apply sublist_skip].
Qed.

Lemma dedup_go_keys (seen : gset string) (l : list SearchResult) :
  NoDup (content_key <$> dedup_go seen l) ∧
  (∀ r, r ∈ l → content_key r ∈ seen ∨ content_key r ∈ content_key <$> dedup_go seen l).
Proof.
  revert seen. induction l as [|a l IH]; intros seen; simpl.
  - split; [constructor | by intros ? ?%elem_of_nil].
  - case_decide as Ha.
    + destruct (IH seen) as [Hnd Hcov]. split; [done |].
      intros r [-> | Hr]%elem_of_cons; [by left | by apply Hcov].
    + destruct (IH ({[content_key a]} ∪ seen)) as [Hnd Hcov]. split.
      * rewrite fmap_cons. constructor; [| done].
        intros (r & Hk & Hr)%list_elem_of_fmap.
        apply dedup_go_seen in Hr as [Hns _]. apply Hns, elem_of_union. left.
        by apply elem_of_singleton.
      * intros r [-> | Hr]%elem_of_cons.
        -- right. rewrite fmap_cons. by left.
        -- destruct (Hcov r Hr) as [Hin | Hin].
           ++ apply elem_of_union in Hin as [->%elem_of_singleton | Hin].
              ** right. rewrite fmap_cons. by left.
              ** by left.
           ++ right. rewrite fmap_cons. by right.
Qed.

Lemma content_key_of_prefix (r1 r2 : SearchResult) :
  PyStr.take 100 (r_content r1) = PyStr.take 100 (r_content r2) →
  content_key r1 = content_key r2.
Proof. unfold content_key. by intros ->. Qed.

End DedupProps.

(** C8, as amended. [_deduplicate_results] compares the candidates by the
    first 100 characters of their content with the white space at both ends
    stripped. Of two candidates whose first 100 characters are identical the
    later one is dropped: the result is what it is without it. A candidate
    survives exactly when no earlier candidate in the merge order has the
    same stripped key, in which case it follows the survivors among the
    earlier candidates; the survivors keep the merge order and have
    distinct keys. [search] deduplicates the merged candidates first, then
    sorts them by descending score and keeps the first [top_k]. *)
Theorem deduplication_first_seen_wins (X : External) :
  (∀ l1 r1 l2 r2 l3,
     PyStr.take 100 (r_content r1) = PyStr.take 100 (r_content r2) →
     Enhanced._deduplicate_results (l1 ++ r1 :: l2 ++ r2 :: l3)
     = Enhanced._deduplicate_results (l1 ++ r1 :: l2 ++ l3)) ∧
  (∀ l1 r l2,
     (∀ r', r' ∈ l1 → Enhanced.content_key r' ≠ Enhanced.content_key r) →
     ∃ rest,
       Enhanced._deduplicate_results (l1 ++ r :: l2)
       = Enhanced._deduplicate_results l1 ++ r :: rest) ∧
  (∀ l1 r' l2 r l3,
     Enhanced.content_key r' = Enhanced.content_key r →
     Enhanced._deduplicate_results (l1 ++ r' :: l2 ++ r :: l3)
     = Enhanced._deduplicate_results (l1 ++ r' :: l2 ++ l3)) ∧
  (∀ l,
     Enhanced._deduplicate_results l `sublist_of` l ∧
     NoDup (Enhanced.content_key <$> Enhanced._deduplicate_results l)) ∧
  (∀ (s : Enhanced.EnhancedSemanticIndexer X) query top_k filters,
     Enhanced.search X s query top_k filters
     = match Enhanced.all_results X s query top_k filters with
       | Some merged =>
           PyStr.list_slice_to top_k
             (sort_desc (A:=Exact.arith) r_score
                (Enhanced._deduplicate_results merged))
       | None => []
       end).
Proof.
  assert (∀ l1 r' l2 r l3,
     Enhanced.content_key r' = Enhanced.content_key r →
     Enhanced._deduplicate_results (l1 ++ r' :: l2 ++ r :: l3)
     = Enhanced._deduplicate_results (l1 ++ r' :: l2 ++ l3)) as Hdrop.
  { intros l1 r' l2 r l3 Hk. unfold Enhanced._deduplicate_results.
    replace (l1 ++ r' :: l2 ++ r :: l3) with ((l1 ++ r' :: l2) ++ r :: l3)
      by (by rewrite <- app_assoc).
    replace (l1 ++ r' :: l2 ++ l3) with ((l1 ++ r' :: l2) ++ l3)
      by (by rewrite <- app_assoc).
    apply DedupProps.dedup_go_drop. right. exists r'. split; [| done].
    apply elem_of_app. right. by left. }
  split; [| split; [| split; [| split]]].
  - intros l1 r1 l2 r2 l3 Hp. apply Hdrop. by apply DedupProps.content_key_of_prefix.
  - intros l1 r l2 Hl1. apply DedupProps.dedup_go_first; [set_solver | done].
  - exact Hdrop.
  - intros l. split; [apply DedupProps.dedup_go_sublist |].
    apply DedupProps.dedup_go_keys.
  - done.
Qed.

(** C8 as stated fails: of three merged candidates whose contents are
    " x", "x" and "x", the last two have identical first 100 characters and
    the second is the first of them to be met, with another prefix than the
    first candidate; yet only the first candidate survives. *)
Lemma deduplication_drops_first_of_prefix :
  PyStr.take 100 (r_content Sample.plain_first)
  = PyStr.take 100 (r_content Sample.plain_second) ∧
  PyStr.take 100 (r_content Sample.padded)
  ≠ PyStr.take 100 (r_content Sample.plain_first) ∧
  Enhanced._deduplicate_results [Sample.padded; Sample.plain_first; Sample.plain_second]
  = [Sample.padded] ∧
  Sample.plain_first ∉
    Enhanced._deduplicate_results [Sample.padded; Sample.plain_first; Sample.plain_second].
Proof.
  assert (Enhanced._deduplicate_results
            [Sample.padded; Sample.plain_first; Sample.plain_second]
          = [Sample.padded]) as Hd by (vm_compute; reflexivity).
  split; [reflexivity |]. split; [by vm_compute |]. split; [done |].
  rewrite Hd. intros Hin%list_elem_of_singleton.
  by apply (f_equal r_content) in Hin.
Qed.

(** ** The keyword fallback of the enhanced indexer *)

Module FallbackProps.

Lemma append_cons (c : ascii) (a b : string) : String c a +:+ b = String c (a +:+ b).
Proof. reflexivity. Qed.

Lemma append_nil (b : string) : "" +:+ b = b.
Proof. reflexivity. Qed.

Lemma starts_with_spec (p s : string) :
  PyStr.starts_with p s = true ↔ ∃ suf, s = p +:+ suf.
Proof.
  revert s. induction p as [|a p IH]; intros s.
  - split; [intros _; by exists s | done].
  - destruct s as [|b s].
    + split; [done | intros [suf Hsuf]; by rewrite append_cons in Hsuf].
    + cbn [PyStr.starts_with]. case_decide as Hab.
      * subst b. rewrite IH. split.
        -- intros [suf ->]. by exists suf.
        -- intros [suf Hsuf]. rewrite append_cons in Hsuf.
           injection Hsuf as ->. by exists suf.
      * split; [done |]. intros [suf Hsuf]. rewrite append_cons in Hsuf.
        by injection Hsuf as -> _.
Qed.

(** [find] returns -1 exactly when the substring does not occur. *)
Lemma find_None (sub s : string) : PyStr.find sub s = None ↔ ¬ occurs_in sub s.
Proof.
  induction s as [|c s IH].
  - cbn [PyStr.find]. destruct (PyStr.starts_with sub "") eqn:Hst.
    + split; [done |]. intros Hno. exfalso. apply Hno.
      apply starts_with_spec in Hst as [suf Hsuf]. by exists "", suf.
    + split; [| done]. intros _ (pre & suf & Heq).
      destruct pre; [| by rewrite append_cons in Heq].
      rewrite append_nil in Heq.
      assert (PyStr.starts_with sub "" = true) as Ht
        by (apply starts_with_spec; by exists suf).
      congruence.
  - cbn [PyStr.find]. destruct (PyStr.starts_with sub (String c s)) eqn:Hst.
    + split; [done |]. intros Hno. exfalso. apply Hno.
      apply starts_with_spec in Hst as [suf Hsuf]. by exists "", suf.
    + rewrite fmap_None, IH. split.
      * intros Hno (pre & suf & Heq). destruct pre as [|c' pre].
        -- rewrite append_nil in Heq.
           assert (PyStr.starts_with sub (String c s) = true) as Ht
             by (apply starts_with_spec; by exists suf).
           congruence.
        -- rewrite append_cons in Heq. injection Heq as -> ->.
           apply Hno. by exists pre, suf.
      * intros Hno (pre & suf & ->). apply Hno. by exists (String c pre), suf.
Qed.

Lemma keyword_hit_None (text term : string) :
  Enhanced.keyword_hit text term = None ↔ ¬ occurs_in term (PyStr.lower text).
Proof.
  rewrite <- find_None. unfold Enhanced.keyword_hit.
  by destruct (PyStr.find term (PyStr.lower text)).
Qed.

Lemma omap_all_None {A B} (f : A → option B) (l : list A) :
  (∀ x, x ∈ l → f x = None) → omap f l = [].
Proof.
  induction l as [|a l IH]; intros Hall; [done |]. cbn [omap list_omap].
  rewrite (Hall a) by (by left). apply IH. intros x Hx. apply Hall. by right.
Qed.

End FallbackProps.

(** C10. Every call of [EnhancedSemanticIndexer.index_document] stores the
    text it ingests as [self.full_text], whether or not the vector store
    accepts the chunks, so after two ingestions the keyword fallback scans
    the second document only: it returns one result for each query term
    that occurs in the second document (in lower case) and none for the
    other terms. A query whose terms occur in the first document only has
    no fallback result. *)
Theorem keyword_fallback_scans_last_document (X : External)
    (chunker : Settings → string → list Enhanced.ChunkInfo)
    (cfg : Settings) (s : Enhanced.EnhancedSemanticIndexer X)
    (uuid1 now1 doc1 uuid2 now2 doc2 : string) (md1 md2 : gmap string value)
    (query : string) (filters : gmap string value) :
  let s1 := (Enhanced.index_document X chunker cfg uuid1 now1 s doc1 md1).1 in
  let s2 := (Enhanced.index_document X chunker cfg uuid2 now2 s1 doc2 md2).1 in
  Enhanced.full_text X s1 = doc1 ∧
  Enhanced.full_text X s2 = doc2 ∧
  Enhanced._keyword_search X s2 query filters
  = (if decide (doc2 = "") then []
     else omap (Enhanced.keyword_hit doc2) (PyStr.split (PyStr.lower query))) ∧
  (∀ term, Enhanced.keyword_hit doc2 term = None
           ↔ ¬ occurs_in term (PyStr.lower doc2)) ∧
  ((∀ term, term ∈ PyStr.split (PyStr.lower query) →
            ¬ occurs_in term (PyStr.lower doc2)) →
   Enhanced._keyword_search X s2 query filters = []).
Proof.
  intros s1 s2.
  assert (∀ u n st d md,
            Enhanced.full_text X (Enhanced.index_document X chunker cfg u n st d md).1 = d)
    as Hfull.
  { intros u n st d md. unfold Enhanced.index_document.
    by destruct (add_texts X _ _ _). }
  split; [apply Hfull |]. split; [apply Hfull |].
  assert (Enhanced._keyword_search X s2 query filters
          = (if decide (doc2 = "") then []
             else omap (Enhanced.keyword_hit doc2) (PyStr.split (PyStr.lower query))))
    as Hks.
  { unfold Enhanced._keyword_search. unfold s2. by rewrite Hfull. }
  split; [done |]. split; [apply FallbackProps.keyword_hit_None |].
  intros Hnone. rewrite Hks. case_decide; [done |].
  apply FallbackProps.omap_all_None. intros term Hterm.
  by apply FallbackProps.keyword_hit_None, Hnone.
Qed.

(** On a sample: "python" occurs in the first document only; the fallback
    finds it after the first ingestion and no longer after the second. *)
Example keyword_fallback_sample (chunker : Settings → string → list Enhanced.ChunkInfo)
    (s : Enhanced.EnhancedSemanticIndexer Sample.memory_store) :
  let s1 := (Enhanced.index_document Sample.memory_store chunker default_settings
               "doc-1" "t1" s "Jane Roe knows Python" ∅).1 in
  let s2 := (Enhanced.index_document Sample.memory_store chunker default_settings
               "doc-2" "t2" s1 "SQL expert" ∅).1 in
  r_content <$> Enhanced._keyword_search Sample.memory_store s1 "Python" ∅
  = ["Jane Roe knows Python"] ∧
  Enhanced._keyword_search Sample.memory_store s2 "Python" ∅ = [].
Proof.
  intros s1 s2.
  assert (Enhanced.full_text Sample.memory_store s1 = "Jane Roe knows Python") as H1 by done.
  assert (Enhanced.full_text Sample.memory_store s2 = "SQL expert") as H2 by done.
  unfold Enhanced._keyword_search. rewrite H1, H2. split; vm_compute; reflexivity.
Qed.

(** ** The indexer factory *)

Module FactoryProps.
Import IndexingFactory.


Lemma lookup_class_registered (name : string) (cls : IndexerClass) :
  (name, cls) ∈ _indexer_classes → lookup_class name _indexer_classes = Some cls.
Proof.
  unfold _indexer_classes. rewrite !elem_of_cons, elem_of_nil.
  intros [[= -> ->] | [[= -> ->] | [[= -> ->] | []]]]; reflexivity.
Qed.

Lemma lookup_class_unknown (name : string) :
  name ∉ keys → lookup_class name _indexer_classes = None.
Proof.
  unfold keys, _indexer_classes. cbn [fmap list_fmap fst].
  rewrite !not_elem_of_cons. intros (H1 & H2 & H3 & _).
  cbn [lookup_class]. by rewrite !decide_False.
Qed.


Section with_external.
Context (X : External) {A : Arith}.

Lemma construct_class (env : Environment) (cls : IndexerClass) (sid : string)
    (ix : Indexer X) :
  construct X env cls sid = Ok ix → class_of X ix = cls.
Proof.
  destruct cls; cbn [construct].
  - destruct (Enhanced.init X env sid); [by intros [= <-] | done].
  - destruct (Semantic.init X env sid); [by intros [= <-] | done].
  - by intros [= <-].
Qed.


End with_external.
End FactoryProps.



(** The unknown strategy of the specification, and a name in upper case. *)
Example create_indexer_unknown_strategy :
  IndexingFactory.create_indexer (A:=Exact.arith) Sample.memory_store Sample.env
    "unknown-strategy" "s1"
  = Raise (ValueError
      "Unknown indexing strategy: unknown-strategy. Available: semantic, basic_semantic, keyword").
Proof. reflexivity. Qed.

Example create_indexer_upper_case :
  IndexingFactory.create_indexer (A:=Exact.arith) Sample.memory_store
    Sample.default_env "KEYWORD" "s1"
  = Ok (IndexingFactory.IKeyword Sample.memory_store (Keyword.init "s1")).
Proof. reflexivity. Qed.

(** ** The keyword indexer: chunking and tokenisation *)

Module KeywordTextProps.
Import Keyword KeywordStats.

Lemma len_append (a b : string) : PyStr.len (a +:+ b) = PyStr.len a + PyStr.len b.
Proof.
  unfold PyStr.len. induction a as [|c a IH]; [done |].
  rewrite FallbackProps.append_cons. simpl. by rewrite IH.
Qed.

Lemma append_nonempty_l (a b : string) : a ≠ "" → a +:+ b ≠ "".
Proof. destruct a; [done |]. by rewrite FallbackProps.append_cons. Qed.

Section chunking.
Context (size : Z) (sentences : list string).

Lemma chunk_step_packed (acc : list string * string) (sentence : string) :
  sentence ∈ sentences →
  Forall (KeywordStats.packed size sentences) acc.1 →
  (acc.2 = "" ∨ KeywordStats.packed size sentences acc.2) →
  Forall (KeywordStats.packed size sentences) (chunk_step size acc sentence).1 ∧
  ((chunk_step size acc sentence).2 = ""
   ∨ KeywordStats.packed size sentences (chunk_step size acc sentence).2).
Proof.
  destruct acc as [chunks cur]. cbn [fst snd]. intros Hin Hchunks Hcur.
  unfold chunk_step. case_decide as Hempty; [done |].
  assert (KeywordStats.packed size sentences (PyStr.strip sentence)) as Hst.
  { split; [done |]. right. by exists sentence. }
  destruct (_ <? _)%Z eqn:Hfits; cbn [fst snd].
  - split; [done |]. right. case_decide as Hc; [done |].
    split; [by apply append_nonempty_l |]. left.
    apply Z.ltb_lt in Hfits. rewrite !len_append.
    change (PyStr.len " ") with 1. lia.
  - split; [| by right]. case_decide as Hc; [done |].
    apply Forall_app. split; [done |]. apply Forall_singleton.
    by destruct Hcur.
Qed.

Lemma fold_chunk_step_packed (l : list string) (acc : list string * string) :
  (∀ x, x ∈ l → x ∈ sentences) →
  Forall (KeywordStats.packed size sentences) acc.1 →
  (acc.2 = "" ∨ KeywordStats.packed size sentences acc.2) →
  Forall (KeywordStats.packed size sentences) (fold_left (chunk_step size) l acc).1 ∧
  ((fold_left (chunk_step size) l acc).2 = ""
   ∨ KeywordStats.packed size sentences (fold_left (chunk_step size) l acc).2).
Proof.
  revert acc. induction l as [|x l IH]; intros acc Hl H1 H2; [done |].
  cbn [fold_left].
  destruct (chunk_step_packed acc x) as [H1' H2']; [apply Hl; by left | done | done |].
  apply IH; [| done | done]. intros y Hy. apply Hl. by right.
Qed.

End chunking.

Lemma all_chars_rev_app (p : ascii → bool) (a b : string) :
  all_chars p (String.rev_app a b) = all_chars p a && all_chars p b.
Proof.
  revert b. induction a as [|c a IH]; intros b; simpl; [done |].
  rewrite IH. simpl. by destruct (p c), (all_chars p a), (all_chars p b).
Qed.

Lemma rev_app_nonempty (a b : string) : b ≠ "" → String.rev_app a b ≠ "".
Proof. revert b. induction a as [|c a IH]; intros b Hb; simpl; [done |]. by apply IH. Qed.

Lemma lower_char_not_upper (c : ascii) : PyStr.is_upper (PyStr.lower_char c) = false.
Proof. destruct c as [[] [] [] [] [] [] [] []]; reflexivity. Qed.

Lemma lower_char_idempotent (c : ascii) :
  PyStr.lower_char (PyStr.lower_char c) = PyStr.lower_char c.
Proof. unfold PyStr.lower_char at 1. by rewrite lower_char_not_upper. Qed.

Lemma lower_idempotent (s : string) : PyStr.lower (PyStr.lower s) = PyStr.lower s.
Proof.
  induction s as [|c s IH]; [done |]. simpl. by rewrite lower_char_idempotent, IH.
Qed.

Lemma lower_no_upper (s : string) :
  all_chars (λ c, negb (PyStr.is_upper c)) (PyStr.lower s) = true.
Proof.
  induction s as [|c s IH]; [done |]. simpl. by rewrite lower_char_not_upper, IH.
Qed.

Lemma findall_words_go_terms (s cur t : string) :
  all_chars (λ c, negb (PyStr.is_upper c)) s = true →
  all_chars term_char cur = true →
  t ∈ PyStr.findall_words_go cur s →
  t ≠ "" ∧ all_chars term_char t = true.
Proof.
  revert cur. induction s as [|c s IH]; intros cur Hs Hcur; simpl.
  - destruct cur as [|c' cur]; [by intros ?%elem_of_nil |].
    intros ->%list_elem_of_singleton. split.
    + unfold String.rev. simpl. by apply rev_app_nonempty.
    + unfold String.rev. by rewrite all_chars_rev_app, Hcur.
  - simpl in Hs. apply andb_true_iff in Hs as [Hc Hs].
    destruct (PyStr.is_word c) eqn:Hw.
    + apply IH; [done |]. simpl. unfold term_char at 1. by rewrite Hw, Hc, Hcur.
    + destruct cur as [|c' cur]; [by apply IH |].
      intros [-> | Ht]%elem_of_cons; [| by apply (IH "")].
      split.
      * unfold String.rev. simpl. by apply rev_app_nonempty.
      * unfold String.rev. by rewrite all_chars_rev_app, Hcur.
Qed.

End KeywordTextProps.

(** X1. [_chunk_text] always returns at least one chunk. Every chunk is
    the whole input (the fallback when no sentence is found) or is not
    empty and then either has at most [chunk_size] characters or is a single
    stripped sentence (a sentence longer than the chunk size is kept as a
    chunk of its own). *)
Theorem chunk_text_chunks (cfg : Settings) (text c : string) :
  Keyword._chunk_text cfg text ≠ [] ∧
  (c ∈ Keyword._chunk_text cfg text →
   c = text ∨
   (c ≠ "" ∧
    ((Z.of_nat (PyStr.len c) <= chunk_size cfg)%Z ∨
     ∃ sentence, sentence ∈ PyStr.split_sentences text ∧ c = PyStr.strip sentence))).
Proof.
  split; [apply KeywordProps._chunk_text_nonempty |].
  unfold Keyword._chunk_text.
  destruct (KeywordTextProps.fold_chunk_step_packed (chunk_size cfg)
              (PyStr.split_sentences text) (PyStr.split_sentences text) ([], ""))
    as [H1 H2]; [done | done | by left |].
  destruct (fold_left _ _ _) as [chunks cur]. cbn [fst snd] in H1, H2.
  assert (Forall (KeywordStats.packed (chunk_size cfg) (PyStr.split_sentences text))
            (if decide (cur = "") then chunks else chunks ++ [cur])) as Hall.
  { case_decide; [done |]. apply Forall_app. split; [done |].
    apply Forall_singleton. by destruct H2. }
  destruct (if decide (cur = "") then chunks else chunks ++ [cur]) as [|c0 l] eqn:E.
  - intros ->%list_elem_of_singleton. by left.
  - intros Hc. right. by apply (proj1 (Forall_forall _ _) Hall).
Qed.

(** X2. The terms [_preprocess_text] extracts are never empty and consist of
    lower-case letters, digits and underscores only. *)
Theorem preprocess_text_terms (text t : string) :
  t ∈ Keyword._preprocess_text text →
  t ≠ "" ∧ KeywordStats.all_chars KeywordStats.term_char t = true.
Proof.
  unfold Keyword._preprocess_text, PyStr.findall_words.
  apply KeywordTextProps.findall_words_go_terms; [| done].
  apply KeywordTextProps.lower_no_upper.
Qed.

Lemma preprocess_text_terms_witness :
  "o_k" ≠ "" ∧ KeywordStats.all_chars KeywordStats.term_char "o_k" = true.
Proof.
  apply (preprocess_text_terms "C++ is, well: O_K" "o_k").
  vm_compute. do 3 right. left.
Defined.

(** X3. The keyword search does not distinguish upper and lower case in the
    query: the query in lower case gives the same result, exceptions
    included, in every state. *)
Theorem keyword_search_case_insensitive {A : Arith} (s : Keyword.KeywordIndexer A)
    (query : string) (top_k : Z) (filters : gmap string value) :
  Keyword.search s (PyStr.lower query) top_k filters
  = Keyword.search s query top_k filters.
Proof.
  unfold Keyword.search, Keyword._preprocess_text.
  by rewrite KeywordTextProps.lower_idempotent.
Qed.

(** ** The keyword indexer: what [index_document] adds *)

Module KeywordIndexProps.
Import Keyword KeywordSpec KeywordProps.

Lemma index_chunks_documents {A : Arith} (base : gmap string value) (uuid now : string)
    (chunks : list string) (i : nat) (s : KeywordIndexer A) :
  documents (index_chunks base uuid now i chunks s)
  = documents s
    ++ imap (λ j chunk,
               mkIndexedDocument (chunk_id_of uuid (i + j)) chunk
                 (<["chunk_id" := VStr (chunk_id_of uuid (i + j))]>
                    (<["chunk_index" := VInt (Z.of_nat (i + j))]> base))
                 (i + j) now) chunks.
Proof.
  revert i s. induction chunks as [|chunk chunks IH]; intros i s.
  - simpl. by rewrite app_nil_r.
  - cbn [index_chunks]. rewrite IH, imap_cons. cbn [index_chunk documents].
    rewrite <- app_assoc. cbn [app]. rewrite Nat.add_0_r. do 2 f_equal.
    apply imap_ext. intros j chunk' _. cbn [compose].
    by replace (S i + j) with (i + S j) by lia.
Qed.

Lemma index_document_new_documents {A : Arith} (cfg : Settings) (uuid now : string)
    (s : KeywordIndexer A) (document : string) (md : gmap string value) :
  documents (index_document cfg uuid now s document md).1
  = documents s
    ++ imap (λ j chunk,
               mkIndexedDocument (chunk_id_of uuid j) chunk
                 (<["chunk_id" := VStr (chunk_id_of uuid j)]>
                    (<["chunk_index" := VInt (Z.of_nat j)]>
                       (md ∪ <["session_id" := VStr (session_id s)]>
                               (<["doc_id" := VStr uuid]>
                                  (<["indexed_at" := VStr now]> ∅)))))
                 j now) (_chunk_text cfg document).
Proof.
  unfold index_document. cbn [fst documents].
  match goal with |- context [_update_avg_doc_length ?x] =>
    pose proof (_update_avg_doc_length_fields x) as (_ & _ & Hd & _) end.
  rewrite Hd. cbn [documents]. by rewrite index_chunks_documents.
Qed.

Lemma index_document_stats {A : Arith} (cfg : Settings) (uuid now : string)
    (s : KeywordIndexer A) (document : string) (md : gmap string value) :
  session_id (index_document cfg uuid now s document md).1 = session_id s ∧
  index_stats (index_document cfg uuid now s document md).1
  = update_stats now (index_stats s) 1 (length (_chunk_text cfg document)).
Proof.
  unfold index_document. cbn [fst session_id index_stats].
  match goal with |- context [_update_avg_doc_length ?x] =>
    pose proof (_update_avg_doc_length_fields x) as (Hs & Hi & _) end.
  rewrite Hs, Hi. cbn [session_id index_stats].
  assert (∀ base ch i st,
            session_id (index_chunks base uuid now i ch st) = session_id st ∧
            index_stats (index_chunks base uuid now i ch st) = index_stats st) as Hk.
  { intros base ch. induction ch as [|c ch IH]; intros i st; [done |].
    cbn [index_chunks]. destruct (IH (S i) (index_chunk base uuid now st i c)) as [-> ->].
    done. }
  by destruct (Hk (md ∪ <["session_id" := VStr (session_id s)]>
                        (<["doc_id" := VStr uuid]> (<["indexed_at" := VStr now]> ∅)))
                  (_chunk_text cfg document) 0 s) as [-> ->].
Qed.

Lemma imap_second {A B} (f : nat → A → B) (g : B → A) (l : list A) :
  (∀ i x, g (f i x) = x) → imap (λ i, g ∘ f i) l = l.
Proof.
  intros Hg. revert f Hg. induction l as [|x l IH]; intros f Hg; [done |].
  rewrite imap_cons. cbn [compose]. rewrite Hg. f_equal.
  apply (IH (f ∘ S)). intros i y. apply Hg.
Qed.

End KeywordIndexProps.

(** X4. [KeywordIndexer.index_document] only appends: the chunks held before
    stay as they are, in front; the new chunks are the chunks of
    [_chunk_text], in order, numbered from 0 and identified by
    [f"{doc_id}_{i}"]; there is at least one; the returned [chunks_created]
    is their number, and the statistics count one more document and that
    many more chunks. *)
Theorem keyword_index_document_appends {A : Arith} (cfg : Settings) (uuid now : string)
    (s : Keyword.KeywordIndexer A) (document : string) (md : gmap string value) :
  ∃ new,
    Keyword.documents (Keyword.index_document cfg uuid now s document md).1
    = Keyword.documents s ++ new ∧
    content <$> new = Keyword._chunk_text cfg document ∧
    (∀ i d, new !! i = Some d →
            doc_id d = Keyword.chunk_id_of uuid i ∧ chunk_index d = i) ∧
    1 ≤ length new ∧
    res_chunks_created (Keyword.index_document cfg uuid now s document md).2
    = length new ∧
    documents_indexed (Keyword.index_stats (Keyword.index_document cfg uuid now s document md).1)
    = documents_indexed (Keyword.index_stats s) + 1 ∧
    chunks_created (Keyword.index_stats (Keyword.index_document cfg uuid now s document md).1)
    = chunks_created (Keyword.index_stats s) + length new.
Proof.
  eexists. split; [apply KeywordIndexProps.index_document_new_documents |].
  split; [| split; [| split; [| split; [| split]]]].
  - rewrite fmap_imap. by apply KeywordIndexProps.imap_second.
  - intros i d Hd. rewrite list_lookup_imap in Hd.
    destruct (_ !! i); [| done]. by injection Hd as <-.
  - rewrite length_imap.
    pose proof (KeywordProps._chunk_text_nonempty cfg document).
    destruct (Keyword._chunk_text cfg document); [done | simpl; lia].
  - by rewrite length_imap.
  - by destruct (KeywordIndexProps.index_document_stats cfg uuid now s document md) as [_ ->].
  - rewrite length_imap.
    by destruct (KeywordIndexProps.index_document_stats cfg uuid now s document md) as [_ ->].
Qed.

(** X5. The metadata of a chunk ingested by the keyword indexer: the
    entries [chunk_id] and [chunk_index] are always the engine's; every
    other entry of the caller's metadata is attached as it is, also when its
    key is [session_id], [doc_id] or [indexed_at], which the engine fills in
    only when the caller does not supply them. *)
Theorem keyword_chunk_metadata {A : Arith} (cfg : Settings) (uuid now : string)
    (s : Keyword.KeywordIndexer A) (document : string) (md : gmap string value)
    (i : nat) (d : IndexedDocument) :
  Keyword.documents (Keyword.index_document cfg uuid now s document md).1
    !! (length (Keyword.documents s) + i) = Some d →
  metadata d !! "chunk_id" = Some (VStr (Keyword.chunk_id_of uuid i)) ∧
  metadata d !! "chunk_index" = Some (VInt (Z.of_nat i)) ∧
  (∀ key v, key ≠ "chunk_id" → key ≠ "chunk_index" →
            md !! key = Some v → metadata d !! key = Some v) ∧
  (md !! "session_id" = None →
   metadata d !! "session_id" = Some (VStr (Keyword.session_id s))) ∧
  (md !! "doc_id" = None → metadata d !! "doc_id" = Some (VStr uuid)) ∧
  (md !! "indexed_at" = None → metadata d !! "indexed_at" = Some (VStr now)).
Proof.
  rewrite KeywordIndexProps.index_document_new_documents.
  rewrite lookup_app_r by lia.
  replace (length (Keyword.documents s) + i - length (Keyword.documents s)) with i by lia.
  rewrite list_lookup_imap. destruct (_ !! i); [| done]. intros [= <-].
  cbn [metadata]. split; [by rewrite lookup_insert_eq |].
  split; [rewrite lookup_insert_ne by done; by rewrite lookup_insert_eq |].
  split; [| split; [| split]].
  - intros key v H1 H2 Hmd. rewrite !lookup_insert_ne by done.
    by apply lookup_union_Some_l.
  - intros Hnone. rewrite !lookup_insert_ne by done.
    rewrite lookup_union_r by done. by rewrite lookup_insert_eq.
  - intros Hnone. rewrite !lookup_insert_ne by done.
    rewrite lookup_union_r by done. rewrite lookup_insert_ne by done. by rewrite lookup_insert_eq.
  - intros Hnone. rewrite !lookup_insert_ne by done.
    rewrite lookup_union_r by done. rewrite !lookup_insert_ne by done. by rewrite lookup_insert_eq.
Qed.

Lemma keyword_chunk_metadata_witness :
  metadata Sample.python_chunk !! "chunk_id" = Some (VStr (Keyword.chunk_id_of "doc-1" 0)) ∧
  metadata Sample.python_chunk !! "chunk_index" = Some (VInt (Z.of_nat 0)) ∧
  (∀ key v, key ≠ "chunk_id" → key ≠ "chunk_index" →
            (∅ : gmap string value) !! key = Some v →
            metadata Sample.python_chunk !! key = Some v) ∧
  ((∅ : gmap string value) !! "session_id" = None →
   metadata Sample.python_chunk !! "session_id"
   = Some (VStr (Keyword.session_id (Keyword.init (A:=Exact.arith) "s1")))) ∧
  ((∅ : gmap string value) !! "doc_id" = None →
   metadata Sample.python_chunk !! "doc_id" = Some (VStr "doc-1")) ∧
  ((∅ : gmap string value) !! "indexed_at" = None →
   metadata Sample.python_chunk !! "indexed_at" = Some (VStr "2024-01-01T00:00:00")).
Proof.
  apply (keyword_chunk_metadata Sample.cfg "doc-1" "2024-01-01T00:00:00"
           (Keyword.init (A:=Exact.arith) "s1") Sample.two_sentences ∅ 0
           Sample.python_chunk).
  vm_compute. reflexivity.
Defined.

(** ** The keyword indexer: search and deletion in every state it reaches *)

Module KeywordMoreProps.
Import Keyword KeywordSpec KeywordProps SortProps KeywordSearchProps.

Lemma list_slice_to_elem_of {A} (k : Z) (l : list A) (x : A) :
  x ∈ PyStr.list_slice_to k l → x ∈ l.
Proof.
  unfold PyStr.list_slice_to. destruct (0 <=? k)%Z; intros Hx;
    by eapply elem_of_sublist; [| apply sublist_take].
Qed.

(** What [search] returns is a selection of the scored chunks, in any
    state. *)
Lemma search_selection_outcome {A : Arith} (s : KeywordIndexer A) (query : string)
    (top_k : Z) (filters : gmap string value) (results : list (SearchResultOf (float A))) :
  search s query top_k filters = Some results →
  ∃ ranked,
    results = to_result <$> ranked ∧
    ∀ d sc, (d, sc) ∈ ranked →
      d ∈ documents s ∧ passes_filters s filters d = true ∧
      _calculate_bm25_score s (_preprocess_text query) (doc_id d) = Some sc ∧
      float_lt (of_int 0) sc = true.
Proof.
  destruct (decide (documents s = [])) as [Hd | Hd].
  { unfold search. rewrite Hd. intros [= <-]. exists []. split; [done |].
    by intros ?? ?%elem_of_nil. }
  destruct (decide (_preprocess_text query = [])) as [Hq | Hq].
  { unfold search. rewrite Hq. destruct (documents s); [done |].
    intros [= <-]. exists []. split; [done |]. by intros ?? ?%elem_of_nil. }
  rewrite search_unfold by done.
  pose proof (score_documents_outcome s (_preprocess_text query) filters (documents s)) as H.
  destruct (score_documents s (_preprocess_text query) filters (documents s))
    as [scores|]; [| done].
  destruct H as (_ & Hmem & _). intros [= <-].
  eexists. split; [reflexivity |].
  intros d sc Hin%list_slice_to_elem_of. apply Hmem.
  by rewrite <- (sort_desc_Permutation snd scores).
Qed.


(** A chunk whose term-frequency map has none of the query terms scores
    exactly 0, in any state; so does an identifier without a map. *)
Lemma score_without_query_terms {A : Arith} (s : KeywordIndexer A)
    (query_terms : list string) (id : string) :
  (∀ tfd t, term_frequencies s !! id = Some tfd → t ∈ query_terms → tfd !! t = None) →
  _calculate_bm25_score s query_terms id = Some (float_lit 0 1).
Proof.
  intros Hnone. unfold _calculate_bm25_score.
  destruct (term_frequencies s !! id) as [tfd |]; [| done].
  generalize (default 0 (doc_lengths s !! id)). intros n.
  assert (∀ t, t ∈ query_terms → tfd !! t = None) as H by (intros t; by apply Hnone).
  clear Hnone. generalize (float_lit 0 1 : float A).
  induction query_terms as [|t q IH]; intros r; [done |].
  cbn [bm25_loop]. rewrite (H t) by (by left).
  apply IH. intros t' Ht'. apply H. by right.
Qed.

(** In every state the indexer goes through, the [chunk_id] entry of the
    metadata of a held chunk is the identifier of the chunk. *)
Lemma reachable_chunk_ids {A : Arith} (cfg : Settings) (s : KeywordIndexer A) :
  reachable cfg s →
  ∀ d, d ∈ documents s → metadata d !! "chunk_id" = Some (VStr (doc_id d)).
Proof.
  induction 1 as [sid | s uuid now document md _ IH Hfresh | s _ IH]; intros d Hd.
  - by apply elem_of_nil in Hd.
  - rewrite KeywordIndexProps.index_document_new_documents in Hd.
    apply elem_of_app in Hd as [Hd | Hd]; [by apply IH |].
    apply list_elem_of_lookup in Hd as [j Hj].
    apply list_lookup_imap_Some in Hj as (chunk & _ & ->).
    cbn [metadata doc_id]. by rewrite lookup_insert_eq.
  - destruct (delete_session_data_fields s) as (_ & Hdocs & _).
    rewrite Hdocs in Hd. apply list_elem_of_filter in Hd as [_ Hd]. by apply IH.
Qed.

(** The state [delete_session_data] leaves, in full. *)
Lemma delete_session_data_state {A : Arith} (s : KeywordIndexer A) :
  let documents' := filter (λ doc, in_session s doc ≠ true) (documents s) in
  let gone := filter (λ doc, in_session s doc = true) (documents s) in
  let tfs := foldl (λ m doc, delete (doc_id doc) m) (term_frequencies s) gone in
  let dls := foldl (λ m doc, delete (doc_id doc) m) (doc_lengths s) gone in
  delete_session_data s
  = (mkKeywordIndexer (session_id s) (fresh_stats "KeywordIndexer") documents' tfs
       (recompute_document_frequencies tfs) (length documents')
       (if decide (dls = ∅) then avg_doc_length s
        else int_truediv (Z.of_nat (sum_doc_lengths dls)) (Z.of_nat (size dls)))
       dls,
     true).
Proof.
  intros documents' gone tfs dls. unfold delete_session_data, _update_avg_doc_length.
  cbn [doc_lengths]. fold gone documents' tfs dls. by case_decide.
Qed.

Lemma filter_none {A} (P : A → Prop) `{!∀ x, Decision (P x)} (l : list A) :
  (∀ x, x ∈ l → ¬ P x) → filter P l = [].
Proof.
  induction l as [|a l IH]; intros Hl; [done |].
  rewrite filter_cons, decide_False by (apply Hl; by left).
  apply IH. intros x Hx. apply Hl. by right.
Qed.

Lemma filter_all {A} (P : A → Prop) `{!∀ x, Decision (P x)} (l : list A) :
  (∀ x, x ∈ l → P x) → filter P l = l.
Proof.
  induction l as [|a l IH]; intros Hl; [done |].
  rewrite filter_cons, decide_True by (apply Hl; by left).
  f_equal. apply IH. intros x Hx. apply Hl. by right.
Qed.

End KeywordMoreProps.



(** X7. In every state the keyword indexer goes through, and in every
    arithmetic in which [0.0 > 0] is false (double precision and the real
    numbers alike), a held chunk that contains none of the terms of the
    query scores exactly [0.0], and no result of [search] is that chunk: no
    result carries its identifier in the [chunk_id] entry of its metadata,
    which is the identifier of the chunk a result was made from. *)
Theorem keyword_chunk_without_query_terms {A : Arith} {L : ArithOrder A}
    (cfg : Settings) (s : Keyword.KeywordIndexer A) (c : IndexedDocument)
    (query : string) (top_k : Z) (filters : gmap string value) :
  KeywordSpec.reachable cfg s → c ∈ Keyword.documents s →
  Forall (λ t, t ∉ KeywordSpec.tokens c) (Keyword._preprocess_text query) →
  Keyword._calculate_bm25_score s (Keyword._preprocess_text query) (doc_id c)
  = Some (float_lit 0 1) ∧
  (∀ d, d ∈ Keyword.documents s →
        metadata d !! "chunk_id" = Some (VStr (doc_id c)) ↔ d = c) ∧
  ∀ results, Keyword.search s query top_k filters = Some results →
    ∀ r, r ∈ results → r_metadata r !! "chunk_id" ≠ Some (VStr (doc_id c)).
Proof.
  intros Hr Hc Hnone. destruct (KeywordProps.reachable_consistent cfg s Hr) as [Hs Hcm].
  pose proof (KeywordMoreProps.reachable_chunk_ids cfg s Hr) as Hids.
  assert (Keyword._calculate_bm25_score s (Keyword._preprocess_text query) (doc_id c)
          = Some (float_lit 0 1)) as Hzero.
  { apply KeywordMoreProps.score_without_query_terms. intros tfd t Htfd Ht.
    rewrite (KeywordSpec.tf_values s Hs c Hc) in Htfd. injection Htfd as <-.
    rewrite KeywordProps.Counter_lookup. rewrite decide_False; [done |].
    by apply (proj1 (Forall_forall _ _) Hnone). }
  assert (∀ d, d ∈ Keyword.documents s →
               metadata d !! "chunk_id" = Some (VStr (doc_id c)) ↔ d = c) as Hsame.
  { intros d Hd. split; [| intros ->; by apply Hids].
    rewrite (Hids d Hd). intros [= Heq].
    by apply (KeywordProps.NoDup_fmap_eq doc_id (Keyword.documents s) d c
                (KeywordSpec.ids_distinct s Hs)). }
  split; [done |]. split; [done |].
  intros results Hres r Hin Hid.
  destruct (KeywordMoreProps.search_selection_outcome s query top_k filters results Hres)
    as (ranked & -> & Hranked).
  apply list_elem_of_fmap in Hin as ([d sc] & -> & Hin).
  destruct (Hranked d sc Hin) as (Hd & _ & Hscore & Hpos).
  cbn [Keyword.to_result r_metadata fst] in Hid.
  apply (Hsame d Hd) in Hid as ->.
  rewrite Hzero in Hscore. injection Hscore as <-.
  by rewrite float_lit_zero in Hpos.
Qed.

Lemma keyword_chunk_without_query_terms_witness :
  Keyword._calculate_bm25_score Sample2.binary64_state (Keyword._preprocess_text "u")
    (doc_id Sample2.ab_chunk) = Some (float_lit 0 1) ∧
  (∀ d, d ∈ Keyword.documents Sample2.binary64_state →
        metadata d !! "chunk_id" = Some (VStr (doc_id Sample2.ab_chunk))
        ↔ d = Sample2.ab_chunk) ∧
  ∀ results, Keyword.search Sample2.binary64_state "u" 5 ∅ = Some results →
    ∀ r, r ∈ results → r_metadata r !! "chunk_id" ≠ Some (VStr (doc_id Sample2.ab_chunk)).
Proof.
  apply (keyword_chunk_without_query_terms Sample2.cfg5).
  - apply KeywordSpec.reach_index; [apply KeywordSpec.reach_init |].
    intros i d Hd. by apply elem_of_nil in Hd.
  - apply (list_elem_of_lookup_2 _ 0). vm_compute. reflexivity.
  - refine (bool_decide_unpack _ _). vm_compute. exact I.
Defined.

(** ** The keyword indexer: deletion and the statistics report *)

(** X8. [KeywordIndexer.delete_session_data] returns [True], resets the
    statistics, leaves no chunk of the indexer's session, and is idempotent:
    a second deletion changes nothing, in any state. *)
Theorem keyword_delete_idempotent {A : Arith} (s : Keyword.KeywordIndexer A) :
  (Keyword.delete_session_data s).2 = true ∧
  Keyword.index_stats (Keyword.delete_session_data s).1 = fresh_stats "KeywordIndexer" ∧
  (∀ d, d ∈ Keyword.documents (Keyword.delete_session_data s).1 →
        d ∈ Keyword.documents s ∧
        dict_get (metadata d) "session_id" ≠ VStr (Keyword.session_id s)) ∧
  Keyword.delete_session_data (Keyword.delete_session_data s).1
  = Keyword.delete_session_data s.
Proof.
  pose proof (KeywordMoreProps.delete_session_data_state s) as Hstate.
  cbv zeta in Hstate.
  set (documents' := filter (λ doc, Keyword.in_session s doc ≠ true) (Keyword.documents s)) in *.
  set (gone := filter (λ doc, Keyword.in_session s doc = true) (Keyword.documents s)) in *.
  set (tfs := foldl (λ m doc, delete (doc_id doc) m) (Keyword.term_frequencies s) gone) in *.
  set (dls := foldl (λ m doc, delete (doc_id doc) m) (Keyword.doc_lengths s) gone) in *.
  rewrite Hstate. cbn [fst snd Keyword.index_stats Keyword.documents].
  split; [done |]. split; [done |]. split.
  - intros d [Hns Hd]%list_elem_of_filter. split; [done |].
    intros Heq. apply Hns. unfold Keyword.in_session. by apply bool_decide_eq_true.
  - rewrite KeywordMoreProps.delete_session_data_state.
    cbn [Keyword.session_id Keyword.documents Keyword.term_frequencies
         Keyword.doc_lengths Keyword.avg_doc_length].
    set (s' := Keyword.mkKeywordIndexer (Keyword.session_id s) _ documents' tfs _ _ _ dls).
    assert (∀ d, Keyword.in_session s' d = Keyword.in_session s d) as Hin by done.
    assert (filter (λ doc, Keyword.in_session s' doc = true) documents' = []) as ->.
    { apply KeywordMoreProps.filter_none.
      intros d [Hns _]%list_elem_of_filter. by rewrite Hin. }
    assert (filter (λ doc, Keyword.in_session s' doc ≠ true) documents' = documents') as ->.
    { apply KeywordMoreProps.filter_all.
      intros d [Hns _]%list_elem_of_filter. by rewrite Hin. }
    cbn [foldl]. do 2 f_equal. by case_decide.
Qed.

(** X9. In a state the keyword indexer goes through in which every held
    chunk carries the indexer's own session id, [delete_session_data]
    empties the index: no chunk, no term frequencies, no document
    frequencies, no lengths, a chunk count of 0 and fresh statistics. Only
    [avg_doc_length] keeps the value it had. *)
Theorem keyword_delete_empties {A : Arith} (cfg : Settings) (s : Keyword.KeywordIndexer A) :
  KeywordSpec.reachable cfg s →
  forallb (Keyword.in_session s) (Keyword.documents s) = true →
  (Keyword.delete_session_data s).1
  = Keyword.mkKeywordIndexer (Keyword.session_id s) (fresh_stats "KeywordIndexer")
      [] ∅ ∅ 0 (Keyword.avg_doc_length s) ∅.
Proof.
  intros Hr Hall. destruct (KeywordProps.reachable_consistent cfg s Hr) as [Hs _].
  assert (∀ d, d ∈ Keyword.documents s → Keyword.in_session s d = true) as Hin.
  { intros d Hd. apply (proj1 (forallb_forall _ _) Hall). by apply list_elem_of_In. }
  rewrite KeywordMoreProps.delete_session_data_state. cbn [fst].
  rewrite (KeywordMoreProps.filter_none (λ doc, Keyword.in_session s doc ≠ true))
    by (intros d Hd Hne; by apply Hne, Hin).
  rewrite (KeywordMoreProps.filter_all (λ doc, Keyword.in_session s doc = true))
    by done.
  assert (foldl (λ m doc, delete (doc_id doc) m) (Keyword.term_frequencies s)
            (Keyword.documents s) = ∅) as ->.
  { apply map_eq. intros id. rewrite KeywordProps.foldl_delete_lookup, lookup_empty.
    case_decide as Hid; [done |]. apply eq_None_not_Some.
    by rewrite (KeywordSpec.tf_keys s Hs). }
  assert (foldl (λ m doc, delete (doc_id doc) m) (Keyword.doc_lengths s)
            (Keyword.documents s) = ∅) as ->.
  { apply map_eq. intros id. rewrite KeywordProps.foldl_delete_lookup, lookup_empty.
    case_decide as Hid; [done |]. apply eq_None_not_Some.
    by rewrite (KeywordSpec.dl_keys s Hs). }
  rewrite decide_True by done. done.
Qed.

Lemma keyword_delete_empties_witness :
  (Keyword.delete_session_data Sample.keyword_state).1
  = Keyword.mkKeywordIndexer (Keyword.session_id Sample.keyword_state)
      (fresh_stats "KeywordIndexer") [] ∅ ∅ 0
      (Keyword.avg_doc_length Sample.keyword_state) ∅.
Proof.
  apply (keyword_delete_empties Sample.cfg).
  - apply KeywordSpec.reach_index; [apply KeywordSpec.reach_init |].
    intros i d Hd. by apply elem_of_nil in Hd.
  - vm_compute. reflexivity.
Defined.

(** X10. In every state the keyword indexer goes through the per-chunk
    statistics are those of the held chunks: the chunk ids are distinct,
    [term_frequencies] and [doc_lengths] have exactly the held chunk ids as
    keys, the entry of a chunk counts the occurrences of each of its terms
    and the number of its terms, [total_documents] is the number of held
    chunks, and while a chunk is held [avg_doc_length] is the number of
    terms of the held chunks divided by the number of held chunks (a
    division of two [int]s, rounded once in double precision); in exact
    arithmetic that is the mean number of terms per held chunk. *)
Theorem keyword_statistics_consistent {A : Arith} (cfg : Settings)
    (s : Keyword.KeywordIndexer A) :
  KeywordSpec.reachable cfg s →
  NoDup (doc_id <$> Keyword.documents s) ∧
  (∀ id, id ∈ dom (Keyword.term_frequencies s) ↔ id ∈ doc_id <$> Keyword.documents s) ∧
  (∀ id, id ∈ dom (Keyword.doc_lengths s) ↔ id ∈ doc_id <$> Keyword.documents s) ∧
  (∀ d t, d ∈ Keyword.documents s →
     KeywordSpec.recorded_tf s (doc_id d) t = KeywordSpec.occurrences t (KeywordSpec.tokens d) ∧
     Keyword.doc_lengths s !! doc_id d = Some (length (KeywordSpec.tokens d))) ∧
  Keyword.total_documents s = length (Keyword.documents s) ∧
  (Keyword.documents s ≠ [] →
   Keyword.avg_doc_length s
   = int_truediv (Z.of_nat (KeywordSpec.total_tokens (Keyword.documents s)))
                 (Z.of_nat (length (Keyword.documents s)))) ∧
  @int_truediv Exact.arith
    (Z.of_nat (KeywordSpec.total_tokens (Keyword.documents s)))
    (Z.of_nat (length (Keyword.documents s)))
  = (INR (KeywordSpec.total_tokens (Keyword.documents s))
     / INR (length (Keyword.documents s)))%R.
Proof.
  intros Hr. destruct (KeywordProps.reachable_consistent cfg s Hr) as [Hs [Htot Havg]].
  split; [apply (KeywordSpec.ids_distinct s Hs) |].
  split; [intros id; rewrite elem_of_dom; apply (KeywordSpec.tf_keys s Hs) |].
  split; [intros id; rewrite elem_of_dom; apply (KeywordSpec.dl_keys s Hs) |].
  split; [| split; [done |]; split; [done |]].
  - intros d t Hd. split; [| by apply (KeywordSpec.dl_values s Hs)].
    unfold KeywordSpec.recorded_tf. rewrite (KeywordSpec.tf_values s Hs d Hd).
    apply KeywordProps.Counter_default.
  - by exact_arith.
Qed.

Lemma keyword_statistics_consistent_witness :
  NoDup (doc_id <$> Keyword.documents Sample2.binary64_state) ∧
  (∀ id, id ∈ dom (Keyword.term_frequencies Sample2.binary64_state)
         ↔ id ∈ doc_id <$> Keyword.documents Sample2.binary64_state) ∧
  (∀ id, id ∈ dom (Keyword.doc_lengths Sample2.binary64_state)
         ↔ id ∈ doc_id <$> Keyword.documents Sample2.binary64_state) ∧
  (∀ d t, d ∈ Keyword.documents Sample2.binary64_state →
     KeywordSpec.recorded_tf Sample2.binary64_state (doc_id d) t
     = KeywordSpec.occurrences t (KeywordSpec.tokens d) ∧
     Keyword.doc_lengths Sample2.binary64_state !! doc_id d
     = Some (length (KeywordSpec.tokens d))) ∧
  Keyword.total_documents Sample2.binary64_state
  = length (Keyword.documents Sample2.binary64_state) ∧
  (Keyword.documents Sample2.binary64_state ≠ [] →
   Keyword.avg_doc_length Sample2.binary64_state
   = int_truediv
       (Z.of_nat (KeywordSpec.total_tokens (Keyword.documents Sample2.binary64_state)))
       (Z.of_nat (length (Keyword.documents Sample2.binary64_state)))) ∧
  @int_truediv Exact.arith
    (Z.of_nat (KeywordSpec.total_tokens (Keyword.documents Sample2.binary64_state)))
    (Z.of_nat (length (Keyword.documents Sample2.binary64_state)))
  = (INR (KeywordSpec.total_tokens (Keyword.documents Sample2.binary64_state))
     / INR (length (Keyword.documents Sample2.binary64_state)))%R.
Proof.
  apply (keyword_statistics_consistent Sample2.cfg5).
  apply KeywordSpec.reach_index; [apply KeywordSpec.reach_init |].
  intros i d Hd. by apply elem_of_nil in Hd.
Defined.

(** X11. In every state the keyword indexer goes through, the report of
    [get_index_stats] agrees with the index: [total_chunks] is
    [total_documents], and [unique_terms] counts the keys of
    [document_frequencies], which are exactly the terms that occur in some
    held chunk. *)
Theorem keyword_index_stats_report {A : Arith} (cfg : Settings) (s : Keyword.KeywordIndexer A) :
  KeywordSpec.reachable cfg s →
  KeywordStats.total_chunks (KeywordStats.get_index_stats s) = Keyword.total_documents s ∧
  KeywordStats.unique_terms (KeywordStats.get_index_stats s)
  = size (dom (Keyword.document_frequencies s)) ∧
  ∀ t, t ∈ dom (Keyword.document_frequencies s)
       ↔ ∃ d, d ∈ Keyword.documents s ∧ t ∈ KeywordSpec.tokens d.
Proof.
  intros Hr. destruct (KeywordProps.reachable_consistent cfg s Hr) as [Hs [Htot _]].
  split; [done |]. split; [cbn; by rewrite size_dom |].
  intros t. rewrite elem_of_dom.
  pose proof (KeywordSpec.df_values s Hs t) as Hdf.
  pose proof (KeywordSpec.df_positive s Hs t) as Hpos.
  rewrite KeywordProps.holding_chunks_containing in Hdf by done.
  unfold KeywordSpec.chunks_containing in Hdf. split.
  - intros [n Hn]. rewrite Hn in Hdf, Hpos. simpl in Hdf.
    destruct (filter _ _) as [|d l] eqn:E.
    + simpl in Hdf. by subst n.
    + assert (d ∈ filter (λ d, t ∈ KeywordSpec.tokens d) (Keyword.documents s)) as Hd
        by (rewrite E; by left).
      apply list_elem_of_filter in Hd as [? ?]. by exists d.
  - intros (d & Hd & Ht).
    destruct (Keyword.document_frequencies s !! t) as [n |] eqn:E; [by eexists |].
    exfalso. simpl in Hdf.
    assert (d ∈ filter (λ d, t ∈ KeywordSpec.tokens d) (Keyword.documents s)) as Hin
      by (by apply list_elem_of_filter).
    destruct (filter _ _); [by apply elem_of_nil in Hin | done].
Qed.

Lemma keyword_index_stats_report_witness :
  KeywordStats.total_chunks (KeywordStats.get_index_stats Sample.keyword_state)
  = Keyword.total_documents Sample.keyword_state ∧
  KeywordStats.unique_terms (KeywordStats.get_index_stats Sample.keyword_state)
  = size (dom (Keyword.document_frequencies Sample.keyword_state)) ∧
  ∀ t, t ∈ dom (Keyword.document_frequencies Sample.keyword_state)
       ↔ ∃ d, d ∈ Keyword.documents Sample.keyword_state ∧ t ∈ KeywordSpec.tokens d.
Proof.
  apply (keyword_index_stats_report Sample.cfg).
  apply KeywordSpec.reach_index; [apply KeywordSpec.reach_init |].
  intros i d Hd. by apply elem_of_nil in Hd.
Defined.

(** ** The vector-store indexers: fusion, fallback and failures *)

Module EnhancedProps.
Import Enhanced.

Lemma dedup_go_idempotent (seen seen' : gset string) (l : list SearchResult) :
  seen' ⊆ seen → dedup_go seen' (dedup_go seen l) = dedup_go seen l.
Proof.
  revert seen seen'. induction l as [|a l IH]; intros seen seen' Hsub; simpl; [done |].
  case_decide as Ha; [by apply IH |].
  simpl. rewrite decide_False by (intros Hin; by apply Ha, Hsub).
  f_equal. apply IH. intros k [Hk | Hk]%elem_of_union; apply elem_of_union;
    [by left | right; by apply Hsub].
Qed.

Lemma len_rev_app (a b : string) :
  PyStr.len (String.rev_app a b) = PyStr.len a + PyStr.len b.
Proof.
  unfold PyStr.len. revert b. induction a as [|c a IH]; intros b; simpl; [done |].
  rewrite IH. simpl. lia.
Qed.

Lemma len_lstrip (s : string) : PyStr.len (PyStr.lstrip s) ≤ PyStr.len s.
Proof.
  unfold PyStr.len. induction s as [|c s IH]; simpl; [done |].
  destruct (PyStr.isspace c); simpl; lia.
Qed.

Lemma len_strip (s : string) : PyStr.len (PyStr.strip s) ≤ PyStr.len s.
Proof.
  unfold PyStr.strip, String.rev. rewrite len_rev_app.
  pose proof (len_lstrip (String.rev_app (PyStr.lstrip s) "")) as H1.
  rewrite len_rev_app in H1. pose proof (len_lstrip s) as H2.
  change (PyStr.len "") with 0 in *. lia.
Qed.

Lemma len_take (n : nat) (s : string) : PyStr.len (PyStr.take n s) ≤ n.
Proof.
  unfold PyStr.len. revert s. induction n as [|n IH]; intros s; [by destruct s |].
  destruct s as [|c s]; simpl; [lia |]. specialize (IH s). lia.
Qed.

Lemma length_omap_le {A B} (f : A → option B) (l : list A) :
  length (omap f l) ≤ length l.
Proof.
  induction l as [|a l IH]; [done |]. cbn [omap list_omap].
  destruct (f a); simpl; lia.
Qed.

Lemma find_Some_occurs (sub s : string) (i : nat) :
  PyStr.find sub s = Some i → occurs_in sub s.
Proof.
  revert i. induction s as [|c s IH]; intros i; cbn [PyStr.find].
  - destruct (PyStr.starts_with sub "") eqn:Hst; [| done]. intros _.
    apply FallbackProps.starts_with_spec in Hst as [suf Hsuf]. by exists "", suf.
  - destruct (PyStr.starts_with sub (String c s)) eqn:Hst.
    + intros _. apply FallbackProps.starts_with_spec in Hst as [suf Hsuf].
      by exists "", suf.
    + destruct (PyStr.find sub s) as [j |]; [| done]. intros _.
      destruct (IH j eq_refl) as (pre & suf & ->). by exists (String c pre), suf.
Qed.

(** What one fallback result looks like. *)
Lemma keyword_hit_result (text term : string) (r : SearchResult) :
  keyword_hit text term = Some r →
  PyStr.len (r_content r) ≤ PyStr.len term + 400 ∧
  r_doc_id r = VStr "fallback" ∧
  r_metadata r !! "chunk_type" = Some (VStr "keyword") ∧
  r_metadata r !! "session_id" = None ∧
  (0 <= r_score r)%R ∧
  occurs_in term (PyStr.lower text).
Proof.
  unfold keyword_hit.
  destruct (PyStr.find term (PyStr.lower text)) as [i |] eqn:Hfind; [| done].
  intros [= <-]. cbn [r_content r_doc_id r_metadata r_score].
  split; [| split; [done | split; [done | split; [done | split]]]].
  - etrans; [apply len_strip |]. unfold PyStr.slice. etrans; [apply len_take |]. lia.
  - apply Rmult_le_pos; [apply pos_INR | lra].
  - by apply (find_Some_occurs _ _ i).
Qed.

End EnhancedProps.

(** X12. [_deduplicate_results] is idempotent: deduplicating what it
    returns changes nothing. *)
Theorem deduplicate_results_idempotent (l : list SearchResult) :
  Enhanced._deduplicate_results (Enhanced._deduplicate_results l)
  = Enhanced._deduplicate_results l.
Proof. by apply EnhancedProps.dedup_go_idempotent. Qed.

(** X13. When the vector store raises on the first, session-wide similarity
    search, [EnhancedSemanticIndexer.search] returns the empty list: the
    exception leaves [_vector_search] and is caught by [search] itself, so
    neither the contact search nor the keyword fallback runs. *)
Theorem enhanced_search_vector_failure (X : External)
    (s : Enhanced.EnhancedSemanticIndexer X)
    (query : string) (top_k : Z) (filters : gmap string value) :
  similarity_search_with_score X (Enhanced.vector_store X s) query top_k
    (Enhanced.with_filters {["session_id" := VStr (Enhanced.session_id X s)]} filters)
  = None →
  Enhanced.search X s query top_k filters = [].
Proof.
  intros Hfail. unfold Enhanced.search, Enhanced.all_results, Enhanced._vector_search.
  by rewrite Hfail.
Qed.

Lemma enhanced_search_vector_failure_witness :
  Enhanced.search Sample2.failing_store Sample2.failing_enhanced "Python" 8 ∅ = [] ∧
  r_content <$> Enhanced._keyword_search Sample2.failing_store Sample2.failing_enhanced
                  "Python" ∅
  = ["Jane Roe knows Python"].
Proof.
  split.
  - apply (enhanced_search_vector_failure Sample2.failing_store). reflexivity.
  - vm_compute. reflexivity.
Defined.



(** X15. The keyword fallback returns at most one result per query term and
    takes no account of the filters. Each of its results is a snippet of at
    most [len(term) + 400] characters for a term that occurs in the stored
    text, has a score that is not negative, the document id "fallback", and
    metadata without a session entry. *)
Theorem keyword_fallback_results (X : External)
    (s : Enhanced.EnhancedSemanticIndexer X)
    (query : string) (filters filters' : gmap string value) :
  length (Enhanced._keyword_search X s query filters)
  ≤ length (PyStr.split (PyStr.lower query)) ∧
  Enhanced._keyword_search X s query filters'
  = Enhanced._keyword_search X s query filters ∧
  ∀ r, r ∈ Enhanced._keyword_search X s query filters →
    ∃ term,
      term ∈ PyStr.split (PyStr.lower query) ∧
      occurs_in term (PyStr.lower (Enhanced.full_text X s)) ∧
      PyStr.len (r_content r) ≤ PyStr.len term + 400 ∧
      (0 <= r_score r)%R ∧
      r_doc_id r = VStr "fallback" ∧
      r_metadata r !! "session_id" = None.
Proof.
  unfold Enhanced._keyword_search. case_decide as Hempty.
  { split; [simpl; lia |]. split; [done |]. by intros r ?%elem_of_nil. }
  split; [apply EnhancedProps.length_omap_le |]. split; [done |].
  intros r (term & Hterm & Hhit)%list_elem_of_omap.
  destruct (EnhancedProps.keyword_hit_result _ _ _ Hhit) as (H1 & H2 & _ & H4 & H5 & H6).
  by exists term.
Qed.

(** X16. [SemanticIndexer.index_document] appends one entry per chunk to
    [self.documents] before it calls the vector store. When [add_texts]
    raises, nothing is returned, and the statistics and the vector store are
    as before although the chunks are listed; when it succeeds, the returned
    [chunks_created] is the number of chunks and the statistics count one
    more document and that many more chunks. *)
Theorem semantic_index_document_outcome (X : External) (cfg : Settings)
    (uuid now : string) (s : Semantic.SemanticIndexer X) (document : string)
    (md : gmap string value) :
  let chunks :=
    split_text X (chunk_size cfg) (chunk_overlap cfg) Semantic.separators document in
  let r := Semantic.index_document X cfg uuid now s document md in
  (∃ new, Semantic.documents X r.1 = Semantic.documents X s ++ new ∧
          content <$> new = chunks) ∧
  match r.2 with
  | None =>
      Semantic.index_stats X r.1 = Semantic.index_stats X s ∧
      Semantic.vector_store X r.1 = Semantic.vector_store X s
  | Some res =>
      res_chunks_created res = length chunks ∧
      documents_indexed (Semantic.index_stats X r.1)
      = documents_indexed (Semantic.index_stats X s) + 1 ∧
      chunks_created (Semantic.index_stats X r.1)
      = chunks_created (Semantic.index_stats X s) + length chunks
  end.
Proof.
  intros chunks r. unfold r, Semantic.index_document. fold chunks.
  destruct (add_texts X _ _ _); cbn [fst snd Semantic.documents Semantic.index_stats
                                    Semantic.vector_store].
  - split; [| done]. eexists. split; [reflexivity |].
    rewrite fmap_imap. by apply KeywordIndexProps.imap_second.
  - split; [| done]. eexists. split; [reflexivity |].
    rewrite fmap_imap. by apply KeywordIndexProps.imap_second.
Qed.

(** X17. The filters the vector-store indexers hand to the vector store: an
    entry of the caller's filters always wins; the engine's own entries
    ([session_id], and [chunk_type = contact] for the contact search) are
    present only for the keys the caller leaves out. *)
Theorem vector_filters_lookup (sid : string) (filters base : gmap string value)
    (key : string) :
  Semantic.search_filter sid filters !! key
  = match filters !! key with
    | Some v => Some v
    | None => if decide (key = "session_id") then Some (VStr sid) else None
    end ∧
  Enhanced.with_filters base filters !! key
  = match filters !! key with
    | Some v => Some v
    | None => base !! key
    end ∧
  Enhanced.with_filters
    (<["chunk_type" := VStr "contact"]> {["session_id" := VStr sid]}) filters
    !! "chunk_type"
  = Some (default (VStr "contact") (filters !! "chunk_type")).
Proof.
  assert (∀ b : gmap string value,
            Enhanced.with_filters b filters !! key
            = match filters !! key with Some v => Some v | None => b !! key end) as Hw.
  { intros b. unfold Enhanced.with_filters. case_decide as He.
    - subst filters. by rewrite lookup_empty.
    - destruct (filters !! key) eqn:E.
      + by apply lookup_union_Some_l.
      + by rewrite lookup_union_r. }
  split; [| split; [apply Hw |]].
  - change (Semantic.search_filter sid filters)
      with (Enhanced.with_filters {["session_id" := VStr sid]} filters).
    rewrite Hw. destruct (filters !! key); [done |].
    case_decide as Hk; [subst; apply lookup_singleton_eq | by apply lookup_singleton_ne].
  - unfold Enhanced.with_filters. case_decide as He.
    + subst filters. by rewrite lookup_empty, lookup_insert_eq.
    + destruct (filters !! "chunk_type") eqn:E.
      * by apply lookup_union_Some_l.
      * rewrite lookup_union_r by done. by rewrite lookup_insert_eq.
Qed.

(** ** The factory, the model factory and the settings *)

Module FactoryMoreProps.
Import IndexingFactory FactoryListing.

Lemma unknown_strategy_message_head (name : string) :
  ∃ rest, unknown_strategy_message name = String "U" rest.
Proof. unfold unknown_strategy_message. rewrite FallbackProps.append_cons. by eexists. Qed.

(** The errors of the model factory are not the unknown-strategy error. *)
Lemma get_embeddings_not_unknown (env : Environment) (name : string) :
  get_embeddings env ≠ Raise (ValueError (unknown_strategy_message name)).
Proof.
  destruct (unknown_strategy_message_head name) as [rest ->].
  unfold get_embeddings.
  destruct (embedding_provider (settings env)),
    (falsy (google_api_key (settings env))),
    (falsy (openai_api_key (settings env))),
    (has_langchain_openai env), (has_sentence_transformers env); discriminate.
Qed.

Lemma construct_not_unknown (X : External) {A : Arith} (env : Environment)
    (cls : IndexerClass) (sid name : string) :
  construct X env cls sid ≠ Raise (ValueError (unknown_strategy_message name)).
Proof.
  pose proof (get_embeddings_not_unknown env name) as Hemb.
  destruct cls; cbn [construct]; [| | done];
    unfold Enhanced.init, Semantic.init;
    (destruct (get_embeddings env) as [emb | e];
     [| intros [= ->]; by apply Hemb]);
    unfold get_vector_store;
    destruct (vector_store_provider (settings env)), (has_faiss env); discriminate.
Qed.

End FactoryMoreProps.

(** [create_indexer] does not distinguish upper and lower case in the
    strategy name: two names that agree in lower case give the same
    outcome. *)
Theorem create_indexer_case_insensitive (X : External) {A : Arith}
    (env : Environment) (strategy strategy' session_id : string) :
  PyStr.lower strategy = PyStr.lower strategy' →
  IndexingFactory.create_indexer X env strategy session_id
  = IndexingFactory.create_indexer X env strategy' session_id.
Proof. intros Heq. unfold IndexingFactory.create_indexer. by rewrite Heq. Qed.

Lemma create_indexer_case_insensitive_witness :
  IndexingFactory.create_indexer (A:=Exact.arith) Sample.memory_store Sample.env
    "Basic_Semantic" "s1"
  = IndexingFactory.create_indexer Sample.memory_store Sample.env "BASIC_SEMANTIC" "s1".
Proof.
  apply (create_indexer_case_insensitive Sample.memory_store Sample.env). reflexivity.
Defined.

(** X18. [get_available_strategies] lists exactly the registered names, in
    the order of the registry, each with the name of its class and a
    description of its own, and a strategy is listed exactly when
    [create_indexer] does not fail with the unknown-strategy error for
    it. *)
Theorem available_strategies_creatable (X : External) {A : Arith}
    (env : Environment) (strategy session_id : string) :
  FactoryListing.info_name <$> FactoryListing.get_available_strategies
  = IndexingFactory.keys ∧
  Forall (λ info,
            FactoryListing.info_description info ≠ "No description available" ∧
            ∃ cls, (FactoryListing.info_name info, cls) ∈ IndexingFactory._indexer_classes ∧
                   FactoryListing.info_class info = FactoryListing.class_name cls)
         FactoryListing.get_available_strategies ∧
  (PyStr.lower strategy ∈ FactoryListing.info_name <$> FactoryListing.get_available_strategies
   ↔ IndexingFactory.create_indexer X env strategy session_id
     ≠ Raise (ValueError (IndexingFactory.unknown_strategy_message (PyStr.lower strategy)))).
Proof.
  assert (FactoryListing.info_name <$> FactoryListing.get_available_strategies
          = IndexingFactory.keys) as Hnames by reflexivity.
  split; [done |]. split.
  - unfold FactoryListing.get_available_strategies, IndexingFactory._indexer_classes.
    repeat constructor; try done; eexists; (split; [| reflexivity]);
      rewrite !elem_of_cons; auto.
  - rewrite Hnames. unfold IndexingFactory.create_indexer. split.
    + unfold IndexingFactory.keys. intros ([name cls] & Heq & Hin)%list_elem_of_fmap.
      simpl in Heq. subst name.
      rewrite (FactoryProps.lookup_class_registered _ cls Hin).
      apply FactoryMoreProps.construct_not_unknown.
    + intros Hne.
      destruct (decide (PyStr.lower strategy ∈ IndexingFactory.keys)) as [? | Hout]; [done |].
      by rewrite FactoryProps.lookup_class_unknown in Hne.
Qed.

(** X19. [get_default_indexer] for each value the setting
    [indexing_strategy] can take: "keyword" gives a new keyword indexer,
    "semantic" gives what the constructor of the enhanced semantic indexer
    gives, and "hybrid", "metadata" and "advanced" raise the
    unknown-strategy error. The basic semantic indexer is never the
    default. *)
Theorem default_indexer_by_setting (X : External) {A : Arith} (env : Environment)
    (indexing_strategy : FactoryListing.IndexingStrategy) (session_id : string) :
  FactoryListing.get_default_indexer X env indexing_strategy session_id
  = match indexing_strategy with
    | FactoryListing.strategy_keyword =>
        Ok (IndexingFactory.IKeyword X (Keyword.init session_id))
    | FactoryListing.strategy_semantic =>
        IndexingFactory.construct X env IndexingFactory.EnhancedSemanticIndexer session_id
    | _ =>
        Raise (ValueError
                 ("Unknown indexing strategy: "
                  +:+ FactoryListing.strategy_name indexing_strategy
                  +:+ ". Available: semantic, basic_semantic, keyword"))
    end ∧
  ∀ ix, FactoryListing.get_default_indexer X env indexing_strategy session_id = Ok ix →
        IndexingFactory.class_of X ix ≠ IndexingFactory.SemanticIndexer.
Proof.
  split; [by destruct indexing_strategy |].
  intros ix. destruct indexing_strategy;
    unfold FactoryListing.get_default_indexer, IndexingFactory.create_indexer;
    cbn [FactoryListing.strategy_name]; try done.
  - change (IndexingFactory.lookup_class (PyStr.lower "semantic")
              IndexingFactory._indexer_classes)
      with (Some IndexingFactory.EnhancedSemanticIndexer).
    by intros ->%FactoryProps.construct_class.
  - change (IndexingFactory.lookup_class (PyStr.lower "keyword")
              IndexingFactory._indexer_classes)
      with (Some IndexingFactory.KeywordIndexer).
    by intros ->%FactoryProps.construct_class.
Qed.

(** X20. [get_embeddings] succeeds exactly when the key of the configured
    provider is set and not empty (Google, OpenAI) and the provider's package
    can be imported (OpenAI, HuggingFace). It raises a [ValueError] only for
    a missing key and an [ImportError] only for a missing package. *)
Theorem get_embeddings_outcome (env : Environment) :
  ((∃ emb, get_embeddings env = Ok emb) ↔
   match embedding_provider (settings env) with
   | google => falsy (google_api_key (settings env)) = false
   | openai =>
       falsy (openai_api_key (settings env)) = false ∧ has_langchain_openai env = true
   | huggingface => has_sentence_transformers env = true
   end) ∧
  (∀ msg, get_embeddings env = Raise (ValueError msg) →
     match embedding_provider (settings env) with
     | google => falsy (google_api_key (settings env)) = true
     | openai => falsy (openai_api_key (settings env)) = true
     | huggingface => False
     end) ∧
  (∀ msg, get_embeddings env = Raise (ImportError msg) →
     match embedding_provider (settings env) with
     | google => False
     | openai => has_langchain_openai env = false
     | huggingface => has_sentence_transformers env = false
     end) ∧
  falsy (Some "") = true ∧ falsy None = true.
Proof.
  unfold get_embeddings.
  destruct (embedding_provider (settings env)),
    (falsy (google_api_key (settings env))),
    (falsy (openai_api_key (settings env))),
    (has_langchain_openai env), (has_sentence_transformers env);
    (split; [split; [intros [? ?]; by auto | intros ?; by eauto || (by destruct_and?)] |]);
    (split; [intros msg ?; by auto |]); (split; [intros msg ?; by auto |]); done.
Qed.

(** X21. When [Settings.validate_api_keys] passes, [get_embeddings] does not
    raise a [ValueError]: the key it needs is there. *)
Theorem validated_keys_embeddings (env : Environment) (llm_provider : Config.LlmProvider)
    (msg : string) :
  Config.validate_api_keys (settings env) llm_provider = Ok tt →
  get_embeddings env ≠ Raise (ValueError msg).
Proof.
  unfold Config.validate_api_keys, get_embeddings.
  destruct (embedding_provider (settings env)), llm_provider,
    (falsy (google_api_key (settings env))),
    (falsy (openai_api_key (settings env))),
    (has_langchain_openai env), (has_sentence_transformers env); simpl; done.
Qed.

Lemma validated_keys_embeddings_witness :
  get_embeddings Sample.env ≠ Raise (ValueError "Google API key is required for Google embeddings").
Proof.
  apply (validated_keys_embeddings Sample.env Config.llm_google). reflexivity.
Defined.

(** ** A failing contact search, and a term that is found *)

(** X22. When the session-wide vector search succeeds and the vector store
    raises on the contact search, the contact search counts as empty and the
    search goes on: the merged candidates are the vector hits, followed by
    the keyword fallback when there are fewer than three. *)
Theorem enhanced_contact_failure_absorbed (X : External)
    (s : Enhanced.EnhancedSemanticIndexer X)
    (query : string) (top_k : Z) (filters : gmap string value)
    (hits : list (Document * R)) :
  similarity_search_with_score X (Enhanced.vector_store X s) query top_k
    (Enhanced.with_filters {["session_id" := VStr (Enhanced.session_id X s)]} filters)
  = Some hits →
  similarity_search_with_score X (Enhanced.vector_store X s) query 5
    (Enhanced.with_filters
       (<["chunk_type" := VStr "contact"]>
          {["session_id" := VStr (Enhanced.session_id X s)]}) filters)
  = None →
  Enhanced.all_results X s query top_k filters
  = Some (if decide (length hits < 3)
          then (Semantic.to_result <$> hits) ++ Enhanced._keyword_search X s query filters
          else Semantic.to_result <$> hits).
Proof.
  intros Hv Hc. unfold Enhanced.all_results, Enhanced._vector_search, Enhanced._contact_search.
  rewrite Hv, Hc. cbn [mbind option_bind]. f_equal.
  destruct (existsb _ _); rewrite ?app_nil_r, length_fmap; done.
Qed.

Lemma enhanced_contact_failure_absorbed_witness :
  Enhanced.all_results Sample2.contact_failing_store Sample2.contact_failing_enhanced
    "email" 8 ∅
  = Some (if decide (length ([] : list (Document * R)) < 3)
          then (Semantic.to_result <$> [])
               ++ Enhanced._keyword_search Sample2.contact_failing_store
                    Sample2.contact_failing_enhanced "email" ∅
          else Semantic.to_result <$> []).
Proof.
  apply (enhanced_contact_failure_absorbed Sample2.contact_failing_store
           Sample2.contact_failing_enhanced "email" 8 ∅ []); reflexivity.
Defined.


